(** * TskAuto: the file-extraction automation class of The Sleuth Kit

    A shallow embedding of [tsk3/auto/auto.cpp].  The class [TskAuto] walks an
    opened disk image: volume system, partitions, file systems, directory
    entries, attributes.  The walkers are written against the C library of
    The Sleuth Kit ([tsk_img_open], [tsk_vs_part_walk], [tsk_fs_dir_walk], ...)
    and against four virtual methods the user overrides ([filterVol],
    [filterFs], [processFile], [processAttribute]).

    The embedding threads an explicit state through every method:
    - the fields of the session object ([m_img_info], [m_tag], the two filter
      settings);
    - the process-wide error slot ([tsk_errno]) and the verbosity switch;
    - everything the library and the user's subclass keep for themselves, as
      an abstract component [Ext];
    - a call log, written by the methods of this file whenever they call out
      of [auto.cpp].  The library and the virtual methods cannot write it
      (the two walk primitives run callbacks of this file, which do). *)

From Stdlib Require Import ZArith List String Ascii Bool Lia.
Import ListNotations.
Open Scope Z_scope.

(** ** Enumerations of the library headers *)

(** [TSK_RETVAL_ENUM]: the outcome of a walker or of a processing hook. *)
Inductive TSK_RETVAL_ENUM : Type :=
| TSK_OK
| TSK_ERR
| TSK_COR
| TSK_STOP.

(** [TSK_WALK_RET_ENUM]: what a walk callback answers to the library. *)
Inductive TSK_WALK_RET_ENUM : Type :=
| TSK_WALK_CONT
| TSK_WALK_STOP
| TSK_WALK_ERROR.

(** [TSK_FILTER_ENUM]: the verdict of [filterVol] and [filterFs]. *)
Inductive TSK_FILTER_ENUM : Type :=
| TSK_FILTER_CONT
| TSK_FILTER_STOP
| TSK_FILTER_SKIP.

(** Constants of the headers that [auto.cpp] names.  Their values are fixed by
    [tsk_auto.h], [tsk_vs.h] and [tsk_fs.h]; the development is parametric in
    them. *)
Class TskHeaders : Type := {
  TSK_AUTO_TAG : Z;
  TSK_VS_PART_FLAG_ALLOC : Z;
  TSK_FS_DIR_WALK_FLAG_RECURSE : Z;
  TSK_VS_TYPE_DETECT : Z;
  TSK_FS_TYPE_DETECT : Z;
  TSK_FS_NAME_TYPE_DIR : Z;
  TSK_FS_NAME_TYPE_REG : Z
}.

(** ** Structures of the library that [auto.cpp] reads *)

Record TSK_IMG_INFO : Type := { img_id : Z }.

Record TSK_VS_INFO : Type := {
  vs_offset : Z;
  block_size : Z;      (* unsigned int *)
  part_count : Z       (* TSK_PNUM_T, 32 bits unsigned *)
}.

Record TSK_VS_PART_INFO : Type := {
  vs : TSK_VS_INFO;
  start : Z;           (* TSK_DADDR_T, 64 bits unsigned, in blocks *)
  len : Z;
  part_flags : Z
}.

Record TSK_FS_INFO : Type := {
  fs_offset : Z;
  ftype : Z;
  root_inum : Z        (* TSK_INUM_T *)
}.

Record TSK_FS_ATTR : Type := {
  attr_type : Z;
  attr_flags : Z
}.

Module FsName.
(** [TSK_FS_NAME]: [name] is the buffer of [name_size] bytes holding the
    NUL-terminated name; [type] is the [TSK_FS_NAME_TYPE_ENUM] of the entry and
    [flags] its [TSK_FS_NAME_FLAG_ENUM] bits (allocated / unallocated). *)
Record t : Type := mk {
  name : string;
  name_size : Z;
  meta_addr : Z;
  type : Z;
  flags : Z
}.
End FsName.
Definition TSK_FS_NAME : Type := FsName.t.

Module FsFile.
(** [TSK_FS_FILE]: both pointers may be NULL. *)
Record t : Type := mk {
  name : option TSK_FS_NAME;
  fs_info : option TSK_FS_INFO
}.
End FsFile.
Definition TSK_FS_FILE : Type := FsFile.t.

(** ** Machine integers *)

Definition two32 : Z := 2 ^ 32.
Definition two64 : Z := 2 ^ 64.

(** Arithmetic on [uint32_t] and [uint64_t] wraps around. *)
Definition wrap32 (z : Z) : Z := z mod two32.
Definition wrap64 (z : Z) : Z := z mod two64.

(** Conversion of a 64-bit unsigned value to [TSK_OFF_T] ([int64_t]). *)
Definition to_off (z : Z) : Z :=
  let u := wrap64 z in if u <? 2 ^ 63 then u else u - two64.

(** ** Name buffers *)

Definition NUL : ascii := Ascii.zero.

(** [name[i]].  The source never reads at or past [name_size]; outside the
    buffer (undefined in C) the model reads NUL. *)
Definition char_at (buf : string) (i : nat) : ascii :=
  match String.get i buf with
  | Some c => c
  | None => NUL
  end.

(** The C string held by a buffer: the bytes before the first NUL. *)
Fixpoint c_str (buf : string) : string :=
  match buf with
  | EmptyString => EmptyString
  | String c rest => if Ascii.eqb c NUL then EmptyString else String c (c_str rest)
  end.

(** A buffer of [n] bytes holding [s] followed by NUL padding. *)
Fixpoint c_buf (s : string) (n : nat) : string :=
  match n with
  | O => EmptyString
  | S n' =>
      match s with
      | EmptyString => String NUL (c_buf EmptyString n')
      | String c rest => String c (c_buf rest n')
      end
  end.

Fixpoint has_nul (buf : string) : bool :=
  match buf with
  | EmptyString => false
  | String c rest => Ascii.eqb c NUL || has_nul rest
  end.

(** A name structure as the library hands it out: [name_size] is the size of
    the buffer and the name is terminated inside it. *)
Definition wf_name (n : TSK_FS_NAME) : Prop :=
  FsName.name_size n = Z.of_nat (String.length (FsName.name n)) /\
  has_nul (FsName.name n) = true.

(** ** Predicate utilities *)

Section Predicates.
Context {hdr : TskHeaders}.

(** [TskAuto::isDotDir]; [a_path] is unused by the source. *)
Definition isDotDir (a_fs_file : option TSK_FS_FILE) (a_path : string) : Z :=
  match a_fs_file with
  | None => 0
  | Some f =>
      match FsFile.name f with
      | None => 0
      | Some n =>
          if Z.land (FsName.flags n) TSK_FS_NAME_TYPE_DIR =? 0 then 0
          else if (2 <=? FsName.name_size n)
                  && Ascii.eqb (char_at (FsName.name n) 0) "."
                  && (Ascii.eqb (char_at (FsName.name n) 1) NUL
                      || ((2 <? FsName.name_size n)
                          && Ascii.eqb (char_at (FsName.name n) 1) "."
                          && Ascii.eqb (char_at (FsName.name n) 2) NUL))
               then 1
               else 0
      end
  end.

(** [TskAuto::isDir] *)
Definition isDir (a_fs_file : option TSK_FS_FILE) : Z :=
  match a_fs_file with
  | None => 0
  | Some f =>
      match FsFile.name f with
      | None => 0
      | Some n => if FsName.type n =? TSK_FS_NAME_TYPE_DIR then 1 else 0
      end
  end.

(** [TskAuto::isFile] *)
Definition isFile (a_fs_file : option TSK_FS_FILE) : Z :=
  match a_fs_file with
  | None => 0
  | Some f =>
      match FsFile.name f with
      | None => 0
      | Some n => if FsName.type n =? TSK_FS_NAME_TYPE_REG then 1 else 0
      end
  end.

End Predicates.

(** ** The state threaded through the methods *)

(** The data members of [TskAuto]. *)
Record TskAuto : Type := {
  m_img_info : option TSK_IMG_INFO;
  m_tag : Z;
  m_volFilterFlags : Z;
  m_fileFilterFlags : Z
}.

(** One entry of the call log: a call out of [auto.cpp], with its arguments
    and, where the call has returned, its result. *)
Inductive Event : Type :=
| EvImgOpen (a_numImg : Z) (a_images : list string) (a_imgType a_sSize : Z)
    (r : option TSK_IMG_INFO)
| EvImgClose (img : TSK_IMG_INFO)
| EvVsOpen (img : TSK_IMG_INFO) (a_start vstype : Z) (r : option TSK_VS_INFO)
| EvVsPartWalk (v : TSK_VS_INFO) (first last flags : Z)
| EvVsPartWalkRet (r : Z)
| EvVsClose (v : TSK_VS_INFO)
| EvFsOpenImg (img : TSK_IMG_INFO) (a_start fstype : Z) (r : option TSK_FS_INFO)
| EvFsDirWalk (fs : TSK_FS_INFO) (a_inum flags : Z)
| EvFsDirWalkRet (r : Z)
| EvFsClose (fs : TSK_FS_INFO)
| EvAttrGetsize (f : TSK_FS_FILE) (r : Z)
| EvAttrGetIdx (f : TSK_FS_FILE) (i : Z) (r : option TSK_FS_ATTR)
| EvErrorReset
| EvErrorPrint (errno : Z)
| EvFprintf (msg : string)
| EvFilterVol (p : TSK_VS_PART_INFO) (r : TSK_FILTER_ENUM)
| EvFilterFs (fs : TSK_FS_INFO) (r : TSK_FILTER_ENUM)
| EvProcessFile (f : TSK_FS_FILE) (path : string) (r : TSK_RETVAL_ENUM)
| EvProcessAttribute (f : TSK_FS_FILE) (a : option TSK_FS_ATTR) (path : string)
    (r : TSK_RETVAL_ENUM).

(** What the library and the virtual methods can read and write: the session
    object, the error slot, the verbosity switch and their own state. *)
Record Machine (Ext : Type) : Type := {
  self : TskAuto;
  tsk_errno : Z;
  tsk_verbose : Z;
  ext : Ext
}.
Arguments self {Ext} _.
Arguments tsk_errno {Ext} _.
Arguments tsk_verbose {Ext} _.
Arguments ext {Ext} _.

Record World (Ext : Type) : Type := {
  mach : Machine Ext;
  log : list Event
}.
Arguments mach {Ext} _.
Arguments log {Ext} _.

(** A method: a state transformer with a result. *)
Definition M (Ext A : Type) : Type := World Ext -> A * World Ext.

(** A call into the library or into a virtual method. *)
Definition Ext_call (Ext A : Type) : Type := Machine Ext -> A * Machine Ext.

Definition ret {Ext A : Type} (a : A) : M Ext A := fun w => (a, w).

Definition bind {Ext A B : Type} (c : M Ext A) (k : A -> M Ext B) : M Ext B :=
  fun w => let (a, w') := c w in k a w'.

Declare Scope tsk_scope.
Delimit Scope tsk_scope with tsk.
Notation "x <- c ;; k" := (bind c (fun x => k))
  (at level 61, c at next level, right associativity) : tsk_scope.
Notation "c ;; k" := (bind c (fun _ => k))
  (at level 61, right associativity) : tsk_scope.
Open Scope tsk_scope.

Definition emit {Ext : Type} (e : Event) : M Ext unit :=
  fun w => (tt, {| mach := mach w; log := log w ++ [e] |}).

(** Run an outside call and record it, with its result, in the log. *)
Definition call {Ext A : Type} (f : Ext_call Ext A) (ev : A -> Event) : M Ext A :=
  fun w =>
    let (a, m) := f (mach w) in
    (a, {| mach := m; log := log w ++ [ev a] |}).

(** Read a data member of the session. *)
Definition member {Ext A : Type} (f : TskAuto -> A) : M Ext A :=
  fun w => (f (self (mach w)), w).

Definition update_self {Ext : Type} (g : TskAuto -> TskAuto) : M Ext unit :=
  fun w =>
    (tt, {| mach := {| self := g (self (mach w));
                       tsk_errno := tsk_errno (mach w);
                       tsk_verbose := tsk_verbose (mach w);
                       ext := ext (mach w) |};
            log := log w |}).

Definition set_m_img_info {Ext : Type} (v : option TSK_IMG_INFO) : M Ext unit :=
  update_self (fun s => {| m_img_info := v;
                           m_tag := m_tag s;
                           m_volFilterFlags := m_volFilterFlags s;
                           m_fileFilterFlags := m_fileFilterFlags s |}).

Definition set_m_tag {Ext : Type} (v : Z) : M Ext unit :=
  update_self (fun s => {| m_img_info := m_img_info s;
                           m_tag := v;
                           m_volFilterFlags := m_volFilterFlags s;
                           m_fileFilterFlags := m_fileFilterFlags s |}).

Definition set_m_volFilterFlags {Ext : Type} (v : Z) : M Ext unit :=
  update_self (fun s => {| m_img_info := m_img_info s;
                           m_tag := m_tag s;
                           m_volFilterFlags := v;
                           m_fileFilterFlags := m_fileFilterFlags s |}).

Definition set_m_fileFilterFlags {Ext : Type} (v : Z) : M Ext unit :=
  update_self (fun s => {| m_img_info := m_img_info s;
                           m_tag := m_tag s;
                           m_volFilterFlags := m_volFilterFlags s;
                           m_fileFilterFlags := v |}).

(** Modelled from the spec: [tsk_error_reset] of the library's base layer,
    which is not among the sources; the error channel is "a process-wide
    last-error slot settable by collaborators and resettable by this core".
    Resetting stores 0, the no-error value, in the slot. *)
Definition tsk_error_reset {Ext : Type} : M Ext unit :=
  fun w =>
    (tt, {| mach := {| self := self (mach w);
                       tsk_errno := 0;
                       tsk_verbose := tsk_verbose (mach w);
                       ext := ext (mach w) |};
            log := log w ++ [EvErrorReset] |}).

(** Modelled from the spec: [tsk_error_print(stderr)] of the library's base
    layer, which is not among the sources; it reports the current content of
    the error slot and leaves the slot as it is. *)
Definition tsk_error_print {Ext : Type} : M Ext unit :=
  fun w => emit (EvErrorPrint (tsk_errno (mach w))) w.

(** The machine [m] with [v] stored in [m_img_info]. *)
Definition hold_image {Ext : Type} (v : option TSK_IMG_INFO) (m : Machine Ext)
    : Machine Ext :=
  {| self := {| m_img_info := v;
                m_tag := m_tag (self m);
                m_volFilterFlags := m_volFilterFlags (self m);
                m_fileFilterFlags := m_fileFilterFlags (self m) |};
     tsk_errno := tsk_errno m;
     tsk_verbose := tsk_verbose m;
     ext := ext m |}.

(** What is left once a session has been destroyed: the state outside the
    object and the call log.  The members of the object end with it. *)
Record Remains (Ext : Type) : Type := {
  left_errno : Z;
  left_verbose : Z;
  left_ext : Ext;
  left_log : list Event
}.
Arguments left_errno {Ext} _.
Arguments left_verbose {Ext} _.
Arguments left_ext {Ext} _.
Arguments left_log {Ext} _.


(** ** The library and the virtual methods *)

(** The C library below [auto.cpp].  The two walk primitives take the callback
    they run on every partition or directory entry. *)
Class TskLib (Ext : Type) : Type := {
  tsk_img_open : Z -> list string -> Z -> Z -> Ext_call Ext (option TSK_IMG_INFO);
  tsk_img_close : TSK_IMG_INFO -> Ext_call Ext unit;
  tsk_vs_open : TSK_IMG_INFO -> Z -> Z -> Ext_call Ext (option TSK_VS_INFO);
  tsk_vs_part_walk :
    TSK_VS_INFO -> Z -> Z -> Z ->
    (TSK_VS_INFO -> TSK_VS_PART_INFO -> M Ext TSK_WALK_RET_ENUM) -> M Ext Z;
  tsk_vs_close : TSK_VS_INFO -> Ext_call Ext unit;
  tsk_fs_open_img : TSK_IMG_INFO -> Z -> Z -> Ext_call Ext (option TSK_FS_INFO);
  tsk_fs_dir_walk :
    TSK_FS_INFO -> Z -> Z ->
    (TSK_FS_FILE -> string -> M Ext TSK_WALK_RET_ENUM) -> M Ext Z;
  tsk_fs_close : TSK_FS_INFO -> Ext_call Ext unit;
  tsk_fs_file_attr_getsize : TSK_FS_FILE -> Ext_call Ext Z;
  tsk_fs_file_attr_get_idx : TSK_FS_FILE -> Z -> Ext_call Ext (option TSK_FS_ATTR)
}.

(** The virtual methods of [TskAuto] that a tool overrides. *)
Class TskAutoHooks (Ext : Type) : Type := {
  filterVol : TSK_VS_PART_INFO -> Ext_call Ext TSK_FILTER_ENUM;
  filterFs : TSK_FS_INFO -> Ext_call Ext TSK_FILTER_ENUM;
  processFile : TSK_FS_FILE -> string -> Ext_call Ext TSK_RETVAL_ENUM;
  processAttribute :
    TSK_FS_FILE -> option TSK_FS_ATTR -> string -> Ext_call Ext TSK_RETVAL_ENUM
}.

(** ** The methods of [TskAuto] *)

Section Engine.
Context {hdr : TskHeaders} {Ext : Type} {lib : TskLib Ext} {hooks : TskAutoHooks Ext}.

(** [TskAuto::TskAuto]: the data members of a fresh session. *)
Definition TskAuto_new : TskAuto :=
  {| m_img_info := None;
     m_tag := TSK_AUTO_TAG;
     m_volFilterFlags := TSK_VS_PART_FLAG_ALLOC;
     m_fileFilterFlags := TSK_FS_DIR_WALK_FLAG_RECURSE |}.

(** [TskAuto::closeImage] *)
Definition closeImage : M Ext unit :=
  img <- member m_img_info ;;
  match img with
  | Some i =>
      call (tsk_img_close i) (fun _ => EvImgClose i) ;;
      set_m_img_info None
  | None => ret tt
  end.

(** [TskAuto::~TskAuto].  The body closes the image and stores 0 in the
    tag; when it returns the object has ended, so the result carries the
    outside state and the log but no member: what the body stored in the
    object cannot be read afterwards. *)
Definition TskAuto_delete (w : World Ext) : Remains Ext :=
  let w' := snd ((closeImage ;; set_m_tag 0) w) in
  {| left_errno := tsk_errno (mach w');
     left_verbose := tsk_verbose (mach w');
     left_ext := ext (mach w');
     left_log := log w' |}.

(** [TskAuto::openImage]; the result is the [uint8_t] the source returns. *)
Definition openImage (a_numImg : Z) (a_images : list string)
    (a_imgType a_sSize : Z) : M Ext Z :=
  old <- member m_img_info ;;
  (match old with
   | Some _ => closeImage
   | None => ret tt
   end) ;;
  r <- call (tsk_img_open a_numImg a_images a_imgType a_sSize)
            (EvImgOpen a_numImg a_images a_imgType a_sSize) ;;
  set_m_img_info r ;;
  img <- member m_img_info ;;
  match img with
  | Some _ => ret 0
  | None => ret 1
  end.

(** [TskAuto::setVolFilterFlags] *)
Definition setVolFilterFlags (vs_flags : Z) : M Ext unit :=
  set_m_volFilterFlags vs_flags.

(** [TskAuto::setFileFilterFlags] *)
Definition setFileFilterFlags (file_flags : Z) : M Ext unit :=
  set_m_fileFilterFlags file_flags.

(** [TskAuto::dirWalkCb]; [a_ptr] is the session held by the state. *)
Definition dirWalkCb (a_fs_file : TSK_FS_FILE) (a_path : string)
    : M Ext TSK_WALK_RET_ENUM :=
  tag <- member m_tag ;;
  if negb (tag =? TSK_AUTO_TAG) then ret TSK_WALK_STOP
  else
    retval <- call (processFile a_fs_file a_path)
                   (EvProcessFile a_fs_file a_path) ;;
    match retval with
    | TSK_OK => ret TSK_WALK_CONT
    | TSK_STOP => ret TSK_WALK_STOP
    | _ => ret TSK_WALK_ERROR
    end.

(** [TskAuto::findFilesInFsInt] *)
Definition findFilesInFsInt (a_fs_info : TSK_FS_INFO) (a_inum : Z)
    : M Ext TSK_RETVAL_ENUM :=
  retval <- call (filterFs a_fs_info) (EvFilterFs a_fs_info) ;;
  match retval with
  | TSK_FILTER_STOP => ret TSK_STOP
  | TSK_FILTER_SKIP => ret TSK_OK
  | TSK_FILTER_CONT =>
      flags <- member m_fileFilterFlags ;;
      emit (EvFsDirWalk a_fs_info a_inum
              (Z.lor TSK_FS_DIR_WALK_FLAG_RECURSE flags)) ;;
      r <- tsk_fs_dir_walk a_fs_info a_inum
             (Z.lor TSK_FS_DIR_WALK_FLAG_RECURSE flags) dirWalkCb ;;
      emit (EvFsDirWalkRet r) ;;
      if negb (r =? 0) then
        tsk_error_print ;;
        ret TSK_ERR
      else ret TSK_OK
  end.

(** Opening a file system at [a_start], as both [findFilesInFsRet] and the
    two-argument [findFilesInFs] do. *)
Definition fs_open (img : TSK_IMG_INFO) (a_start : Z)
    : M Ext (option TSK_FS_INFO) :=
  call (tsk_fs_open_img img a_start TSK_FS_TYPE_DETECT)
       (EvFsOpenImg img a_start TSK_FS_TYPE_DETECT).

Definition fs_close (fs : TSK_FS_INFO) : M Ext unit :=
  call (tsk_fs_close fs) (fun _ => EvFsClose fs).

(** [TskAuto::findFilesInFsRet] *)
Definition findFilesInFsRet (a_start : Z) : M Ext TSK_RETVAL_ENUM :=
  img <- member m_img_info ;;
  match img with
  | None => ret TSK_ERR
  | Some i =>
      fs_info <- fs_open i a_start ;;
      match fs_info with
      | None =>
          tsk_error_print ;;
          ret TSK_ERR
      | Some fs =>
          retval <- findFilesInFsInt fs (root_inum fs) ;;
          fs_close fs ;;
          ret retval
      end
  end.

(** [TskAuto::findFilesInFs(TSK_OFF_T)] *)
Definition findFilesInFs (a_start : Z) : M Ext Z :=
  r <- findFilesInFsRet a_start ;;
  match r with
  | TSK_ERR => ret 1
  | _ => ret 0
  end.

(** [TskAuto::findFilesInFs(TSK_OFF_T, TSK_INUM_T)] *)
Definition findFilesInFs_inum (a_start a_inum : Z) : M Ext Z :=
  img <- member m_img_info ;;
  match img with
  | None => ret 1
  | Some i =>
      fs_info <- fs_open i a_start ;;
      match fs_info with
      | None =>
          tsk_error_print ;;
          ret 1
      | Some fs =>
          retval <- findFilesInFsInt fs a_inum ;;
          fs_close fs ;;
          match retval with
          | TSK_ERR => ret 1
          | _ => ret 0
          end
      end
  end.

(** The byte offset [vsWalkCb] hands to the file-system walker:
    [a_vs_part->start * a_vs_part->vs->block_size], a 64-bit unsigned product
    converted to [TSK_OFF_T]. *)
Definition part_offset (a_vs_part : TSK_VS_PART_INFO) : Z :=
  to_off (start a_vs_part * block_size (vs a_vs_part)).

(** The call of the virtual [filterVol] made by [vsWalkCb]. *)
Definition vol_filter (a_vs_part : TSK_VS_PART_INFO) : M Ext TSK_FILTER_ENUM :=
  call (filterVol a_vs_part) (EvFilterVol a_vs_part).

(** [TskAuto::vsWalkCb]; [a_ptr] is the session held by the state. *)
Definition vsWalkCb (a_vs_info : TSK_VS_INFO) (a_vs_part : TSK_VS_PART_INFO)
    : M Ext TSK_WALK_RET_ENUM :=
  tag <- member m_tag ;;
  if negb (tag =? TSK_AUTO_TAG) then ret TSK_WALK_STOP
  else
    retval1 <- vol_filter a_vs_part ;;
    match retval1 with
    | TSK_FILTER_SKIP => ret TSK_WALK_CONT
    | TSK_FILTER_STOP => ret TSK_WALK_STOP
    | TSK_FILTER_CONT =>
        retval2 <- findFilesInFsRet (part_offset a_vs_part) ;;
        match retval2 with
        | TSK_STOP => ret TSK_WALK_STOP
        | TSK_OK => ret TSK_WALK_CONT
        | _ =>
            tsk_error_reset ;;
            ret TSK_WALK_CONT
        end
    end.

(** The probe for a volume system at [a_start] made by [findFilesInVs]. *)
Definition vs_open (img : TSK_IMG_INFO) (a_start : Z)
    : M Ext (option TSK_VS_INFO) :=
  call (tsk_vs_open img a_start TSK_VS_TYPE_DETECT)
       (EvVsOpen img a_start TSK_VS_TYPE_DETECT).

Definition msg_trying_fs : string :=
  "Error determining volume system -- trying file systems"
  ++ String "010"%char EmptyString.

(** The diagnostic [findFilesInVs] writes to stderr under [tsk_verbose]. *)
Definition note_trying_fs : M Ext unit :=
  fun w =>
    if negb (tsk_verbose (mach w) =? 0) then emit (EvFprintf msg_trying_fs) w
    else ret tt w.

(** [TskAuto::findFilesInVs] *)
Definition findFilesInVs (a_start : Z) : M Ext Z :=
  img <- member m_img_info ;;
  match img with
  | None => ret 1
  | Some i =>
      vs_info <- vs_open i a_start ;;
      match vs_info with
      | None =>
          note_trying_fs ;;
          tsk_error_reset ;;
          r <- findFilesInFs a_start ;;
          if negb (r =? 0) then ret 1 else ret 0
      | Some v =>
          flags <- member m_volFilterFlags ;;
          emit (EvVsPartWalk v 0 (wrap32 (part_count v - 1)) flags) ;;
          r <- tsk_vs_part_walk v 0 (wrap32 (part_count v - 1)) flags vsWalkCb ;;
          emit (EvVsPartWalkRet r) ;;
          if negb (r =? 0) then
            call (tsk_vs_close v) (fun _ => EvVsClose v) ;;
            ret 1
          else
            call (tsk_vs_close v) (fun _ => EvVsClose v) ;;
            ret 0
      end
  end.

(** [TskAuto::findFilesInImg] *)
Definition findFilesInImg : M Ext Z :=
  img <- member m_img_info ;;
  match img with
  | None => ret 1
  | Some _ =>
      r <- findFilesInVs 0 ;;
      if negb (r =? 0) then
        tsk_error_print ;;
        ret 1
      else ret 0
  end.

(** The body of the loop of [processAttributes], from index [i] on, for the
    [n] indices that remain below [count]. *)
Fixpoint attr_loop (n : nat) (i : Z) (fs_file : TSK_FS_FILE) (path : string)
    : M Ext TSK_RETVAL_ENUM :=
  match n with
  | O => ret TSK_OK
  | S n' =>
      a <- call (tsk_fs_file_attr_get_idx fs_file i) (EvAttrGetIdx fs_file i) ;;
      retval <- call (processAttribute fs_file a path)
                     (EvProcessAttribute fs_file a path) ;;
      match retval with
      | TSK_OK => attr_loop n' (i + 1) fs_file path
      | _ => ret retval
      end
  end.

(** [TskAuto::processAttributes]: [for (i = 0; i < count; i++)] runs its body
    for the indices 0 .. count-1, that is [Z.to_nat count] times at most. *)
Definition processAttributes (fs_file : TSK_FS_FILE) (path : string)
    : M Ext TSK_RETVAL_ENUM :=
  count <- call (tsk_fs_file_attr_getsize fs_file) (EvAttrGetsize fs_file) ;;
  attr_loop (Z.to_nat count) 0 fs_file path.

(** *** Runs of the attribute loop

    A run of the loop of [processAttributes] from index [i] is described by
    its steps: for each index visited, the attribute the library returned for
    it and the result of [processAttribute] on that attribute. *)

Definition AttrStep : Type := (option TSK_FS_ATTR * TSK_RETVAL_ENUM)%type.

Definition step_ok (s : AttrStep) : Prop := snd s = TSK_OK.

(** The steps are the calls made, in this order, on the indices
    [i], [i+1], ..., taking the machine from [m] to [m']. *)
Fixpoint attr_run (fs_file : TSK_FS_FILE) (path : string) (i : Z)
    (steps : list AttrStep) (m m' : Machine Ext) : Prop :=
  match steps with
  | [] => m' = m
  | (a, r) :: rest =>
      exists m1 m2,
        tsk_fs_file_attr_get_idx fs_file i m = (a, m1) /\
        processAttribute fs_file a path m1 = (r, m2) /\
        attr_run fs_file path (i + 1) rest m2 m'
  end.

(** The log entries the steps leave. *)
Fixpoint attr_events (fs_file : TSK_FS_FILE) (path : string) (i : Z)
    (steps : list AttrStep) : list Event :=
  match steps with
  | [] => []
  | (a, r) :: rest =>
      EvAttrGetIdx fs_file i a :: EvProcessAttribute fs_file a path r
        :: attr_events fs_file path (i + 1) rest
  end.

End Engine.

(** ** A scripted library and tool

    A small instance of the two interfaces, used to run the methods on
    concrete inputs: one image holding a volume system at offset 0 with two
    partitions, of which only the second holds a file system, and a tool whose
    virtual methods answer from a script kept in its own state. *)

Record Script : Type := {
  vol_verdict : TSK_FILTER_ENUM;
  fs_verdict : TSK_FILTER_ENUM;
  file_result : TSK_RETVAL_ENUM;
  attr_results : list TSK_RETVAL_ENUM;   (* consumed one per call *)
  files_seen : Z
}.

(** The header values of The Sleuth Kit. *)
Definition tsk_headers : TskHeaders :=
  {| TSK_AUTO_TAG := 0x9191ABAB;
     TSK_VS_PART_FLAG_ALLOC := 1;
     TSK_FS_DIR_WALK_FLAG_RECURSE := 4;
     TSK_VS_TYPE_DETECT := 0;
     TSK_FS_TYPE_DETECT := 0;
     TSK_FS_NAME_TYPE_DIR := 3;
     TSK_FS_NAME_TYPE_REG := 5 |}.

(** The two bits of [TSK_FS_NAME_FLAG_ENUM]. *)
Definition TSK_FS_NAME_FLAG_ALLOC : Z := 1.
Definition TSK_FS_NAME_FLAG_UNALLOC : Z := 2.

Definition set_errno {Ext : Type} (e : Z) (m : Machine Ext) : Machine Ext :=
  {| self := self m; tsk_errno := e; tsk_verbose := tsk_verbose m; ext := ext m |}.

Definition set_ext {Ext : Type} (x : Ext) (m : Machine Ext) : Machine Ext :=
  {| self := self m; tsk_errno := tsk_errno m; tsk_verbose := tsk_verbose m; ext := x |}.

Definition demo_img : TSK_IMG_INFO := {| img_id := 1 |}.
Definition demo_vs : TSK_VS_INFO :=
  {| vs_offset := 0; block_size := 512; part_count := 2 |}.
Definition demo_part0 : TSK_VS_PART_INFO :=
  {| vs := demo_vs; start := 63; len := 1985; part_flags := 1 |}.
Definition demo_part1 : TSK_VS_PART_INFO :=
  {| vs := demo_vs; start := 2048; len := 4096; part_flags := 1 |}.
Definition demo_fs : TSK_FS_INFO :=
  {| fs_offset := 1048576; ftype := 1; root_inum := 2 |}.

(** A directory entry named [nm] of type [ty] with the name flags [fl], in a
    buffer of just the size the name needs. *)
Definition fs_entry (nm : string) (ty fl : Z) : TSK_FS_FILE :=
  FsFile.mk
    (Some (FsName.mk (c_buf nm (S (String.length nm)))
                     (Z.of_nat (S (String.length nm))) 2 ty fl))
    (Some demo_fs).

Definition demo_files : list (TSK_FS_FILE * string) :=
  [ (fs_entry "." 3 TSK_FS_NAME_FLAG_ALLOC, "/"%string);
    (fs_entry ".." 3 TSK_FS_NAME_FLAG_ALLOC, "/"%string);
    (fs_entry "a.txt" 5 TSK_FS_NAME_FLAG_ALLOC, "/"%string);
    (fs_entry "old.log" 5 TSK_FS_NAME_FLAG_UNALLOC, "/"%string) ].

Fixpoint demo_part_loop (ps : list TSK_VS_PART_INFO) (v : TSK_VS_INFO)
    (cb : TSK_VS_INFO -> TSK_VS_PART_INFO -> M Script TSK_WALK_RET_ENUM)
    : M Script Z :=
  match ps with
  | [] => ret 0
  | p :: rest =>
      r <- cb v p ;;
      match r with
      | TSK_WALK_CONT => demo_part_loop rest v cb
      | TSK_WALK_STOP => ret 0
      | TSK_WALK_ERROR => ret 1
      end
  end.

Fixpoint demo_dir_loop (fs : list (TSK_FS_FILE * string))
    (cb : TSK_FS_FILE -> string -> M Script TSK_WALK_RET_ENUM) : M Script Z :=
  match fs with
  | [] => ret 0
  | (f, path) :: rest =>
      r <- cb f path ;;
      match r with
      | TSK_WALK_CONT => demo_dir_loop rest cb
      | TSK_WALK_STOP => ret 0
      | TSK_WALK_ERROR => ret 1
      end
  end.

Definition demo_lib : TskLib Script :=
  {| tsk_img_open := fun n images _ _ m =>
       match images with
       | [] => (None, set_errno 0x02000000 m)
       | _ :: _ => if 0 <? n then (Some demo_img, m) else (None, set_errno 0x02000000 m)
       end;
     tsk_img_close := fun _ m => (tt, m);
     tsk_vs_open := fun _ off _ m =>
       if off =? 0 then (Some demo_vs, m) else (None, set_errno 0x04000001 m);
     tsk_vs_part_walk := fun v _ _ _ cb => demo_part_loop [demo_part0; demo_part1] v cb;
     tsk_vs_close := fun _ m => (tt, m);
     tsk_fs_open_img := fun _ off _ m =>
       if off =? fs_offset demo_fs then (Some demo_fs, m)
       else (None, set_errno 0x08000001 m);
     tsk_fs_dir_walk := fun _ _ _ cb => demo_dir_loop demo_files cb;
     tsk_fs_close := fun _ m => (tt, m);
     tsk_fs_file_attr_getsize := fun _ m => (3, m);
     tsk_fs_file_attr_get_idx := fun _ i m =>
       if (0 <=? i) && (i <? 3) then (Some {| attr_type := 128; attr_flags := i |}, m)
       else (None, set_errno 0x08000002 m) |}.

Definition demo_hooks : TskAutoHooks Script :=
  {| filterVol := fun _ m => (vol_verdict (ext m), m);
     filterFs := fun _ m => (fs_verdict (ext m), m);
     processFile := fun _ _ m =>
       (file_result (ext m),
        set_ext {| vol_verdict := vol_verdict (ext m);
                   fs_verdict := fs_verdict (ext m);
                   file_result := file_result (ext m);
                   attr_results := attr_results (ext m);
                   files_seen := files_seen (ext m) + 1 |} m);
     processAttribute := fun _ _ _ m =>
       match attr_results (ext m) with
       | [] => (TSK_OK, m)
       | r :: rest =>
           (r, set_ext {| vol_verdict := vol_verdict (ext m);
                          fs_verdict := fs_verdict (ext m);
                          file_result := file_result (ext m);
                          attr_results := rest;
                          files_seen := files_seen (ext m) |} m)
       end |}.

(** A world whose session holds [img] and the tag [tag], with an empty log. *)
Definition demo_world (img : option TSK_IMG_INFO) (tag : Z) (sc : Script)
    : World Script :=
  {| mach := {| self := {| m_img_info := img; m_tag := tag;
                           m_volFilterFlags := 1; m_fileFilterFlags := 4 |};
                tsk_errno := 0; tsk_verbose := 0; ext := sc |};
     log := [] |}.

Definition demo_script (v f : TSK_FILTER_ENUM) (r : TSK_RETVAL_ENUM)
    (rs : list TSK_RETVAL_ENUM) : Script :=
  {| vol_verdict := v; fs_verdict := f; file_result := r;
     attr_results := rs; files_seen := 0 |}.

(** The sentinel of the headers, and worlds over the scripted tool with an
    image open and a valid tag. *)
Definition demo_tag : Z := @TSK_AUTO_TAG tsk_headers.

Definition demo_open_world (sc : Script) : World Script :=
  demo_world (Some demo_img) demo_tag sc.

(** The methods over the scripted library and tool. *)
Definition demo_dirWalkCb := @dirWalkCb tsk_headers Script demo_hooks.
Definition demo_vsWalkCb := @vsWalkCb tsk_headers Script demo_lib demo_hooks.
Definition demo_findFilesInFsRet := @findFilesInFsRet tsk_headers Script demo_lib demo_hooks.
Definition demo_findFilesInFs := @findFilesInFs tsk_headers Script demo_lib demo_hooks.
Definition demo_findFilesInFs_inum := @findFilesInFs_inum tsk_headers Script demo_lib demo_hooks.
Definition demo_findFilesInFsInt := @findFilesInFsInt tsk_headers Script demo_lib demo_hooks.
Definition demo_findFilesInVs := @findFilesInVs tsk_headers Script demo_lib demo_hooks.
Definition demo_processAttributes := @processAttributes Script demo_lib demo_hooks.
Definition demo_openImage := @openImage Script demo_lib.
Definition demo_delete := @TskAuto_delete Script demo_lib.

(** ** The remaining predicate utilities *)

(** What the remaining utilities take from the file-system headers: the two
    type-family macros, the three reserved FAT inode macros, the non-resident
    bit of the attribute flags, and the [get_default_attr_type] function a
    file-system handle carries. *)
Class TskFsMacros : Type := {
  TSK_FS_TYPE_ISNTFS : Z -> bool;
  TSK_FS_TYPE_ISFAT : Z -> bool;
  FATFS_MBRINO : TSK_FS_INFO -> Z;
  FATFS_FAT1INO : TSK_FS_INFO -> Z;
  FATFS_FAT2INO : TSK_FS_INFO -> Z;
  TSK_FS_ATTR_NONRES : Z;
  get_default_attr_type : TSK_FS_INFO -> TSK_FS_FILE -> Z
}.

Section MorePredicates.
Context {mac : TskFsMacros}.

(** [TskAuto::isNtfsSystemFiles]; [a_path] is unused by the source. *)
Definition isNtfsSystemFiles (a_fs_file : option TSK_FS_FILE) (a_path : string) : Z :=
  match a_fs_file with
  | None => 0
  | Some f =>
      match FsFile.fs_info f with
      | None => 0
      | Some fs =>
          if TSK_FS_TYPE_ISNTFS (ftype fs) then
            match FsFile.name f with
            | None => 0
            | Some n =>
                if Ascii.eqb (char_at (FsName.name n) 0) "$"
                   && (FsName.meta_addr n <? 20)
                then 1 else 0
            end
          else 0
      end
  end.

(** [TskAuto::isFATSystemFiles].  The source reads [a_fs_file->name->meta_addr]
    without testing [a_fs_file->name]; [None] stands for that read through a
    null pointer, which has no defined result. *)
Definition isFATSystemFiles (a_fs_file : option TSK_FS_FILE) : option Z :=
  match a_fs_file with
  | None => Some 0
  | Some f =>
      match FsFile.fs_info f with
      | None => Some 0
      | Some fs =>
          if TSK_FS_TYPE_ISFAT (ftype fs) then
            match FsFile.name f with
            | None => None
            | Some n =>
                if (FsName.meta_addr n =? FATFS_MBRINO fs)
                   || (FsName.meta_addr n =? FATFS_FAT1INO fs)
                   || (FsName.meta_addr n =? FATFS_FAT2INO fs)
                then Some 1 else Some 0
            end
          else Some 0
      end
  end.

(** [TskAuto::isDefaultType].  The source reads [a_fs_attr->type] without
    testing [a_fs_attr]; [None] stands for that read through a null pointer. *)
Definition isDefaultType (a_fs_file : option TSK_FS_FILE)
    (a_fs_attr : option TSK_FS_ATTR) : option Z :=
  match a_fs_file with
  | None => Some 0
  | Some f =>
      match FsFile.fs_info f with
      | None => Some 0
      | Some fs =>
          match a_fs_attr with
          | None => None
          | Some a =>
              if get_default_attr_type fs f =? attr_type a then Some 1 else Some 0
          end
      end
  end.

(** [TskAuto::isNonResident] *)
Definition isNonResident (a_fs_attr : option TSK_FS_ATTR) : Z :=
  match a_fs_attr with
  | None => 0
  | Some a => if Z.land (attr_flags a) TSK_FS_ATTR_NONRES =? 0 then 0 else 1
  end.

End MorePredicates.

(** An instance of the macros, used to run the predicates: the family tests
    mask the type code, the three reserved FAT inodes are three consecutive
    addresses far above the root. *)
Definition tsk_fs_macros : TskFsMacros :=
  {| TSK_FS_TYPE_ISNTFS := fun t => negb (Z.land t 0x01 =? 0);
     TSK_FS_TYPE_ISFAT := fun t => negb (Z.land t 0x0e =? 0);
     FATFS_MBRINO := fun fs => root_inum fs + 1000 - 3;
     FATFS_FAT1INO := fun fs => root_inum fs + 1000 - 2;
     FATFS_FAT2INO := fun fs => root_inum fs + 1000 - 1;
     TSK_FS_ATTR_NONRES := 0x02;
     get_default_attr_type := fun _ _ => 1 |}.

(** Which log entries are calls of [tsk_fs_file_attr_get_idx] with an index
    outside [0, count). *)
Definition attr_index_out_of_range (count : Z) (e : Event) : bool :=
  match e with
  | EvAttrGetIdx _ i _ => negb ((0 <=? i) && (i <? count))
  | _ => false
  end.

(** A second library for the scripted tool: an image without a volume
    system, holding one file system at offset 0 whose files have no
    attribute table (the count comes back as -1). *)
Definition demo_bare_lib : TskLib Script :=
  {| tsk_img_open := @tsk_img_open Script demo_lib;
     tsk_img_close := fun _ m => (tt, m);
     tsk_vs_open := fun _ _ _ m => (None, set_errno 0x04000001 m);
     tsk_vs_part_walk := fun _ _ _ _ _ => ret 1;
     tsk_vs_close := fun _ m => (tt, m);
     tsk_fs_open_img := fun _ off _ m =>
       if off =? 0 then (Some demo_fs, m) else (None, set_errno 0x08000001 m);
     tsk_fs_dir_walk := fun _ _ _ cb => demo_dir_loop demo_files cb;
     tsk_fs_close := fun _ m => (tt, m);
     tsk_fs_file_attr_getsize := fun _ m => (-1, set_errno 0x08000003 m);
     tsk_fs_file_attr_get_idx := fun _ _ m => (None, set_errno 0x08000002 m) |}.

Definition demo_ok_script : Script :=
  demo_script TSK_FILTER_CONT TSK_FILTER_CONT TSK_OK [].

(** * TskL01Extract: the files of an L01 container

    A shallow embedding of the container extraction class (the second source
    file).  The class opens a logical evidence file through [tsk_img_open_sing],
    walks the tree of file entries that libewf serves, keeps one record per
    entry in [m_archivedFiles], and hands the entries of type 'f' to the image
    database and to the file manager.

    libewf only reads the container, so a file entry is modelled by what
    libewf answers on it.  The image database and the file manager are
    stateful services; their state is the abstract component [D].  Methods
    can leave by an exception and are state transformers with a result that
    is either a value or the exception thrown.  The debug lines the class
    writes to [std::cerr] are not modelled.  Of the allocations, the one the
    source makes itself, [new char[dataSize]] for a size read from the
    container, can fail; those the standard strings and the vector of
    records make are taken to succeed.

    In a [State] every [dataBuf] that is not null points to a live buffer,
    whose content the record carries.  [close] releases the buffers and
    leaves the pointers in the records; the object it leaves is of another
    type, [Closed]. *)

Module L01.

(** [std::endl] in a message *)
Definition endl : string := String "010"%char EmptyString.

(** The answer of a libewf call whose failure the source reports with the
    back trace of the error: the value, or -1 with what the call left in
    [ewfError]: [None] when the pointer is still NULL, otherwise the text
    [libewf_error_backtrace_sprint] prints for the error. *)
Inductive Answer (A : Type) : Type :=
| Gives (a : A)
| Fails (ewfError : option string).
Arguments Gives {A} a.
Arguments Fails {A} ewfError.

(** The content of [errorString] after [libewf_error_backtrace_sprint]; the
    array starts as the empty string and stays so when there is no error to
    print. *)
Definition errorString (ewfError : option string) : string :=
  match ewfError with
  | Some text => text
  | None => ""
  end.

(** What [getFileData] meets when it fetches the content of an entry:
    [new char[dataSize]] fails and throws [std::bad_alloc] (given with the text
    of its [what()]), or the array is allocated and
    [libewf_file_entry_read_buffer] returns -1, or it leaves the array with
    the given content. *)
Inductive FileData : Type :=
| NoMemory (what : string)
| ReadError
| Filled (buffer : list Z).

(** A libewf file entry, by the answers of libewf: for the type and the
    flags [None] is a call that returns -1.  [number_of_sub_file_entries] is
    the content of [num] after
    [libewf_file_entry_get_number_of_sub_file_entries], whose return value
    the source ignores; [sub_file_entries] are the answers of
    [libewf_file_entry_get_sub_file_entry] for the indices 0, 1, ... (an
    index past the list is an error). *)
#[local] Unset Elimination Schemes.
Inductive EwfEntry : Type :=
| EwfNode (utf8_name : Answer string) (entry_type : option Z)
    (entry_flags : option Z) (entry_size : Answer Z)
    (file_data : FileData) (number_of_sub_file_entries : Z)
    (sub_file_entries : list (option EwfEntry)).

#[local] Set Elimination Schemes.

(** The answer of [libewf_handle_get_root_file_entry]: -1 with what the call
    left in [ewfError], 0, or 1 with the root entry. *)
Inductive RootResult : Type :=
| RootError (ewfError : option string)
| RootAbsent
| RootPresent (root : EwfEntry).

(** The image handle [tsk_img_open_sing] returns for an EWF file. *)
Record EwfImage : Type := {
  image_id : Z;
  root_file_entry : RootResult
}.

(** [TskL01Extract::ArchivedFile] *)
Record ArchivedFile : Type := {
  entry : EwfEntry;
  name : string;
  type : Z;               (* uint8_t *)
  size : Z;               (* uint64_t *)
  dataBuf : option (list Z)
}.

(** The data members of [TskL01Extract] ([m_db] is part of the services). *)
Record TskL01Extract : Type := {
  m_img_info : option EwfImage;
  m_ewfInfo : option EwfImage;
  m_containerFilename : string;
  m_archivedFiles : list ArchivedFile
}.

Inductive Exn : Type :=
| TskException (message : string)
| TskFileException (message : string)
| StdException (what : string).

Inductive Result (A : Type) : Type :=
| Normal (a : A)
| Thrown (e : Exn).
Arguments Normal {A} a.
Arguments Thrown {A} e.

(** What [FileManager::addFile] does with a stream: it takes it, or throws a
    [Poco::Exception]. *)
Inductive AddFileOutcome : Type :=
| AddFileDone
| AddFilePocoException (displayText : string).

(** The calls out of the class. *)
Inductive Event : Type :=
| EvImgOpenSing (file : string) (r : option EwfImage)
| EvImgClose (img : EwfImage)
| EvDeleteArray (buf : list Z)
| EvAddDerivedFileInfo (nm : string) (parentId : Z) (isDirectory : bool)
    (sz : Z) (details fullpath : string) (r fileId : Z)
| EvAddFile (fileId : Z) (data : list Z) (sz : Z) (r : AddFileOutcome)
| EvLogError (msg : string)
| EvErrorGet (text : string).

Record State (D : Type) : Type := {
  this : TskL01Extract;
  services : D;
  trace : list Event
}.
Arguments this {D} _.
Arguments services {D} _.
Arguments trace {D} _.

(** The object after [close]: [delete [] it->dataBuf] releases the array and
    leaves the pointer in the record, so in [hollow] every [dataBuf] that is
    not null dangles: the record still shows the content the array had, and
    the array is gone. *)
Record Closed (D : Type) : Type := {
  hollow : TskL01Extract;
  closed_services : D;
  closed_trace : list Event
}.
Arguments hollow {D} _.
Arguments closed_services {D} _.
Arguments closed_trace {D} _.

(** A method that may throw. *)
Definition ML (D A : Type) : Type := State D -> Result A * State D.

Definition ret {D A : Type} (a : A) : ML D A := fun s => (Normal a, s).

Definition throw {D A : Type} (e : Exn) : ML D A := fun s => (Thrown e, s).

Definition bind {D A B : Type} (c : ML D A) (k : A -> ML D B) : ML D B :=
  fun s =>
    match c s with
    | (Normal a, s') => k a s'
    | (Thrown e, s') => (Thrown e, s')
    end.

(** [try { c } catch (...) { h }] *)
Definition try_catch {D A : Type} (c : ML D A) (h : Exn -> ML D A) : ML D A :=
  fun s =>
    match c s with
    | (Normal a, s') => (Normal a, s')
    | (Thrown e, s') => h e s'
    end.

Declare Scope l01_scope.
Delimit Scope l01_scope with l01.
Notation "x <- c ;; k" := (bind c (fun x => k))
  (at level 61, c at next level, right associativity) : l01_scope.
Notation "c ;; k" := (bind c (fun _ => k))
  (at level 61, right associativity) : l01_scope.
Open Scope l01_scope.

Definition emit {D : Type} (e : Event) : ML D unit :=
  fun s => (Normal tt, {| this := this s; services := services s;
                          trace := trace s ++ [e] |}).

(** A call into a service, recorded with its result. *)
Definition call {D A : Type} (f : D -> A * D) (ev : A -> Event) : ML D A :=
  fun s =>
    let (a, d) := f (services s) in
    (Normal a, {| this := this s; services := d; trace := trace s ++ [ev a] |}).

Definition member {D A : Type} (f : TskL01Extract -> A) : ML D A :=
  fun s => (Normal (f (this s)), s).

Definition update_this {D : Type} (g : TskL01Extract -> TskL01Extract) : ML D unit :=
  fun s => (Normal tt, {| this := g (this s); services := services s;
                          trace := trace s |}).

Definition set_m_img_info {D : Type} (v : option EwfImage) : ML D unit :=
  update_this (fun o => {| m_img_info := v;
                           m_ewfInfo := m_ewfInfo o;
                           m_containerFilename := m_containerFilename o;
                           m_archivedFiles := m_archivedFiles o |}).

Definition set_m_ewfInfo {D : Type} (v : option EwfImage) : ML D unit :=
  update_this (fun o => {| m_img_info := m_img_info o;
                           m_ewfInfo := v;
                           m_containerFilename := m_containerFilename o;
                           m_archivedFiles := m_archivedFiles o |}).

Definition set_m_containerFilename {D : Type} (v : string) : ML D unit :=
  update_this (fun o => {| m_img_info := m_img_info o;
                           m_ewfInfo := m_ewfInfo o;
                           m_containerFilename := v;
                           m_archivedFiles := m_archivedFiles o |}).

(** [m_archivedFiles.push_back(fileInfo)] *)
Definition push_back {D : Type} (f : ArchivedFile) : ML D unit :=
  update_this (fun o => {| m_img_info := m_img_info o;
                           m_ewfInfo := m_ewfInfo o;
                           m_containerFilename := m_containerFilename o;
                           m_archivedFiles := m_archivedFiles o ++ [f] |}).

(** The services the class uses, and the parts of [Poco::Path] it calls on a
    path built from an entry name; [path_at] is [path[n]], which throws when
    [n] is out of range.  [addDerivedFileInfo] is given without the four time
    stamps, which the source passes as 0, and answers with its return value
    and the content of [fileId] after the call.  [tsk_error_get] answers
    with the text of the error a failed [tsk_img_open_sing] has set. *)
Class Services (D : Type) : Type := {
  tsk_img_open_sing : string -> D -> option EwfImage * D;
  tsk_img_close : EwfImage -> D -> unit * D;
  tsk_error_get : D -> string * D;
  addDerivedFileInfo :
    string -> Z -> bool -> Z -> string -> string -> D -> (Z * Z) * D;
  addFile : Z -> list Z -> Z -> D -> AddFileOutcome * D;
  path_isDirectory : string -> bool;
  path_depth : string -> Z;
  path_at : string -> Z -> option string;
  path_toString : string -> string
}.

(** The width of the integer types the source leaves to the platform:
    the largest [size_t]. *)
Class Platform : Type := {
  SIZE_MAX : Z
}.

(** The conversion of a [uint64_t] to [size_t]. *)
Definition to_size_t {plat : Platform} (z : Z) : Z := z mod (SIZE_MAX + 1).

(** The answers of libewf on an entry. *)
Definition utf8_name (e : EwfEntry) : Answer string :=
  match e with EwfNode n _ _ _ _ _ _ => n end.
Definition entry_type (e : EwfEntry) : option Z :=
  match e with EwfNode _ t _ _ _ _ _ => t end.
Definition entry_flags (e : EwfEntry) : option Z :=
  match e with EwfNode _ _ f _ _ _ _ => f end.
Definition entry_size (e : EwfEntry) : Answer Z :=
  match e with EwfNode _ _ _ z _ _ _ => z end.
Definition file_data (e : EwfEntry) : FileData :=
  match e with EwfNode _ _ _ _ b _ _ => b end.
Definition number_of_sub_file_entries (e : EwfEntry) : Z :=
  match e with EwfNode _ _ _ _ _ n _ => n end.
Definition sub_file_entries (e : EwfEntry) : list (option EwfEntry) :=
  match e with EwfNode _ _ _ _ _ _ l => l end.

(** The arrays the records of a list point to, in the order of the list. *)
Fixpoint buffers_of (files : list ArchivedFile) : list (list Z) :=
  match files with
  | [] => []
  | it :: rest =>
      match dataBuf it with
      | Some b => b :: buffers_of rest
      | None => buffers_of rest
      end
  end.

(** A closed object none of whose records carries a pointer is an object as
    before.  One whose records carry dangling pointers is not: a further
    [close] (the destructor calls it) would release their arrays a second
    time, and [extractFiles] would hand them to the file manager. *)
Definition reusable {D : Type} (c : Closed D) : option (State D) :=
  match buffers_of (m_archivedFiles (hollow c)) with
  | [] => Some {| this := hollow c; services := closed_services c;
                  trace := closed_trace c |}
  | _ :: _ => None
  end.

Section Methods.
Context {D : Type} {srv : Services D} {plat : Platform}.

(** [TskL01Extract::getName] *)
Definition getName (node : EwfEntry) : ML D string :=
  match utf8_name node with
  | Fails ewfError =>
      throw (TskException
               ("TskL01Extract::getName - Error with libewf_file_entry_get_utf8_name: "
                ++ errorString ewfError ++ endl))
  | Gives s => ret s
  end.

(** [TskL01Extract::getFileType]; the result is a [uint8_t]. *)
Definition getFileType (node : EwfEntry) : ML D Z :=
  match entry_type node with
  | None =>
      throw (TskException
               "TskL01Extract::getFileType - Error with libewf_file_entry_get_utf8_name: ")
  | Some t =>
      match entry_flags node with
      | None =>
          throw (TskException
                   "TskL01Extract::getFileType - Error with libewf_file_entry_get_flags: ")
      | Some _ => ret (t mod 256)
      end
  end.

(** [TskL01Extract::getFileSize]; the result is a [uint64_t]. *)
Definition getFileSize (node : EwfEntry) : ML D Z :=
  match entry_size node with
  | Fails ewfError =>
      throw (TskException
               ("TskL01Extract::getFileSize - Error with libewf_file_entry_get_utf8_name: "
                ++ errorString ewfError ++ endl))
  | Gives z => ret (z mod 2 ^ 64)
  end.

(** [TskL01Extract::getFileData]: the buffer, or NULL for an empty file.
    The array the source allocates is not released when the read fails. *)
Definition getFileData (node : EwfEntry) (dataSize : Z) : ML D (option (list Z)) :=
  if 0 <? dataSize then
    match file_data node with
    | NoMemory what => throw (StdException what)
    | ReadError =>
        throw (TskException
                 "TskL01Extract::getFileData - Error with libewf_file_entry_read_buffer: ")
    | Filled b => ret (Some b)
    end
  else ret None.

(** The record [traverse] builds for an entry before it pushes it; the size
    is handed to [getFileData] as a [size_t]. *)
Definition fileInfo_of (parent : EwfEntry) : ML D ArchivedFile :=
  nm <- getName parent ;;
  ty <- getFileType parent ;;
  sz <- getFileSize parent ;;
  buf <- getFileData parent (to_size_t sz) ;;
  ret {| entry := parent; name := nm; type := ty; size := sz; dataBuf := buf |}.

Definition msg_sub_file_entry : string :=
  "TskL01Extract::traverse - Error with libewf_file_entry_get_sub_file_entry: ".

(** The loop [for (int i=0; i < num; ++i)] of [traverse] from index [i] on,
    over the answers of libewf for the sub entries that remain; [visit] is
    the recursive call. *)
Fixpoint traverse_subs (visit : EwfEntry -> ML D unit) (num i : Z)
    (rest : list (option EwfEntry)) : ML D unit :=
  if i <? num then
    match rest with
    | [] => throw (TskException msg_sub_file_entry)
    | None :: _ => throw (TskException msg_sub_file_entry)
    | Some child :: rest' =>
        visit child ;;
        traverse_subs visit num (i + 1) rest'
    end
  else ret tt.

(** [TskL01Extract::traverse] *)
Fixpoint traverse (parent : EwfEntry) : ML D unit :=
  match parent with
  | EwfNode _ _ _ _ _ num subs =>
      fileInfo <- fileInfo_of parent ;;
      push_back fileInfo ;;
      if 0 <? num then traverse_subs traverse num 0 subs
      else ret tt
  end.

(** The loop of [close] over [m_archivedFiles]: [delete [] it->dataBuf],
    which does nothing on a null pointer. *)
Fixpoint delete_buffers (files : list ArchivedFile) : ML D unit :=
  match files with
  | [] => ret tt
  | it :: rest =>
      (match dataBuf it with
       | Some b => emit (EvDeleteArray b)
       | None => ret tt
       end) ;;
      delete_buffers rest
  end.

(** [TskL01Extract::close].  The list of records is not emptied, and the
    pointers stay in the records. *)
Definition close (s : State D) : Closed D :=
  let s' :=
    snd ((img <- member m_img_info ;;
          (match img with
           | Some i =>
               call (tsk_img_close i) (fun _ => EvImgClose i) ;;
               set_m_img_info None
           | None => ret tt
           end) ;;
          files <- member m_archivedFiles ;;
          delete_buffers files ;;
          set_m_containerFilename "") s) in
  {| hollow := this s'; closed_services := services s';
     closed_trace := trace s' |}.

(** [TskL01Extract::saveFile]; the source only calls it with a buffer. *)
Definition saveFile (fileId : Z) (archivedFile : ArchivedFile) : ML D unit :=
  r <- call (addFile fileId
               (match dataBuf archivedFile with Some b => b | None => [] end)
               (size archivedFile))
            (EvAddFile fileId
               (match dataBuf archivedFile with Some b => b | None => [] end)
               (size archivedFile)) ;;
  match r with
  | AddFileDone => ret tt
  | AddFilePocoException text =>
      emit (EvLogError
              ("TskL01Extract::addFile - Error saving file from stream : " ++ text)) ;;
      throw (TskFileException "Error saving file from stream.")
  end.

(** The body of the loop of [extractFiles] for one archived file. *)
Definition extract_one (it : ArchivedFile) : ML D unit :=
  if type it =? 102 then
    let isDir := path_isDirectory (name it) in
    nm <- (match path_at (name it)
                   (if isDir then path_depth (name it) - 1 else path_depth (name it))
           with
           | Some n => ret n
           | None => throw (StdException "Poco::Path")
           end) ;;
    r <- call (addDerivedFileInfo nm 0 isDir (size it) "" (path_toString (name it)))
              (fun r => EvAddDerivedFileInfo nm 0 isDir (size it) ""
                          (path_toString (name it)) (fst r) (snd r)) ;;
    (if fst r =? -1
     then emit (EvLogError ("addDerivedFileInfo failed for name=" ++ nm))
     else ret tt) ;;
    match dataBuf it with
    | Some _ => saveFile (snd r) it
    | None => ret tt
    end
  else ret tt.

Fixpoint extract_loop (files : list ArchivedFile) : ML D unit :=
  match files with
  | [] => ret tt
  | it :: rest =>
      extract_one it ;;
      extract_loop rest
  end.

(** The text a catch clause of the class logs for an exception. *)
Definition catch_message (prefix : string) (e : Exn) : string :=
  match e with
  | TskException m => prefix ++ "TskException: " ++ m
  | TskFileException m => prefix ++ "TskException: " ++ m
  | StdException m => prefix ++ "std::exception: " ++ m
  end.

(** [TskL01Extract::extractFiles] *)
Definition extractFiles : ML D Z :=
  try_catch
    (img <- member m_img_info ;;
     match img with
     | None => throw (TskException "TskL01Extract::extractFiles: Images not open yet")
     | Some _ =>
         files <- member m_archivedFiles ;;
         extract_loop files ;;
         ret 0
     end)
    (fun e =>
       emit (EvLogError (catch_message "TskL01Extract::extractFiles : " e)) ;;
       ret (-1)).

(** The catch clauses of [openContainer], for the value the local
    [ewfError] has when the exception arrives: the clause for [TskException]
    appends the back trace of a libewf error that is set. *)
Definition openContainer_catch (ewfError : option string) (e : Exn) : ML D Z :=
  emit (EvLogError
          (catch_message "TskL01Extract::openContainer : " e
           ++ match e, ewfError with
              | StdException _, _ => ""
              | _, Some text => "libewf error: " ++ text ++ endl
              | _, None => ""
              end)) ;;
  ret (-1).

(** [TskL01Extract::openContainer]; the result of [extractFiles] is dropped
    by the source.  The one try block of the source is written as a block for
    each value the local [ewfError] takes: NULL up to the call that fetches
    the root entry, then what that call and the fetch of the root name leave
    in it, and NULL again once the name is fetched. *)
Definition openContainer : ML D Z :=
  file <- member m_containerFilename ;;
  r <- call (tsk_img_open_sing file) (EvImgOpenSing file) ;;
  set_m_img_info r ;;
  match r with
  | None =>
      try_catch
        (text <- call tsk_error_get EvErrorGet ;;
         throw (TskException ("Error with tsk_img_open: " ++ text ++ endl)))
        (openContainer_catch None)
  | Some img =>
      set_m_ewfInfo (Some img) ;;
      set_m_img_info (Some img) ;;
      match root_file_entry img with
      | RootError ewfError =>
          try_catch
            (throw (TskException
                      "TskL01Extract::openContainers - Error with libewf_handle_get_root_file_entry: "))
            (openContainer_catch ewfError)
      | RootAbsent => ret 0
      | RootPresent root =>
          match utf8_name root with
          | Fails ewfError =>
              try_catch
                (throw (TskException "Error with libewf_file_entry_get_utf8_name: "))
                (openContainer_catch ewfError)
          | Gives _ =>
              try_catch
                (traverse root ;;
                 extractFiles ;;
                 ret 0)
                (openContainer_catch None)
          end
      end
  end.

(** [TskL01Extract::open], the overload that takes the name of the file.
    When [close] leaves records with dangling pointers the run goes on with
    them in the list; such a run is given no outcome. *)
Definition open (imageFile : string) (s : State D) : option (Result Z * State D) :=
  if negb (String.eqb (m_containerFilename (this s)) "") then
    match reusable (close s) with
    | Some s' => Some ((set_m_containerFilename imageFile ;; openContainer) s')
    | None => None
    end
  else Some ((set_m_containerFilename imageFile ;; openContainer) s).

(** [TskL01Extract::~TskL01Extract]: what the destructor leaves outside the
    object, which is gone. *)
Definition destroy (s : State D) : D * list Event :=
  (closed_services (close s), closed_trace (close s)).

End Methods.

(** *** Readable trees

    An entry is readable when libewf answers every question [traverse] asks
    on it and on the sub entries it visits, and the array for the content of
    each of them that is not empty is allocated and filled. *)

Fixpoint readable_subs (p : EwfEntry -> bool) (num i : Z)
    (rest : list (option EwfEntry)) : bool :=
  if i <? num then
    match rest with
    | Some child :: rest' => p child && readable_subs p num (i + 1) rest'
    | _ => false
    end
  else true.

Fixpoint readable {plat : Platform} (e : EwfEntry) : bool :=
  match e with
  | EwfNode nm ty fl sz buf num subs =>
      match nm, ty, fl, sz with
      | Gives _, Some _, Some _, Gives z =>
          (if 0 <? to_size_t (z mod 2 ^ 64)
           then match buf with Filled _ => true | _ => false end
           else true)
          && (if 0 <? num then readable_subs readable num 0 subs else true)
      | _, _, _, _ => false
      end
  end.

(** The record of a readable entry. *)
Definition archived {plat : Platform} (e : EwfEntry) : ArchivedFile :=
  match e with
  | EwfNode nm ty _ sz buf _ _ =>
      {| entry := e;
         name := match nm with Gives s => s | Fails _ => "" end;
         type := match ty with Some t => t mod 256 | None => 0 end;
         size := match sz with Gives z => z mod 2 ^ 64 | Fails _ => 0 end;
         dataBuf := match sz, buf with
                    | Gives z, Filled b =>
                        if 0 <? to_size_t (z mod 2 ^ 64) then Some b else None
                    | _, _ => None
                    end |}
  end.

(** The entries [traverse] visits: the parent first, then the sub entries
    of index below [num] in order, each followed by its own sub entries. *)
Fixpoint visited_subs (f : EwfEntry -> list EwfEntry) (num i : Z)
    (rest : list (option EwfEntry)) : list EwfEntry :=
  if i <? num then
    match rest with
    | Some child :: rest' => f child ++ visited_subs f num (i + 1) rest'
    | _ => []
    end
  else [].

Fixpoint visited (e : EwfEntry) : list EwfEntry :=
  match e with
  | EwfNode _ _ _ _ _ num subs =>
      e :: (if 0 <? num then visited_subs visited num 0 subs else [])
  end.

(** What [traverse] can throw when it visits the entries [seen]: a
    [TskException], or the [std::bad_alloc] of an allocation that failed on
    one of them. *)
Definition thrown_by (seen : list EwfEntry) (x : Exn) : Prop :=
  (exists m, x = TskException m) \/
  (exists what e,
     x = StdException what /\ In e seen /\ file_data e = NoMemory what).

(** The object and the services once [tsk_img_open_sing] has answered
    [openContainer] with [img] and left the services as [d]. *)
Definition opened {D : Type} (s : State D) (img : EwfImage) (d : D) : State D :=
  {| this := {| m_img_info := Some img;
                m_ewfInfo := Some img;
                m_containerFilename := m_containerFilename (this s);
                m_archivedFiles := m_archivedFiles (this s) |};
     services := d;
     trace := trace s ++ [EvImgOpenSing (m_containerFilename (this s)) (Some img)] |}.

(** [s'] is [s] with [added] appended to [m_archivedFiles] and nothing else
    changed. *)
Definition appended {D : Type} (s s' : State D) (added : list ArchivedFile) : Prop :=
  this s' = {| m_img_info := m_img_info (this s);
               m_ewfInfo := m_ewfInfo (this s);
               m_containerFilename := m_containerFilename (this s);
               m_archivedFiles := m_archivedFiles (this s) ++ added |} /\
  services s' = services s /\
  trace s' = trace s.

(** Induction on an entry together with the list of its sub entries. *)
Section EntryInduction.
Variable P : EwfEntry -> Prop.
Variable Q : list (option EwfEntry) -> Prop.
Hypothesis Hnode : forall nm ty fl sz buf num subs,
  Q subs -> P (EwfNode nm ty fl sz buf num subs).
Hypothesis Hnil : Q [].
Hypothesis Hnone : forall rest, Q rest -> Q (None :: rest).
Hypothesis Hsome : forall child rest, P child -> Q rest -> Q (Some child :: rest).

Fixpoint entry_ind (e : EwfEntry) : P e :=
  match e with
  | EwfNode nm ty fl sz buf num subs =>
      Hnode nm ty fl sz buf num subs
        ((fix subs_ind (rest : list (option EwfEntry)) : Q rest :=
            match rest with
            | [] => Hnil
            | None :: rest' => Hnone rest' (subs_ind rest')
            | Some child :: rest' => Hsome child rest' (entry_ind child) (subs_ind rest')
            end) subs)
  end.

End EntryInduction.

(** Which log entries are calls of the image database or the file manager. *)
Definition is_service_call (e : Event) : bool :=
  match e with
  | EvAddDerivedFileInfo _ _ _ _ _ _ _ _ => true
  | EvAddFile _ _ _ _ => true
  | _ => false
  end.

Definition is_add_file (e : Event) : bool :=
  match e with
  | EvAddFile _ _ _ _ => true
  | _ => false
  end.

End L01.

(** ** A small container

    A container for running the methods: a root directory with a file of
    three bytes and an empty file, and services that accept every call; the
    state of the services is the list of the sizes registered so far. *)

Definition l01_file (nm : string) (sz : Z) (data : option (list Z)) : L01.EwfEntry :=
  L01.EwfNode (L01.Gives nm) (Some 102) (Some 0) (L01.Gives sz)
    (match data with
     | Some b => L01.Filled b
     | None => L01.ReadError
     end) 0 [].

Definition l01_root : L01.EwfEntry :=
  L01.EwfNode (L01.Gives "docs"%string) (Some 100) (Some 0) (L01.Gives 0)
    L01.ReadError 2
    [Some (l01_file "a.txt" 3 (Some [97; 98; 99]));
     Some (l01_file "empty" 0 None)].

(** A platform whose [size_t] has 64 bits. *)
Definition l01_platform : L01.Platform := {| L01.SIZE_MAX := 2 ^ 64 - 1 |}.

Definition l01_image : L01.EwfImage :=
  {| L01.image_id := 7; L01.root_file_entry := L01.RootPresent l01_root |}.

Definition l01_services : L01.Services (list Z) :=
  {| L01.tsk_img_open_sing := fun f d =>
       if String.eqb f "evidence.L01" then (Some l01_image, d) else (None, d);
     L01.tsk_img_close := fun _ d => (tt, d);
     L01.tsk_error_get := fun d => ("Cannot open image"%string, d);
     L01.addDerivedFileInfo := fun _ _ _ sz _ _ d =>
       ((0, Z.of_nat (List.length d) + 1), d ++ [sz]);
     L01.addFile := fun _ _ _ d => (L01.AddFileDone, d);
     L01.path_isDirectory := fun _ => false;
     L01.path_depth := fun _ => 0;
     L01.path_at := fun nm n => if n =? 0 then Some nm else None;
     L01.path_toString := fun nm => nm |}.

(** An object working on the file [file] with the records [files]. *)
Definition l01_state (img : option L01.EwfImage) (file : string)
    (files : list L01.ArchivedFile) : L01.State (list Z) :=
  {| L01.this := {| L01.m_img_info := img; L01.m_ewfInfo := img;
                    L01.m_containerFilename := file;
                    L01.m_archivedFiles := files |};
     L01.services := [];
     L01.trace := [] |}.

(** * Properties *)

(** ** Running the monad *)

Lemma call_run {Ext A : Type} (f : Ext_call Ext A) (ev : A -> Event)
    (w : World Ext) (a : A) (m : Machine Ext) :
  f (mach w) = (a, m) ->
  call f ev w = (a, {| mach := m; log := log w ++ [ev a] |}).
Proof. intros H. unfold call. rewrite H. reflexivity. Qed.

Section Properties.
Context {hdr : TskHeaders} {Ext : Type} {lib : TskLib Ext} {hooks : TskAutoHooks Ext}.

(** The session of [w] carries the sentinel. *)
Lemma tag_test_true (w : World Ext) :
  m_tag (self (mach w)) = TSK_AUTO_TAG ->
  negb (m_tag (self (mach w)) =? TSK_AUTO_TAG) = false.
Proof. intros H. rewrite H, Z.eqb_refl. reflexivity. Qed.


(** C3: on a session with a valid tag, [dirWalkCb] calls [processFile] once
    and translates its result: TSK_OK to TSK_WALK_CONT, TSK_STOP to
    TSK_WALK_STOP, every other result to TSK_WALK_ERROR. *)
Theorem dirWalkCb_maps_hook_result (f : TSK_FS_FILE) (path : string)
    (w : World Ext) (r : TSK_RETVAL_ENUM) (m' : Machine Ext) :
  m_tag (self (mach w)) = TSK_AUTO_TAG ->
  processFile f path (mach w) = (r, m') ->
  snd (dirWalkCb f path w)
    = {| mach := m'; log := log w ++ [EvProcessFile f path r] |} /\
  (r = TSK_OK -> fst (dirWalkCb f path w) = TSK_WALK_CONT) /\
  (r = TSK_STOP -> fst (dirWalkCb f path w) = TSK_WALK_STOP) /\
  (r <> TSK_OK -> r <> TSK_STOP -> fst (dirWalkCb f path w) = TSK_WALK_ERROR).
Proof.
  intros Htag Hhook.
  unfold dirWalkCb, bind, member.
  rewrite (tag_test_true w Htag).
  rewrite (call_run _ _ _ _ _ Hhook).
  destruct r; cbn; repeat split; intros; congruence.
Qed.

(** C4: when [filterVol] answers TSK_FILTER_SKIP, [vsWalkCb] returns
    TSK_WALK_CONT, and when it answers TSK_FILTER_STOP, [vsWalkCb] returns
    TSK_WALK_STOP; in both cases the call of the filter is the only call made:
    the machine is left as the filter left it and no file system is opened. *)
Theorem vsWalkCb_filter_skip_stop (a_vs_info : TSK_VS_INFO)
    (a_vs_part : TSK_VS_PART_INFO) (w : World Ext) (v : TSK_FILTER_ENUM)
    (m' : Machine Ext) :
  m_tag (self (mach w)) = TSK_AUTO_TAG ->
  filterVol a_vs_part (mach w) = (v, m') ->
  (v = TSK_FILTER_SKIP ->
   vsWalkCb a_vs_info a_vs_part w
     = (TSK_WALK_CONT,
        {| mach := m'; log := log w ++ [EvFilterVol a_vs_part TSK_FILTER_SKIP] |})) /\
  (v = TSK_FILTER_STOP ->
   vsWalkCb a_vs_info a_vs_part w
     = (TSK_WALK_STOP,
        {| mach := m'; log := log w ++ [EvFilterVol a_vs_part TSK_FILTER_STOP] |})).
Proof.
  intros Htag Hf.
  unfold vsWalkCb, bind, member, vol_filter.
  rewrite (tag_test_true w Htag), (call_run _ _ _ _ _ Hf).
  split; intros ->; reflexivity.
Qed.

(** C1: on an admitted partition, when [findFilesInFsRet] returns TSK_STOP,
    [vsWalkCb] returns TSK_WALK_STOP; when it returns another result that is
    not TSK_OK, [vsWalkCb] resets the error slot and returns TSK_WALK_CONT. *)
Theorem vsWalkCb_fs_walk_outcome (a_vs_info : TSK_VS_INFO)
    (a_vs_part : TSK_VS_PART_INFO) (w w1 w2 : World Ext) (r : TSK_RETVAL_ENUM) :
  m_tag (self (mach w)) = TSK_AUTO_TAG ->
  vol_filter a_vs_part w = (TSK_FILTER_CONT, w1) ->
  findFilesInFsRet (part_offset a_vs_part) w1 = (r, w2) ->
  (r = TSK_STOP -> vsWalkCb a_vs_info a_vs_part w = (TSK_WALK_STOP, w2)) /\
  (r <> TSK_OK -> r <> TSK_STOP ->
   vsWalkCb a_vs_info a_vs_part w = (TSK_WALK_CONT, snd (tsk_error_reset w2)) /\
   tsk_errno (mach (snd (tsk_error_reset w2))) = 0 /\
   log (snd (tsk_error_reset w2)) = log w2 ++ [EvErrorReset]).
Proof.
  intros Htag Hf Hfs.
  unfold vsWalkCb, bind, member.
  rewrite (tag_test_true w Htag), Hf, Hfs.
  split.
  - intros ->. reflexivity.
  - intros Hok Hstop. destruct r; try congruence; repeat split.
Qed.


(** C10: [findFilesInFs] returns 0 when [findFilesInFsRet] returns TSK_STOP,
    as it does when the walk completes with TSK_OK, and returns 1 only for
    TSK_ERR; the overload with an inum maps the result of [findFilesInFsInt]
    the same way. *)
Theorem findFilesInFs_reports_stop_as_success (a_start a_inum : Z)
    (w : World Ext) :
  (forall r w', findFilesInFsRet a_start w = (r, w') ->
     snd (findFilesInFs a_start w) = w' /\
     (r = TSK_STOP -> fst (findFilesInFs a_start w) = 0) /\
     (r = TSK_OK -> fst (findFilesInFs a_start w) = 0) /\
     (fst (findFilesInFs a_start w) = 1 <-> r = TSK_ERR)) /\
  (forall img fs w1 r w2,
     m_img_info (self (mach w)) = Some img ->
     fs_open img a_start w = (Some fs, w1) ->
     findFilesInFsInt fs a_inum w1 = (r, w2) ->
     snd (findFilesInFs_inum a_start a_inum w) = snd (fs_close fs w2) /\
     (r = TSK_STOP -> fst (findFilesInFs_inum a_start a_inum w) = 0) /\
     (r = TSK_OK -> fst (findFilesInFs_inum a_start a_inum w) = 0) /\
     (fst (findFilesInFs_inum a_start a_inum w) = 1 <-> r = TSK_ERR)).
Proof.
  split.
  - intros r w' H. unfold findFilesInFs, bind. rewrite H.
    destruct r; cbn; repeat split; intros; congruence.
  - intros img fs w1 r w2 Himg Hopen Hint.
    unfold findFilesInFs_inum, bind, member. rewrite Himg, Hopen, Hint.
    destruct (fs_close fs w2) as [u w3].
    destruct r; cbn; repeat split; intros; congruence.
Qed.

(** C5: on an opened file system, when [filterFs] answers TSK_FILTER_SKIP,
    [findFilesInFsInt] returns TSK_OK, and when it answers TSK_FILTER_STOP,
    [findFilesInFsInt] returns TSK_STOP, in both cases with the call of the
    filter as its only call (no directory walk).  Both callers then close the
    file system before they return: they leave the machine as [tsk_fs_close]
    left it, after the three calls open, filter, close, in this order. *)
Theorem filterFs_skip_stop_then_close (fs : TSK_FS_INFO) (a_inum : Z)
    (w1 : World Ext) (v : TSK_FILTER_ENUM) (m2 : Machine Ext) :
  filterFs fs (mach w1) = (v, m2) ->
  v <> TSK_FILTER_CONT ->
  let w2 := {| mach := m2; log := log w1 ++ [EvFilterFs fs v] |} in
  (v = TSK_FILTER_SKIP -> findFilesInFsInt fs a_inum w1 = (TSK_OK, w2)) /\
  (v = TSK_FILTER_STOP -> findFilesInFsInt fs a_inum w1 = (TSK_STOP, w2)) /\
  (forall img a_start w u m3,
     m_img_info (self (mach w)) = Some img ->
     tsk_fs_open_img img a_start TSK_FS_TYPE_DETECT (mach w) = (Some fs, mach w1) ->
     log w1 = log w ++ [EvFsOpenImg img a_start TSK_FS_TYPE_DETECT (Some fs)] ->
     tsk_fs_close fs m2 = (u, m3) ->
     let w3 := {| mach := m3;
                  log := log w ++
                         [EvFsOpenImg img a_start TSK_FS_TYPE_DETECT (Some fs);
                          EvFilterFs fs v; EvFsClose fs] |} in
     (v = TSK_FILTER_SKIP -> findFilesInFsRet a_start w = (TSK_OK, w3)) /\
     (v = TSK_FILTER_STOP -> findFilesInFsRet a_start w = (TSK_STOP, w3)) /\
     findFilesInFs_inum a_start a_inum w = (0, w3)).
Proof.
  intros Hf Hv w2.
  assert (Hint : forall inum,
             findFilesInFsInt fs inum w1
             = (match v with TSK_FILTER_STOP => TSK_STOP | _ => TSK_OK end, w2)).
  { intros inum. unfold findFilesInFsInt, bind.
    rewrite (call_run _ _ _ _ _ Hf). destruct v; try reflexivity. congruence. }
  split; [intros ->; apply Hint|].
  split; [intros ->; apply Hint|].
  intros img a_start w u m3 Himg Hopen Hlog Hclose w3.
  assert (Hfs : fs_open img a_start w = (Some fs, w1)).
  { unfold fs_open.
    rewrite (call_run (tsk_fs_open_img img a_start TSK_FS_TYPE_DETECT)
               (EvFsOpenImg img a_start TSK_FS_TYPE_DETECT) w (Some fs) (mach w1) Hopen).
    rewrite <- Hlog.
    destruct w1; reflexivity. }
  assert (Hcl : fs_close fs w2 = (u, w3)).
  { unfold fs_close.
    rewrite (call_run (tsk_fs_close fs) (fun _ => EvFsClose fs) w2 u m3 Hclose).
    subst w2 w3. cbn.
    rewrite Hlog, <- !app_assoc. reflexivity. }
  assert (Hret : findFilesInFsRet a_start w
                 = (match v with TSK_FILTER_STOP => TSK_STOP | _ => TSK_OK end, w3)).
  { unfold findFilesInFsRet, bind, member. rewrite Himg, Hfs, Hint, Hcl. reflexivity. }
  split; [intros ->; apply Hret|].
  split; [intros ->; apply Hret|].
  unfold findFilesInFs_inum, bind, member. rewrite Himg, Hfs, Hint, Hcl.
  destruct v; reflexivity.
Qed.

(** C2: with an image open, when no volume system opens at [a_start],
    [findFilesInVs] resets the error slot (touching nothing else of the
    machine) and from there on is [findFilesInFs a_start]: same result, same
    final state, same calls in the log. *)
Theorem findFilesInVs_falls_back_to_fs (a_start : Z) (img : TSK_IMG_INFO)
    (w w1 : World Ext) :
  m_img_info (self (mach w)) = Some img ->
  vs_open img a_start w = (None, w1) ->
  let w2 := snd (tsk_error_reset (snd (note_trying_fs w1))) in
  tsk_errno (mach w2) = 0 /\
  self (mach w2) = self (mach w1) /\
  ext (mach w2) = ext (mach w1) /\
  findFilesInVs a_start w = findFilesInFs a_start w2.
Proof.
  intros Himg Hvs w2.
  assert (Hnote : forall x : World Ext,
             self (mach (snd (note_trying_fs x))) = self (mach x) /\
             ext (mach (snd (note_trying_fs x))) = ext (mach x)).
  { intros x. unfold note_trying_fs.
    destruct (negb (tsk_verbose (mach x) =? 0)); split; reflexivity. }
  repeat split.
  - subst w2. cbn. apply (Hnote w1).
  - subst w2. cbn. apply (Hnote w1).
  - unfold findFilesInVs, bind, member. rewrite Himg, Hvs.
    subst w2.
    destruct (note_trying_fs w1) as [u1 x1]. cbn [snd].
    destruct (tsk_error_reset x1) as [u2 x2]. cbn [snd].
    destruct (findFilesInFs a_start x2) as [r x3] eqn:Hfs.
    assert (Hr : r = 0 \/ r = 1).
    { unfold findFilesInFs, bind in Hfs.
      destruct (findFilesInFsRet a_start x2) as [rr x4].
      destruct rr; inversion Hfs; auto. }
    destruct Hr as [-> | ->]; reflexivity.
Qed.

(** C8: [openImage] closes the image the session holds, once, before it opens
    the new one, and makes no close call when the session holds none.  The
    session then holds what [tsk_img_open] answered, on the machine that call
    left; the result is 0 for a handle and 1 for a refused open, after which
    no image is held. *)
Theorem openImage_closes_once_then_opens (a_numImg : Z)
    (a_images : list string) (a_imgType a_sSize : Z) (w : World Ext) :
  (forall old u m1 r m2,
     m_img_info (self (mach w)) = Some old ->
     tsk_img_close old (mach w) = (u, m1) ->
     tsk_img_open a_numImg a_images a_imgType a_sSize (hold_image None m1) = (r, m2) ->
     openImage a_numImg a_images a_imgType a_sSize w
     = (match r with Some _ => 0 | None => 1 end,
        {| mach := hold_image r m2;
           log := log w ++ [EvImgClose old;
                            EvImgOpen a_numImg a_images a_imgType a_sSize r] |})) /\
  (forall r m2,
     m_img_info (self (mach w)) = None ->
     tsk_img_open a_numImg a_images a_imgType a_sSize (mach w) = (r, m2) ->
     openImage a_numImg a_images a_imgType a_sSize w
     = (match r with Some _ => 0 | None => 1 end,
        {| mach := hold_image r m2;
           log := log w ++ [EvImgOpen a_numImg a_images a_imgType a_sSize r] |})).
Proof.
  split.
  - intros old u m1 r m2 Himg Hclose Hopen.
    unfold openImage, closeImage, bind, member. rewrite Himg. cbn beta iota.
    rewrite Himg. cbn beta iota.
    rewrite (call_run _ _ _ _ _ Hclose).
    unfold set_m_img_info, update_self, call. cbn [mach log fst snd].
    fold (hold_image None m1). rewrite Hopen. cbn [mach log self].
    destruct r; cbn; rewrite <- app_assoc; reflexivity.
  - intros r m2 Himg Hopen.
    unfold openImage, bind, member. rewrite Himg. cbn beta iota.
    unfold ret at 1. rewrite (call_run _ _ _ _ _ Hopen).
    unfold set_m_img_info, update_self. cbn [mach log self].
    destruct r; reflexivity.
Qed.

(** The loop of [processAttributes], started at index [i] with [n] indices
    left: its steps are on [i], [i+1], ..., there are at most [n] of them,
    and it ends either after [n] steps that all returned TSK_OK, with TSK_OK,
    or at the first step whose result is not TSK_OK, with that result. *)
Lemma attr_loop_steps (f : TSK_FS_FILE) (path : string) (n : nat) :
  forall (i : Z) (w : World Ext),
  exists steps : list AttrStep,
    attr_run f path i steps (mach w) (mach (snd (attr_loop n i f path w))) /\
    log (snd (attr_loop n i f path w)) = log w ++ attr_events f path i steps /\
    (List.length steps <= n)%nat /\
    ((fst (attr_loop n i f path w) = TSK_OK /\
      List.length steps = n /\ Forall step_ok steps) \/
     (fst (attr_loop n i f path w) <> TSK_OK /\
      exists pre a,
        steps = pre ++ [(a, fst (attr_loop n i f path w))] /\
        Forall step_ok pre)).
Proof.
  induction n as [|n IH]; intros i w.
  - exists []. cbn. rewrite app_nil_r. repeat split; auto.
  - cbn [attr_loop]. unfold bind, call.
    destruct (tsk_fs_file_attr_get_idx f i (mach w)) as [a m1] eqn:Hget.
    cbn [mach log].
    destruct (processAttribute f a path m1) as [r m2] eqn:Hproc.
    set (w2 := {| mach := m2;
                  log := (log w ++ [EvAttrGetIdx f i a])
                           ++ [EvProcessAttribute f a path r] |}).
    assert (Hstop : r <> TSK_OK ->
              exists steps : list AttrStep,
                attr_run f path i steps (mach w) m2 /\
                log w2 = log w ++ attr_events f path i steps /\
                (List.length steps <= S n)%nat /\
                exists pre a0, steps = pre ++ [(a0, r)] /\ Forall step_ok pre).
    { intros Hr. exists [(a, r)]. split; [|split; [|split]].
      - cbn. exists m1, m2. auto.
      - subst w2. cbn. rewrite <- app_assoc. reflexivity.
      - cbn. lia.
      - exists [], a. split; [reflexivity|constructor]. }
    destruct r.
    + destruct (IH (i + 1) w2) as (steps & Hrun & Hlog & Hlen & Hend).
      exists ((a, TSK_OK) :: steps). split; [|split; [|split]].
      * cbn. exists m1, m2. auto.
      * rewrite Hlog. subst w2. cbn. rewrite <- !app_assoc. reflexivity.
      * cbn. lia.
      * destruct Hend as [(Hok & Hn & Hall) | (Hne & pre & a0 & Hsteps & Hpre)].
        -- left. split; [exact Hok|]. split; [cbn; lia|].
           constructor; [reflexivity|exact Hall].
        -- right. split; [exact Hne|].
           exists ((a, TSK_OK) :: pre), a0. split.
           ++ rewrite Hsteps at 1. reflexivity.
           ++ constructor; [reflexivity|exact Hpre].
    + destruct Hstop as (steps & Hrun & Hlog & Hlen & Hend); [discriminate|].
      exists steps. cbn [fst snd ret]. repeat split; auto.
      right. split; [discriminate|exact Hend].
    + destruct Hstop as (steps & Hrun & Hlog & Hlen & Hend); [discriminate|].
      exists steps. cbn [fst snd ret]. repeat split; auto.
      right. split; [discriminate|exact Hend].
    + destruct Hstop as (steps & Hrun & Hlog & Hlen & Hend); [discriminate|].
      exists steps. cbn [fst snd ret]. repeat split; auto.
      right. split; [discriminate|exact Hend].
Qed.

(** C6: on a file for which the library reports [count] attributes,
    [processAttributes] calls [processAttribute] on the attributes of index
    0, 1, 2, ... in this order, at most [count] times; it returns TSK_OK
    after [count] calls that all returned TSK_OK, and otherwise stops at the
    first call whose result is not TSK_OK and returns that result. *)
Theorem processAttributes_stops_at_first_failure (f : TSK_FS_FILE)
    (path : string) (w : World Ext) (count : Z) (m1 : Machine Ext) :
  tsk_fs_file_attr_getsize f (mach w) = (count, m1) ->
  exists steps : list AttrStep,
    attr_run f path 0 steps m1 (mach (snd (processAttributes f path w))) /\
    log (snd (processAttributes f path w))
      = log w ++ EvAttrGetsize f count :: attr_events f path 0 steps /\
    (List.length steps <= Z.to_nat count)%nat /\
    ((fst (processAttributes f path w) = TSK_OK /\
      List.length steps = Z.to_nat count /\ Forall step_ok steps) \/
     (fst (processAttributes f path w) <> TSK_OK /\
      exists pre a,
        steps = pre ++ [(a, fst (processAttributes f path w))] /\
        Forall step_ok pre)).
Proof.
  intros Hsize.
  unfold processAttributes, bind. rewrite (call_run _ _ _ _ _ Hsize).
  set (w1 := {| mach := m1; log := log w ++ [EvAttrGetsize f count] |}).
  destruct (attr_loop_steps f path (Z.to_nat count) 0 w1)
    as (steps & Hrun & Hlog & Hlen & Hend).
  exists steps. split; [exact Hrun|]. split; [|split; [exact Hlen|exact Hend]].
  rewrite Hlog. subst w1. cbn. rewrite <- app_assoc. reflexivity.
Qed.

(** What [isDotDir] computes on an entry with a well-formed name: 1 exactly
    when the name is "." or ".." and the [flags] member of the name structure
    has a bit in common with TSK_FS_NAME_TYPE_DIR.  The [type] member, which
    [isDir] and [isFile] test, is not read. *)
Lemma isDotDir_tests_name_flags (f : TSK_FS_FILE) (n : TSK_FS_NAME)
    (path : string) :
  FsFile.name f = Some n ->
  wf_name n ->
  (isDotDir (Some f) path = 1 <->
   Z.land (FsName.flags n) TSK_FS_NAME_TYPE_DIR <> 0 /\
   (c_str (FsName.name n) = "."%string \/ c_str (FsName.name n) = ".."%string)).
Proof.
  intros Hname [Hsize Hnul].
  unfold isDotDir. rewrite Hname.
  destruct n as [nm sz ma ty fl]. cbn in *. subst sz.
  destruct (Z.eqb_spec (Z.land fl TSK_FS_NAME_TYPE_DIR) 0) as [Hz|Hz].
  { split; [discriminate|]. intros [H _]. contradiction. }
  assert (Hdot : forall c : ascii, Ascii.eqb c "." = true -> Ascii.eqb c NUL = false).
  { intros c H. apply Ascii.eqb_eq in H. subst c. reflexivity. }
  destruct nm as [|c0 [|c1 [|c2 rest]]]; cbn -[Z.of_nat] in *.
  - split; [discriminate|]. intros [_ [H|H]]; discriminate.
  - rewrite orb_false_r in Hnul. rewrite Hnul.
    split; [discriminate|]. intros [_ [H|H]]; discriminate.
  - unfold char_at; cbn.
    destruct (Ascii.eqb_spec c0 "."); cbn.
    + subst c0. cbn.
      destruct (Ascii.eqb_spec c1 NUL); cbn.
      * split; auto.
      * cbn in Hnul. discriminate.
    + split; [discriminate|].
      intros [_ [H|H]]; destruct (Ascii.eqb c0 NUL); try discriminate;
        inversion H; congruence.
  - unfold char_at; cbn -[Z.of_nat].
    replace (2 <=? Z.of_nat (S (S (S (String.length rest))))) with true
      by (symmetry; apply Z.leb_le; lia).
    replace (2 <? Z.of_nat (S (S (S (String.length rest))))) with true
      by (symmetry; apply Z.ltb_lt; lia).
    cbn.
    destruct (Ascii.eqb_spec c0 "."); cbn.
    + subst c0. cbn.
      destruct (Ascii.eqb_spec c1 NUL); cbn.
      * split; auto.
      * destruct (Ascii.eqb_spec c1 "."); cbn.
        -- subst c1.
           destruct (Ascii.eqb_spec c2 NUL); cbn.
           ++ split; auto.
           ++ split; [discriminate|].
              intros [_ [H|H]]; inversion H.
        -- split; [discriminate|].
           intros [_ [H|H]]; inversion H; congruence.
    + split; [discriminate|].
      intros [_ [H|H]]; destruct (Ascii.eqb c0 NUL); try discriminate;
        inversion H; congruence.
Qed.

(** C9: [isDotDir] does not return 0 on every entry that is not a directory:
    an entry named "." whose [type] is not TSK_FS_NAME_TYPE_DIR, so that
    [isDir] returns 0 on it, gets 1 from [isDotDir] as soon as its name flags
    share a bit with TSK_FS_NAME_TYPE_DIR. *)
Theorem isDotDir_accepts_non_directory (ty fl : Z) (path : string) :
  ty <> TSK_FS_NAME_TYPE_DIR ->
  Z.land fl TSK_FS_NAME_TYPE_DIR <> 0 ->
  isDir (Some (fs_entry "." ty fl)) = 0 /\
  isDotDir (Some (fs_entry "." ty fl)) path = 1.
Proof.
  intros Hty Hfl. split.
  - cbn. apply Z.eqb_neq in Hty. rewrite Hty. reflexivity.
  - cbn. apply Z.eqb_neq in Hfl. rewrite Hfl. reflexivity.
Qed.

End Properties.

(** ** The properties on the scripted library and tool *)

Lemma dirWalkCb_maps_hook_result_witness :
  fst (demo_dirWalkCb (fs_entry "a.txt" 5 1) "/"
         (demo_open_world (demo_script TSK_FILTER_CONT TSK_FILTER_CONT TSK_STOP [])))
    = TSK_WALK_STOP /\
  fst (demo_dirWalkCb (fs_entry "a.txt" 5 1) "/"
         (demo_open_world (demo_script TSK_FILTER_CONT TSK_FILTER_CONT TSK_COR [])))
    = TSK_WALK_ERROR.
Proof.
  split.
  - pose proof (dirWalkCb_maps_hook_result (hdr := tsk_headers) (hooks := demo_hooks)
                  (fs_entry "a.txt" 5 1) "/"
                  (demo_open_world (demo_script TSK_FILTER_CONT TSK_FILTER_CONT TSK_STOP []))
                  TSK_STOP _ eq_refl eq_refl) as (_ & _ & H & _).
    exact (H eq_refl).
  - pose proof (dirWalkCb_maps_hook_result (hdr := tsk_headers) (hooks := demo_hooks)
                  (fs_entry "a.txt" 5 1) "/"
                  (demo_open_world (demo_script TSK_FILTER_CONT TSK_FILTER_CONT TSK_COR []))
                  TSK_COR _ eq_refl eq_refl) as (_ & _ & _ & H).
    apply H; discriminate.
Defined.

Lemma vsWalkCb_filter_skip_stop_witness :
  demo_vsWalkCb demo_vs demo_part1
    (demo_open_world (demo_script TSK_FILTER_SKIP TSK_FILTER_CONT TSK_OK []))
  = (TSK_WALK_CONT,
     {| mach := mach (demo_open_world (demo_script TSK_FILTER_SKIP TSK_FILTER_CONT TSK_OK []));
        log := [EvFilterVol demo_part1 TSK_FILTER_SKIP] |}) /\
  fst (demo_vsWalkCb demo_vs demo_part1
         (demo_open_world (demo_script TSK_FILTER_STOP TSK_FILTER_CONT TSK_OK [])))
  = TSK_WALK_STOP.
Proof.
  split.
  - pose proof (vsWalkCb_filter_skip_stop (hdr := tsk_headers) (lib := demo_lib)
                  (hooks := demo_hooks) demo_vs demo_part1
                  (demo_open_world (demo_script TSK_FILTER_SKIP TSK_FILTER_CONT TSK_OK []))
                  TSK_FILTER_SKIP _ eq_refl eq_refl) as (H & _).
    exact (H eq_refl).
  - pose proof (vsWalkCb_filter_skip_stop (hdr := tsk_headers) (lib := demo_lib)
                  (hooks := demo_hooks) demo_vs demo_part1
                  (demo_open_world (demo_script TSK_FILTER_STOP TSK_FILTER_CONT TSK_OK []))
                  TSK_FILTER_STOP _ eq_refl eq_refl) as (_ & H).
    unfold demo_vsWalkCb. rewrite (H eq_refl). reflexivity.
Defined.

(** Partition 0 of the image holds no file system: the error of the failed
    open is cleared and the enumeration goes on.  With a file-system filter
    that answers stop on partition 1, the enumeration is stopped. *)
Lemma vsWalkCb_fs_walk_outcome_witness :
  (fst (demo_vsWalkCb demo_vs demo_part0
          (demo_open_world (demo_script TSK_FILTER_CONT TSK_FILTER_CONT TSK_OK [])))
   = TSK_WALK_CONT /\
   tsk_errno (mach (snd (demo_vsWalkCb demo_vs demo_part0
          (demo_open_world (demo_script TSK_FILTER_CONT TSK_FILTER_CONT TSK_OK [])))))
   = 0) /\
  fst (demo_vsWalkCb demo_vs demo_part1
         (demo_open_world (demo_script TSK_FILTER_CONT TSK_FILTER_STOP TSK_OK [])))
  = TSK_WALK_STOP.
Proof.
  split.
  - pose proof (vsWalkCb_fs_walk_outcome (hdr := tsk_headers) (lib := demo_lib)
                  (hooks := demo_hooks) demo_vs demo_part0
                  (demo_open_world (demo_script TSK_FILTER_CONT TSK_FILTER_CONT TSK_OK []))
                  _ _ TSK_ERR eq_refl eq_refl eq_refl) as (_ & H).
    destruct H as (H1 & H2 & _); [discriminate|discriminate|].
    unfold demo_vsWalkCb. rewrite H1. split; [reflexivity|exact H2].
  - pose proof (vsWalkCb_fs_walk_outcome (hdr := tsk_headers) (lib := demo_lib)
                  (hooks := demo_hooks) demo_vs demo_part1
                  (demo_open_world (demo_script TSK_FILTER_CONT TSK_FILTER_STOP TSK_OK []))
                  _ _ TSK_STOP eq_refl eq_refl eq_refl) as (H & _).
    unfold demo_vsWalkCb. rewrite (H eq_refl). reflexivity.
Defined.



(** A walk stopped by the file-system filter, seen from both entry points. *)
Lemma findFilesInFs_reports_stop_as_success_witness :
  fst (demo_findFilesInFsRet 1048576
         (demo_open_world (demo_script TSK_FILTER_CONT TSK_FILTER_STOP TSK_OK [])))
  = TSK_STOP /\
  fst (demo_findFilesInFs 1048576
         (demo_open_world (demo_script TSK_FILTER_CONT TSK_FILTER_STOP TSK_OK [])))
  = 0 /\
  fst (demo_findFilesInFs_inum 1048576 2
         (demo_open_world (demo_script TSK_FILTER_CONT TSK_FILTER_STOP TSK_OK [])))
  = 0.
Proof.
  pose proof (findFilesInFs_reports_stop_as_success (hdr := tsk_headers)
                (lib := demo_lib) (hooks := demo_hooks) 1048576 2
                (demo_open_world (demo_script TSK_FILTER_CONT TSK_FILTER_STOP TSK_OK [])))
    as (H1 & H2).
  split; [reflexivity|]. split.
  - destruct (H1 TSK_STOP _ eq_refl) as (_ & H & _). exact (H eq_refl).
  - destruct (H2 demo_img demo_fs _ TSK_STOP _ eq_refl eq_refl eq_refl) as (_ & H & _).
    exact (H eq_refl).
Defined.

(** The file-system filter answers stop on the file system of partition 1. *)
Lemma filterFs_skip_stop_then_close_witness :
  demo_findFilesInFsRet 1048576
    (demo_open_world (demo_script TSK_FILTER_CONT TSK_FILTER_STOP TSK_OK []))
  = (TSK_STOP,
     {| mach := mach (demo_open_world (demo_script TSK_FILTER_CONT TSK_FILTER_STOP TSK_OK []));
        log := [EvFsOpenImg demo_img 1048576 0 (Some demo_fs);
                EvFilterFs demo_fs TSK_FILTER_STOP;
                EvFsClose demo_fs] |}).
Proof.
  pose proof (filterFs_skip_stop_then_close (hdr := tsk_headers) (lib := demo_lib)
                (hooks := demo_hooks) demo_fs 2
                {| mach := mach (demo_open_world
                                   (demo_script TSK_FILTER_CONT TSK_FILTER_STOP TSK_OK []));
                   log := [EvFsOpenImg demo_img 1048576 0 (Some demo_fs)] |}
                TSK_FILTER_STOP _ eq_refl ltac:(discriminate)) as (_ & _ & H).
  destruct (H demo_img 1048576
              (demo_open_world (demo_script TSK_FILTER_CONT TSK_FILTER_STOP TSK_OK []))
              tt _ eq_refl eq_refl eq_refl eq_refl) as (_ & H3 & _).
  exact (H3 eq_refl).
Defined.

(** No volume system opens at the offset of partition 1, where a file system
    lies: the walk from there is the file-system walk. *)
Lemma findFilesInVs_falls_back_to_fs_witness :
  demo_findFilesInVs 1048576
    (demo_open_world (demo_script TSK_FILTER_CONT TSK_FILTER_CONT TSK_OK []))
  = demo_findFilesInFs 1048576
      (snd (tsk_error_reset
              (snd (@vs_open tsk_headers Script demo_lib demo_img 1048576
                      (demo_open_world
                         (demo_script TSK_FILTER_CONT TSK_FILTER_CONT TSK_OK [])))))) /\
  fst (demo_findFilesInVs 1048576
         (demo_open_world (demo_script TSK_FILTER_CONT TSK_FILTER_CONT TSK_OK []))) = 0.
Proof.
  pose proof (findFilesInVs_falls_back_to_fs (hdr := tsk_headers) (lib := demo_lib)
                (hooks := demo_hooks) 1048576 demo_img
                (demo_open_world (demo_script TSK_FILTER_CONT TSK_FILTER_CONT TSK_OK []))
                _ eq_refl eq_refl) as (_ & _ & _ & H).
  unfold demo_findFilesInVs. rewrite H. split; reflexivity.
Defined.

(** Three attributes, the second call of the hook answers TSK_COR: two calls
    are made and TSK_COR is the result. *)
Lemma processAttributes_stops_at_first_failure_witness :
  fst (demo_processAttributes (fs_entry "a.txt" 5 1) "/"
         (demo_open_world
            (demo_script TSK_FILTER_CONT TSK_FILTER_CONT TSK_OK [TSK_OK; TSK_COR; TSK_OK])))
  = TSK_COR /\
  exists steps : list AttrStep,
    (List.length steps <= 3)%nat /\
    log (snd (demo_processAttributes (fs_entry "a.txt" 5 1) "/"
           (demo_open_world
              (demo_script TSK_FILTER_CONT TSK_FILTER_CONT TSK_OK
                 [TSK_OK; TSK_COR; TSK_OK]))))
    = EvAttrGetsize (fs_entry "a.txt" 5 1) 3
        :: attr_events (fs_entry "a.txt" 5 1) "/" 0 steps.
Proof.
  split; [reflexivity|].
  destruct (processAttributes_stops_at_first_failure (lib := demo_lib)
              (hooks := demo_hooks) (fs_entry "a.txt" 5 1) "/"
              (demo_open_world
                 (demo_script TSK_FILTER_CONT TSK_FILTER_CONT TSK_OK
                    [TSK_OK; TSK_COR; TSK_OK]))
              3 _ eq_refl) as (steps & _ & Hlog & Hlen & _).
  exists steps. split; [exact Hlen|exact Hlog].
Defined.

(** Re-opening a session that holds an image: with a list of one file the
    open succeeds, with an empty list it is refused. *)
Lemma openImage_closes_once_then_opens_witness :
  demo_openImage 1 ["disk.dd"%string] 0 0
    (demo_open_world (demo_script TSK_FILTER_CONT TSK_FILTER_CONT TSK_OK []))
  = (0,
     {| mach := mach (demo_open_world
                        (demo_script TSK_FILTER_CONT TSK_FILTER_CONT TSK_OK []));
        log := [EvImgClose demo_img;
                EvImgOpen 1 ["disk.dd"%string] 0 0 (Some demo_img)] |}) /\
  demo_openImage 0 [] 0 0
    (demo_open_world (demo_script TSK_FILTER_CONT TSK_FILTER_CONT TSK_OK []))
  = (1,
     {| mach := set_errno 0x02000000
                  (mach (demo_world None demo_tag
                           (demo_script TSK_FILTER_CONT TSK_FILTER_CONT TSK_OK [])));
        log := [EvImgClose demo_img; EvImgOpen 0 [] 0 0 None] |}).
Proof.
  split.
  - destruct (openImage_closes_once_then_opens (lib := demo_lib) 1 ["disk.dd"%string] 0 0
                (demo_open_world (demo_script TSK_FILTER_CONT TSK_FILTER_CONT TSK_OK [])))
      as (H & _).
    exact (H demo_img tt _ (Some demo_img) _ eq_refl eq_refl eq_refl).
  - destruct (openImage_closes_once_then_opens (lib := demo_lib) 0 [] 0 0
                (demo_open_world (demo_script TSK_FILTER_CONT TSK_FILTER_CONT TSK_OK [])))
      as (H & _).
    exact (H demo_img tt _ None _ eq_refl eq_refl eq_refl).
Defined.

(** A regular file (type 5) named ".", allocated (name flags 1), under the
    header values of The Sleuth Kit (TSK_FS_NAME_TYPE_DIR = 3). *)
Lemma isDotDir_accepts_non_directory_witness :
  @isDir tsk_headers (Some (fs_entry "." 5 TSK_FS_NAME_FLAG_ALLOC)) = 0 /\
  @isDotDir tsk_headers (Some (fs_entry "." 5 TSK_FS_NAME_FLAG_ALLOC)) "/" = 1.
Proof.
  apply (isDotDir_accepts_non_directory (hdr := tsk_headers) 5 TSK_FS_NAME_FLAG_ALLOC "/").
  - discriminate.
  - discriminate.
Defined.

(** * Further properties of the session and of the walkers *)

Section SessionProperties.
Context {hdr : TskHeaders} {Ext : Type} {lib : TskLib Ext} {hooks : TskAutoHooks Ext}.

(** Without an image, [closeImage] does nothing at all. *)
Lemma closeImage_nothing_held (w : World Ext) :
  m_img_info (self (mach w)) = None -> closeImage w = (tt, w).
Proof.
  intros H. unfold closeImage, bind, member. rewrite H. reflexivity.
Qed.

(** X1: [closeImage] is idempotent and releases the handle once.  With an
    image held it makes the one call [tsk_img_close] on that image and leaves
    the machine as that call left it, with no image held; a second
    [closeImage] then changes nothing and calls nothing, as on any session
    that holds no image. *)
Theorem closeImage_idempotent (w : World Ext) :
  (forall img u m1,
     m_img_info (self (mach w)) = Some img ->
     tsk_img_close img (mach w) = (u, m1) ->
     closeImage w
     = (tt, {| mach := hold_image None m1; log := log w ++ [EvImgClose img] |}) /\
     closeImage {| mach := hold_image None m1; log := log w ++ [EvImgClose img] |}
     = (tt, {| mach := hold_image None m1; log := log w ++ [EvImgClose img] |})) /\
  (m_img_info (self (mach w)) = None -> closeImage w = (tt, w)).
Proof.
  split; [|apply closeImage_nothing_held].
  intros img u m1 Himg Hclose. split.
  - unfold closeImage, bind, member. rewrite Himg.
    rewrite (call_run (tsk_img_close img) (fun _ => EvImgClose img) w u m1 Hclose).
    reflexivity.
  - apply closeImage_nothing_held. reflexivity.
Qed.

(** X2: the destructor releases the image the session holds exactly once:
    it makes the one call [tsk_img_close] on it and leaves the outside state
    as that call left it; on a session that holds no image it calls nothing
    and leaves the outside state as it was.  After an explicit [closeImage]
    the destructor does not close again: [tsk_img_close] is called once in
    all. *)
Theorem destructor_releases_image_once (w : World Ext) :
  (forall img u m1,
     m_img_info (self (mach w)) = Some img ->
     tsk_img_close img (mach w) = (u, m1) ->
     TskAuto_delete w
     = {| left_errno := tsk_errno m1; left_verbose := tsk_verbose m1;
          left_ext := ext m1; left_log := log w ++ [EvImgClose img] |} /\
     TskAuto_delete (snd (closeImage w))
     = {| left_errno := tsk_errno m1; left_verbose := tsk_verbose m1;
          left_ext := ext m1; left_log := log w ++ [EvImgClose img] |}) /\
  (m_img_info (self (mach w)) = None ->
   TskAuto_delete w
   = {| left_errno := tsk_errno (mach w); left_verbose := tsk_verbose (mach w);
        left_ext := ext (mach w); left_log := log w |}).
Proof.
  assert (Hnone : forall x : World Ext,
             m_img_info (self (mach x)) = None ->
             TskAuto_delete x
             = {| left_errno := tsk_errno (mach x); left_verbose := tsk_verbose (mach x);
                  left_ext := ext (mach x); left_log := log x |}).
  { intros x Hx. unfold TskAuto_delete, bind.
    rewrite (closeImage_nothing_held x Hx). reflexivity. }
  split; [|apply Hnone].
  intros img u m1 Himg Hclose.
  assert (Hrun : closeImage w
                 = (tt, {| mach := hold_image None m1;
                           log := log w ++ [EvImgClose img] |})).
  { unfold closeImage, bind, member. rewrite Himg.
    rewrite (call_run (tsk_img_close img) (fun _ => EvImgClose img) w u m1 Hclose).
    reflexivity. }
  split.
  - unfold TskAuto_delete, bind. rewrite Hrun. reflexivity.
  - rewrite Hrun. cbn [snd]. rewrite Hnone; reflexivity.
Qed.

(** X3: every handle [openImage] obtains is released by the next
    [closeImage].  On a session that holds no image, when [tsk_img_open]
    answers with a handle, [openImage] returns 0 and the [closeImage] that
    follows makes the one call [tsk_img_close] on that handle and leaves the
    machine as that call left it, with no image held; when [tsk_img_open]
    refuses, [openImage] returns 1 and the [closeImage] that follows does
    nothing. *)
Theorem openImage_then_closeImage (a_numImg : Z) (a_images : list string)
    (a_imgType a_sSize : Z) (w : World Ext) :
  m_img_info (self (mach w)) = None ->
  (forall img m2 u m3,
     tsk_img_open a_numImg a_images a_imgType a_sSize (mach w) = (Some img, m2) ->
     tsk_img_close img (hold_image (Some img) m2) = (u, m3) ->
     fst (openImage a_numImg a_images a_imgType a_sSize w) = 0 /\
     closeImage (snd (openImage a_numImg a_images a_imgType a_sSize w))
     = (tt, {| mach := hold_image None m3;
               log := log w ++
                      [EvImgOpen a_numImg a_images a_imgType a_sSize (Some img);
                       EvImgClose img] |})) /\
  (forall m2,
     tsk_img_open a_numImg a_images a_imgType a_sSize (mach w) = (None, m2) ->
     fst (openImage a_numImg a_images a_imgType a_sSize w) = 1 /\
     closeImage (snd (openImage a_numImg a_images a_imgType a_sSize w))
     = (tt, {| mach := hold_image None m2;
               log := log w ++
                      [EvImgOpen a_numImg a_images a_imgType a_sSize None] |})).
Proof.
  intros Himg.
  assert (Hrun : forall r m2,
             tsk_img_open a_numImg a_images a_imgType a_sSize (mach w) = (r, m2) ->
             openImage a_numImg a_images a_imgType a_sSize w
             = (match r with Some _ => 0 | None => 1 end,
                {| mach := hold_image r m2;
                   log := log w ++
                          [EvImgOpen a_numImg a_images a_imgType a_sSize r] |})).
  { intros r m2 Hopen. unfold openImage, bind, member. rewrite Himg. cbn beta iota.
    unfold ret at 1.
    rewrite (call_run (tsk_img_open a_numImg a_images a_imgType a_sSize)
               (EvImgOpen a_numImg a_images a_imgType a_sSize) w r m2 Hopen).
    unfold set_m_img_info, update_self. cbn [mach log self].
    destruct r; reflexivity. }
  split.
  - intros img m2 u m3 Hopen Hclose. rewrite (Hrun _ _ Hopen). cbn [fst snd].
    split; [reflexivity|].
    unfold closeImage, bind, member. cbn [mach self hold_image m_img_info].
    rewrite (call_run (tsk_img_close img) (fun _ => EvImgClose img)
               {| mach := hold_image (Some img) m2;
                  log := log w ++
                         [EvImgOpen a_numImg a_images a_imgType a_sSize (Some img)] |}
               u m3 Hclose).
    cbn. rewrite <- app_assoc. reflexivity.
  - intros m2 Hopen. rewrite (Hrun _ _ Hopen). cbn [fst snd].
    split; [reflexivity|].
    apply closeImage_nothing_held. reflexivity.
Qed.

(** X4: without an open image every walker fails at once: each entry point
    returns its error value and leaves the state and the call log untouched
    (no probe, no filter, no hook). *)
Theorem walkers_need_an_open_image (a_start a_inum : Z) (w : World Ext) :
  m_img_info (self (mach w)) = None ->
  findFilesInImg w = (1, w) /\
  findFilesInVs a_start w = (1, w) /\
  findFilesInFsRet a_start w = (TSK_ERR, w) /\
  findFilesInFs a_start w = (1, w) /\
  findFilesInFs_inum a_start a_inum w = (1, w).
Proof.
  intros H.
  assert (Hret : findFilesInFsRet a_start w = (TSK_ERR, w)).
  { unfold findFilesInFsRet, bind, member. rewrite H. reflexivity. }
  repeat split.
  - unfold findFilesInImg, bind, member. rewrite H. reflexivity.
  - unfold findFilesInVs, bind, member. rewrite H. reflexivity.
  - exact Hret.
  - unfold findFilesInFs, bind. rewrite Hret. reflexivity.
  - unfold findFilesInFs_inum, bind, member. rewrite H. reflexivity.
Qed.

(** X5: when no file system opens at [a_start], the file-system entry points
    report the error after exactly two calls, the failed open and the print
    of the error: no filter is asked, nothing is walked, nothing is closed,
    and the error slot keeps what the failed open stored in it. *)
Theorem fs_walk_open_failure (a_start a_inum : Z) (img : TSK_IMG_INFO)
    (w : World Ext) (m1 : Machine Ext) :
  m_img_info (self (mach w)) = Some img ->
  tsk_fs_open_img img a_start TSK_FS_TYPE_DETECT (mach w) = (None, m1) ->
  let w' := {| mach := m1;
               log := log w ++ [EvFsOpenImg img a_start TSK_FS_TYPE_DETECT None;
                                EvErrorPrint (tsk_errno m1)] |} in
  findFilesInFsRet a_start w = (TSK_ERR, w') /\
  findFilesInFs a_start w = (1, w') /\
  findFilesInFs_inum a_start a_inum w = (1, w').
Proof.
  intros Himg Hopen w'.
  assert (Hret : findFilesInFsRet a_start w = (TSK_ERR, w')).
  { unfold findFilesInFsRet, bind, member, fs_open. rewrite Himg.
    rewrite (call_run _ _ _ _ _ Hopen).
    unfold tsk_error_print, emit. cbn. subst w'. rewrite <- app_assoc. reflexivity. }
  split; [exact Hret|]. split.
  - unfold findFilesInFs, bind. rewrite Hret. reflexivity.
  - unfold findFilesInFs_inum, bind, member, fs_open. rewrite Himg.
    rewrite (call_run _ _ _ _ _ Hopen).
    unfold tsk_error_print, emit. cbn. subst w'. rewrite <- app_assoc. reflexivity.
Qed.

(** What [findFilesInFsInt] can return, by the verdict of [filterFs]. *)
Lemma findFilesInFsInt_result (fs : TSK_FS_INFO) (a_inum : Z) (w : World Ext) :
  match fst (filterFs fs (mach w)) with
  | TSK_FILTER_STOP => fst (findFilesInFsInt fs a_inum w) = TSK_STOP
  | TSK_FILTER_SKIP => fst (findFilesInFsInt fs a_inum w) = TSK_OK
  | TSK_FILTER_CONT =>
      fst (findFilesInFsInt fs a_inum w) = TSK_OK \/
      fst (findFilesInFsInt fs a_inum w) = TSK_ERR
  end.
Proof.
  unfold findFilesInFsInt, bind, call, member.
  destruct (filterFs fs (mach w)) as [v m1]. cbn [fst].
  destruct v; cbn; try reflexivity.
  match goal with
  | |- context [tsk_fs_dir_walk ?a ?b ?c ?d ?x] =>
      destruct (tsk_fs_dir_walk a b c d x) as [r w3]
  end.
  cbn. destruct (r =? 0); cbn; auto.
Qed.

(** X6: the file-system walkers turn a stop into TSK_STOP only for the
    file-system filter.  [findFilesInFsInt] returns TSK_STOP exactly when
    [filterFs] answered TSK_FILTER_STOP; once the filter admits the file
    system the result is TSK_OK or TSK_ERR, never TSK_STOP, whatever
    [processFile] answered during the walk.  Neither walker ever returns
    TSK_COR. *)
Theorem fs_walk_stop_only_from_filter (fs : TSK_FS_INFO) (a_start a_inum : Z)
    (w : World Ext) :
  (fst (findFilesInFsInt fs a_inum w) = TSK_STOP <->
   fst (filterFs fs (mach w)) = TSK_FILTER_STOP) /\
  (fst (filterFs fs (mach w)) = TSK_FILTER_CONT ->
   fst (findFilesInFsInt fs a_inum w) = TSK_OK \/
   fst (findFilesInFsInt fs a_inum w) = TSK_ERR) /\
  fst (findFilesInFsInt fs a_inum w) <> TSK_COR /\
  fst (findFilesInFsRet a_start w) <> TSK_COR.
Proof.
  pose proof (findFilesInFsInt_result fs a_inum w) as H.
  split; [|split; [|split]].
  - destruct (fst (filterFs fs (mach w))); split; intros E;
      try reflexivity; try discriminate; try congruence;
      destruct H as [H|H]; congruence.
  - intros E. rewrite E in H. exact H.
  - destruct (fst (filterFs fs (mach w))); try congruence.
    destruct H as [H|H]; congruence.
  - unfold findFilesInFsRet, bind, member.
    destruct (m_img_info (self (mach w))) as [img|]; [|discriminate].
    destruct (fs_open img a_start w) as [[fs'|] w1]; cbn.
    + pose proof (findFilesInFsInt_result fs' (root_inum fs') w1) as H'.
      destruct (findFilesInFsInt fs' (root_inum fs') w1) as [r w2]. cbn in *.
      destruct (fs_close fs' w2) as [u w3]. cbn.
      destruct (fst (filterFs fs' (mach w1))); try congruence.
      destruct H' as [H'|H']; congruence.
    + discriminate.
Qed.

(** X7: [vsWalkCb] never answers TSK_WALK_ERROR, so it never makes the
    partition walk fail; [dirWalkCb] answers TSK_WALK_ERROR only on a session
    with a valid tag whose [processFile] returned TSK_ERR or TSK_COR. *)
Theorem callbacks_error_signal (a_vs_info : TSK_VS_INFO)
    (a_vs_part : TSK_VS_PART_INFO) (f : TSK_FS_FILE) (path : string)
    (w : World Ext) :
  fst (vsWalkCb a_vs_info a_vs_part w) <> TSK_WALK_ERROR /\
  (fst (dirWalkCb f path w) = TSK_WALK_ERROR ->
   m_tag (self (mach w)) = TSK_AUTO_TAG /\
   (fst (processFile f path (mach w)) = TSK_ERR \/
    fst (processFile f path (mach w)) = TSK_COR)).
Proof.
  split.
  - unfold vsWalkCb, bind, member.
    destruct (negb (m_tag (self (mach w)) =? TSK_AUTO_TAG)); [discriminate|].
    destruct (vol_filter a_vs_part w) as [v w1].
    destruct v; try discriminate.
    destruct (findFilesInFsRet (part_offset a_vs_part) w1) as [r w2].
    destruct r; discriminate.
  - unfold dirWalkCb, bind, member, call.
    destruct (Z.eqb_spec (m_tag (self (mach w))) TSK_AUTO_TAG) as [Htag|Htag];
      cbn; [|discriminate].
    destruct (processFile f path (mach w)) as [r m1]. cbn.
    destruct r; cbn; intros E; try discriminate; auto.
Qed.

(** X8: an admitted partition that holds no file system.  [vsWalkCb] asks
    the filter, tries to open a file system at the byte offset of the
    partition, prints the error, clears the error slot and answers
    TSK_WALK_CONT: these four calls and no other, and nothing is closed. *)
Theorem vsWalkCb_partition_without_fs (a_vs_info : TSK_VS_INFO)
    (a_vs_part : TSK_VS_PART_INFO) (img : TSK_IMG_INFO) (w : World Ext)
    (m1 m2 : Machine Ext) :
  m_tag (self (mach w)) = TSK_AUTO_TAG ->
  filterVol a_vs_part (mach w) = (TSK_FILTER_CONT, m1) ->
  m_img_info (self m1) = Some img ->
  tsk_fs_open_img img (part_offset a_vs_part) TSK_FS_TYPE_DETECT m1 = (None, m2) ->
  vsWalkCb a_vs_info a_vs_part w
  = (TSK_WALK_CONT,
     {| mach := {| self := self m2; tsk_errno := 0;
                   tsk_verbose := tsk_verbose m2; ext := ext m2 |};
        log := log w ++
               [EvFilterVol a_vs_part TSK_FILTER_CONT;
                EvFsOpenImg img (part_offset a_vs_part) TSK_FS_TYPE_DETECT None;
                EvErrorPrint (tsk_errno m2);
                EvErrorReset] |}).
Proof.
  intros Htag Hfilter Himg Hopen.
  unfold vsWalkCb, bind, member, vol_filter.
  apply Z.eqb_eq in Htag. rewrite Htag. cbn [negb].
  rewrite (call_run _ _ _ _ _ Hfilter).
  unfold findFilesInFsRet, bind, member, fs_open. cbn [mach log]. rewrite Himg.
  unfold call. cbn [mach log]. rewrite Hopen.
  unfold tsk_error_print, tsk_error_reset, emit, ret. cbn.
  rewrite <- !app_assoc. reflexivity.
Qed.

(** X9: the byte offset handed to the file-system walker always fits
    [TSK_OFF_T], agrees with [start * block_size] modulo 2^64, and is that
    product itself whenever the product is below 2^63. *)
Theorem part_offset_bounds (a_vs_part : TSK_VS_PART_INFO) :
  - 2 ^ 63 <= part_offset a_vs_part < 2 ^ 63 /\
  (part_offset a_vs_part - start a_vs_part * block_size (vs a_vs_part)) mod 2 ^ 64 = 0 /\
  (0 <= start a_vs_part * block_size (vs a_vs_part) < 2 ^ 63 ->
   part_offset a_vs_part = start a_vs_part * block_size (vs a_vs_part)).
Proof.
  unfold part_offset, to_off, wrap64, two64.
  set (p := start a_vs_part * block_size (vs a_vs_part)).
  pose proof (Z.mod_pos_bound p (2 ^ 64) ltac:(lia)) as Hb.
  assert (H63 : 2 ^ 64 = 2 * 2 ^ 63) by reflexivity.
  split; [|split].
  - destruct (Z.ltb_spec (p mod 2 ^ 64) (2 ^ 63)); lia.
  - destruct (Z.ltb_spec (p mod 2 ^ 64) (2 ^ 63)).
    + rewrite Zminus_mod, Z.mod_mod, Z.sub_diag by lia. reflexivity.
    + replace (p mod 2 ^ 64 - 2 ^ 64 - p) with (p mod 2 ^ 64 - p + (-1) * 2 ^ 64) by lia.
      rewrite Z.mod_add by lia.
      rewrite Zminus_mod, Z.mod_mod, Z.sub_diag by lia. reflexivity.
  - intros Hp. rewrite Z.mod_small by lia.
    destruct (Z.ltb_spec p (2 ^ 63)); lia.
Qed.

(** [findFilesInFs] returns 0 or 1. *)
Lemma findFilesInFs_binary (a_start : Z) (w : World Ext) :
  fst (findFilesInFs a_start w) = 0 \/ fst (findFilesInFs a_start w) = 1.
Proof.
  unfold findFilesInFs, bind.
  destruct (findFilesInFsRet a_start w) as [r w1]. destruct r; cbn; auto.
Qed.

(** X10: with a volume system at [a_start], [findFilesInVs] walks the
    partitions 0 .. part_count-1 under the current partition filter flags,
    never falls back to a file-system walk at [a_start], closes the volume
    system after the walk whether the walk failed or not, and returns 1
    exactly when the walk returned non-zero.  For a volume system that
    reports no partition the last index handed to the walk is 2^32-1. *)
Theorem findFilesInVs_closes_volume_system (a_start : Z) (img : TSK_IMG_INFO)
    (v : TSK_VS_INFO) (w w1 w3 : World Ext) (r : Z) :
  m_img_info (self (mach w)) = Some img ->
  vs_open img a_start w = (Some v, w1) ->
  tsk_vs_part_walk v 0 (wrap32 (part_count v - 1))
    (m_volFilterFlags (self (mach w1))) vsWalkCb
    {| mach := mach w1;
       log := log w1 ++ [EvVsPartWalk v 0 (wrap32 (part_count v - 1))
                           (m_volFilterFlags (self (mach w1)))] |}
  = (r, w3) ->
  (r = 0 -> fst (findFilesInVs a_start w) = 0) /\
  (r <> 0 -> fst (findFilesInVs a_start w) = 1) /\
  mach (snd (findFilesInVs a_start w)) = snd (tsk_vs_close v (mach w3)) /\
  log (snd (findFilesInVs a_start w)) = log w3 ++ [EvVsPartWalkRet r; EvVsClose v] /\
  (1 <= part_count v <= 2 ^ 32 -> wrap32 (part_count v - 1) = part_count v - 1) /\
  (part_count v = 0 -> wrap32 (part_count v - 1) = 4294967295).
Proof.
  intros Himg Hvs Hwalk.
  assert (Hrun : findFilesInVs a_start w
                 = ((if r =? 0 then 0 else 1),
                    {| mach := snd (tsk_vs_close v (mach w3));
                       log := log w3 ++ [EvVsPartWalkRet r; EvVsClose v] |})).
  { unfold findFilesInVs, bind, member. rewrite Himg, Hvs.
    unfold emit at 1. cbn [mach log]. rewrite Hwalk.
    unfold emit, call, ret.
    destruct (r =? 0); cbn;
      destruct (tsk_vs_close v (mach w3)) as [u m4]; cbn;
      rewrite <- app_assoc; reflexivity. }
  rewrite Hrun. cbn [fst snd mach log].
  split; [intros ->; reflexivity|].
  split; [intros Hr; apply Z.eqb_neq in Hr; rewrite Hr; reflexivity|].
  split; [reflexivity|]. split; [reflexivity|].
  unfold wrap32, two32. split.
  - intros Hc. apply Z.mod_small. lia.
  - intros ->. reflexivity.
Qed.

(** X11: on an image without a volume system, [findFilesInImg] is the
    file-system walk at offset 0, started after the error of the failed probe
    was cleared: it returns what [findFilesInFs 0] returns, leaves the state
    that walk leaves, and only adds a print of the error slot when the walk
    failed. *)
Theorem findFilesInImg_unpartitioned (img : TSK_IMG_INFO) (w w1 : World Ext) :
  m_img_info (self (mach w)) = Some img ->
  vs_open img 0 w = (None, w1) ->
  let w2 := snd (tsk_error_reset (snd (note_trying_fs w1))) in
  fst (findFilesInImg w) = fst (findFilesInFs 0 w2) /\
  (fst (findFilesInFs 0 w2) = 0 ->
   snd (findFilesInImg w) = snd (findFilesInFs 0 w2)) /\
  (fst (findFilesInFs 0 w2) <> 0 ->
   snd (findFilesInImg w) = snd (tsk_error_print (snd (findFilesInFs 0 w2)))).
Proof.
  intros Himg Hvs w2.
  assert (Hrun : findFilesInImg w
                 = if fst (findFilesInFs 0 w2) =? 0
                   then (0, snd (findFilesInFs 0 w2))
                   else (1, snd (tsk_error_print (snd (findFilesInFs 0 w2))))).
  { unfold findFilesInImg, findFilesInVs, bind, member. rewrite Himg.
    cbn beta iota. rewrite Himg, Hvs. subst w2.
    destruct (note_trying_fs w1) as [u1 x1]. cbn [snd].
    destruct (tsk_error_reset x1) as [u2 x2]. cbn [snd].
    pose proof (findFilesInFs_binary 0 x2) as Hb.
    destruct (findFilesInFs 0 x2) as [r x3]. cbn [fst snd] in *.
    destruct Hb as [-> | ->]; reflexivity. }
  rewrite Hrun.
  pose proof (findFilesInFs_binary 0 w2) as [E | E]; rewrite E; cbn.
  - repeat split; intros; congruence.
  - repeat split; intros; congruence.
Qed.

(** X12: the entry points documented as "1 on error, 0 on success" return
    nothing else, whatever the library and the virtual methods do. *)
Theorem entry_points_return_0_or_1 (a_numImg : Z) (a_images : list string)
    (a_imgType a_sSize a_start a_inum : Z) (w : World Ext) :
  (fst (openImage a_numImg a_images a_imgType a_sSize w) = 0 \/
   fst (openImage a_numImg a_images a_imgType a_sSize w) = 1) /\
  (fst (findFilesInImg w) = 0 \/ fst (findFilesInImg w) = 1) /\
  (fst (findFilesInVs a_start w) = 0 \/ fst (findFilesInVs a_start w) = 1) /\
  (fst (findFilesInFs a_start w) = 0 \/ fst (findFilesInFs a_start w) = 1) /\
  (fst (findFilesInFs_inum a_start a_inum w) = 0 \/
   fst (findFilesInFs_inum a_start a_inum w) = 1).
Proof.
  assert (Hvs : forall a x, fst (findFilesInVs a x) = 0 \/ fst (findFilesInVs a x) = 1).
  { intros a x. unfold findFilesInVs, bind, member.
    destruct (m_img_info (self (mach x))) as [img|]; [|cbn; auto].
    destruct (vs_open img a x) as [[v|] x1].
    - destruct (emit _ x1) as [u x2].
      destruct (tsk_vs_part_walk _ _ _ _ _ x2) as [r x3].
      destruct (emit (EvVsPartWalkRet r) x3) as [u' x4].
      destruct (r =? 0); cbn;
        destruct (call (tsk_vs_close v) (fun _ => EvVsClose v) x4); cbn; auto.
    - destruct (note_trying_fs x1) as [u1 y1].
      destruct (tsk_error_reset y1) as [u2 y2].
      destruct (findFilesInFs a y2) as [r y3].
      destruct (r =? 0); cbn; auto. }
  split; [|split; [|split; [|split]]].
  - unfold openImage, bind, member.
    destruct (match m_img_info (self (mach w)) with
              | Some _ => closeImage
              | None => ret tt
              end w) as [u x1].
    destruct (call _ _ x1) as [r x2]. destruct r; cbn; auto.
  - unfold findFilesInImg, bind, member.
    destruct (m_img_info (self (mach w))); [|cbn; auto].
    destruct (findFilesInVs 0 w) as [r x1].
    destruct (r =? 0); cbn; auto.
  - apply Hvs.
  - apply findFilesInFs_binary.
  - unfold findFilesInFs_inum, bind, member.
    destruct (m_img_info (self (mach w))) as [img|]; [|cbn; auto].
    destruct (fs_open img a_start w) as [[fs|] x1]; [|cbn; auto].
    destruct (findFilesInFsInt fs a_inum x1) as [r x2].
    destruct (fs_close fs x2) as [u x3]. destruct r; cbn; auto.
Qed.

(** X13: whatever [setFileFilterFlags] was given, the directory walk of an
    admitted file system is started with flags that contain every bit of
    TSK_FS_DIR_WALK_FLAG_RECURSE beside the bits that were set; the result is
    TSK_OK when the walk returns 0 and TSK_ERR, after a print of the error,
    when it returns anything else. *)
Theorem dir_walk_flags_include_recurse (fs : TSK_FS_INFO)
    (a_inum file_flags : Z) (w : World Ext) (m1 : Machine Ext) :
  filterFs fs (mach (snd (setFileFilterFlags file_flags w))) = (TSK_FILTER_CONT, m1) ->
  m_fileFilterFlags (self m1) = file_flags ->
  let flags := Z.lor TSK_FS_DIR_WALK_FLAG_RECURSE file_flags in
  Z.land flags TSK_FS_DIR_WALK_FLAG_RECURSE = TSK_FS_DIR_WALK_FLAG_RECURSE /\
  Z.land flags file_flags = file_flags /\
  forall r w3,
    tsk_fs_dir_walk fs a_inum flags dirWalkCb
      {| mach := m1;
         log := log w ++ [EvFilterFs fs TSK_FILTER_CONT;
                          EvFsDirWalk fs a_inum flags] |} = (r, w3) ->
    (r = 0 ->
     findFilesInFsInt fs a_inum (snd (setFileFilterFlags file_flags w))
     = (TSK_OK, {| mach := mach w3; log := log w3 ++ [EvFsDirWalkRet 0] |})) /\
    (r <> 0 ->
     findFilesInFsInt fs a_inum (snd (setFileFilterFlags file_flags w))
     = (TSK_ERR,
        {| mach := mach w3;
           log := log w3 ++ [EvFsDirWalkRet r; EvErrorPrint (tsk_errno (mach w3))] |})).
Proof.
  intros Hfilter Hflags flags.
  split; [|split].
  - subst flags. apply Z.bits_inj'. intros n Hn.
    rewrite Z.land_spec, Z.lor_spec.
    destruct (Z.testbit TSK_FS_DIR_WALK_FLAG_RECURSE n), (Z.testbit file_flags n);
      reflexivity.
  - subst flags. apply Z.bits_inj'. intros n Hn.
    rewrite Z.land_spec, Z.lor_spec.
    destruct (Z.testbit TSK_FS_DIR_WALK_FLAG_RECURSE n), (Z.testbit file_flags n);
      reflexivity.
  - intros r w3 Hwalk.
    assert (Hrun : findFilesInFsInt fs a_inum (snd (setFileFilterFlags file_flags w))
                   = if negb (r =? 0)
                     then (TSK_ERR,
                           {| mach := mach w3;
                              log := log w3 ++ [EvFsDirWalkRet r;
                                                EvErrorPrint (tsk_errno (mach w3))] |})
                     else (TSK_OK,
                           {| mach := mach w3; log := log w3 ++ [EvFsDirWalkRet r] |})).
    { unfold findFilesInFsInt, bind, member.
      rewrite (call_run _ _ _ _ _ Hfilter). cbn [mach log self].
      rewrite Hflags. fold flags.
      unfold emit at 1. cbn [mach log].
      replace ((log (snd (setFileFilterFlags file_flags w))
                  ++ [EvFilterFs fs TSK_FILTER_CONT]) ++ [EvFsDirWalk fs a_inum flags])
        with (log w ++ [EvFilterFs fs TSK_FILTER_CONT; EvFsDirWalk fs a_inum flags])
        by (cbn; rewrite <- app_assoc; reflexivity).
      rewrite Hwalk. unfold emit, tsk_error_print, ret. cbn [mach log].
      destruct (r =? 0); cbn; [reflexivity|].
      unfold emit. cbn. rewrite <- app_assoc. reflexivity. }
    rewrite Hrun. split.
    + intros ->. reflexivity.
    + intros Hr. apply Z.eqb_neq in Hr. rewrite Hr. reflexivity.
Qed.

(** X14: for a file on which the library reports no attribute, or a negative
    count, [processAttributes] returns TSK_OK after the one call that asks
    for the count: [processAttribute] is not called and no attribute is
    fetched. *)
Theorem processAttributes_no_attributes (f : TSK_FS_FILE) (path : string)
    (w : World Ext) (count : Z) (m1 : Machine Ext) :
  tsk_fs_file_attr_getsize f (mach w) = (count, m1) ->
  count <= 0 ->
  processAttributes f path w
  = (TSK_OK, {| mach := m1; log := log w ++ [EvAttrGetsize f count] |}).
Proof.
  intros Hsize Hc. unfold processAttributes, bind.
  rewrite (call_run _ _ _ _ _ Hsize).
  replace (Z.to_nat count) with O by lia. reflexivity.
Qed.

(** The indices in the log entries of a run that starts at [i] and has at
    most [c - i] steps are all below [c]. *)
Lemma attr_events_in_range (f : TSK_FS_FILE) (path : string) (c : Z)
    (steps : list AttrStep) :
  forall i : Z,
    0 <= i ->
    i + Z.of_nat (List.length steps) <= c ->
    existsb (attr_index_out_of_range c) (attr_events f path i steps) = false.
Proof.
  induction steps as [|[a r] rest IH]; intros i Hi Hlen.
  - reflexivity.
  - cbn [attr_events existsb attr_index_out_of_range].
    cbn [List.length] in Hlen.
    rewrite IH by lia.
    replace (0 <=? i) with true by (symmetry; apply Z.leb_le; lia).
    replace (i <? c) with true by (symmetry; apply Z.ltb_lt; lia).
    reflexivity.
Qed.

(** X15: [processAttributes] never asks the library for an attribute outside
    the range it was told: every call of [tsk_fs_file_attr_get_idx] it makes
    has an index [i] with 0 <= i < count. *)
Theorem processAttributes_indices_in_range (f : TSK_FS_FILE) (path : string)
    (w : World Ext) (count : Z) (m1 : Machine Ext) :
  tsk_fs_file_attr_getsize f (mach w) = (count, m1) ->
  exists calls : list Event,
    log (snd (processAttributes f path w)) = log w ++ calls /\
    existsb (attr_index_out_of_range count) calls = false.
Proof.
  intros Hsize. unfold processAttributes, bind.
  rewrite (call_run _ _ _ _ _ Hsize).
  set (w1 := {| mach := m1; log := log w ++ [EvAttrGetsize f count] |}).
  destruct (attr_loop_steps f path (Z.to_nat count) 0 w1)
    as (steps & _ & Hlog & Hlen & _).
  exists (EvAttrGetsize f count :: attr_events f path 0 steps). split.
  - rewrite Hlog. subst w1. cbn. rewrite <- app_assoc. reflexivity.
  - cbn [existsb attr_index_out_of_range orb].
    destruct steps as [|s rest]; [reflexivity|].
    apply attr_events_in_range; [lia|].
    cbn [List.length] in *. lia.
Qed.

(** X16: a session is usable from its construction: the callbacks accept it
    (the constructor stores the sentinel, so [dirWalkCb] goes on to call
    [processFile]), no walker runs on it before an image is opened, and
    closing or destroying it without ever opening an image calls nothing. *)
Theorem fresh_session_valid_but_closed (f : TSK_FS_FILE) (path : string)
    (w : World Ext) (r : TSK_RETVAL_ENUM) (m1 : Machine Ext) :
  self (mach w) = TskAuto_new ->
  processFile f path (mach w) = (r, m1) ->
  snd (dirWalkCb f path w)
    = {| mach := m1; log := log w ++ [EvProcessFile f path r] |} /\
  findFilesInImg w = (1, w) /\
  closeImage w = (tt, w) /\
  TskAuto_delete w
  = {| left_errno := tsk_errno (mach w); left_verbose := tsk_verbose (mach w);
       left_ext := ext (mach w); left_log := log w |}.
Proof.
  intros Hnew Hhook.
  assert (Himg : m_img_info (self (mach w)) = None) by (rewrite Hnew; reflexivity).
  assert (Htag : m_tag (self (mach w)) = TSK_AUTO_TAG) by (rewrite Hnew; reflexivity).
  split; [|split; [|split]].
  - unfold dirWalkCb, bind, member. apply Z.eqb_eq in Htag. rewrite Htag. cbn [negb].
    rewrite (call_run _ _ _ _ _ Hhook). destruct r; reflexivity.
  - unfold findFilesInImg, bind, member. rewrite Himg. reflexivity.
  - apply closeImage_nothing_held, Himg.
  - unfold TskAuto_delete, bind. rewrite (closeImage_nothing_held w Himg). reflexivity.
Qed.

End SessionProperties.

(** * Further properties of the predicate utilities *)

Section PredicateProperties.
Context {hdr : TskHeaders} {mac : TskFsMacros}.

(** X17: [isDir] and [isFile] never both answer 1 on the same entry (the two
    type constants being different), and each answers 1 only on an entry with
    a name structure. *)
Theorem isDir_isFile_exclusive (a_fs_file : option TSK_FS_FILE) :
  TSK_FS_NAME_TYPE_DIR <> TSK_FS_NAME_TYPE_REG ->
  (isDir a_fs_file = 1 -> isFile a_fs_file = 0) /\
  (isFile a_fs_file = 1 -> isDir a_fs_file = 0) /\
  (isDir a_fs_file = 1 \/ isFile a_fs_file = 1 ->
   exists f n, a_fs_file = Some f /\ FsFile.name f = Some n).
Proof.
  intros Hne. unfold isDir, isFile.
  destruct a_fs_file as [f|].
  - destruct (FsFile.name f) as [n|] eqn:Hn.
    + split; [|split].
      * destruct (Z.eqb_spec (FsName.type n) TSK_FS_NAME_TYPE_DIR) as [Hd|Hd];
          destruct (Z.eqb_spec (FsName.type n) TSK_FS_NAME_TYPE_REG) as [Hr|Hr];
          intros; congruence.
      * destruct (Z.eqb_spec (FsName.type n) TSK_FS_NAME_TYPE_DIR) as [Hd|Hd];
          destruct (Z.eqb_spec (FsName.type n) TSK_FS_NAME_TYPE_REG) as [Hr|Hr];
          intros; congruence.
      * intros _. exists f, n. split; [reflexivity|exact Hn].
    + split; [discriminate|]. split; [discriminate|].
      intros [H|H]; discriminate.
  - split; [discriminate|]. split; [discriminate|].
    intros [H|H]; discriminate.
Qed.

(** X18: two utilities read through a pointer they did not test.
    [isFATSystemFiles] reads the name structure of every file of a FAT file
    system, so it has no defined result exactly on a file with a file-system
    handle of the FAT family and no name structure; [isDefaultType] reads the
    attribute whenever the file and its file-system handle are set, so it has
    no defined result exactly when these are given with a null attribute.
    Outside these cases both return 0 or 1. *)
Theorem unchecked_pointer_reads (a_fs_file : option TSK_FS_FILE)
    (a_fs_attr : option TSK_FS_ATTR) :
  (isFATSystemFiles a_fs_file = None <->
   exists f fs, a_fs_file = Some f /\ FsFile.fs_info f = Some fs /\
                TSK_FS_TYPE_ISFAT (ftype fs) = true /\ FsFile.name f = None) /\
  (isDefaultType a_fs_file a_fs_attr = None <->
   exists f fs, a_fs_file = Some f /\ FsFile.fs_info f = Some fs /\
                a_fs_attr = None) /\
  (isFATSystemFiles a_fs_file = None \/ isFATSystemFiles a_fs_file = Some 0 \/
   isFATSystemFiles a_fs_file = Some 1) /\
  (isDefaultType a_fs_file a_fs_attr = None \/
   isDefaultType a_fs_file a_fs_attr = Some 0 \/
   isDefaultType a_fs_file a_fs_attr = Some 1).
Proof.
  unfold isFATSystemFiles, isDefaultType.
  destruct a_fs_file as [f|].
  2:{ repeat split; intros; try discriminate; auto.
      - destruct H as (f & fs & H & _). discriminate.
      - destruct H as (f & fs & H & _). discriminate. }
  destruct (FsFile.fs_info f) as [fs|] eqn:Hfs.
  2:{ repeat split; intros; try discriminate; auto.
      - destruct H as (f' & fs & H1 & H2 & _). inversion H1; subst. congruence.
      - destruct H as (f' & fs & H1 & H2 & _). inversion H1; subst. congruence. }
  split; [|split; [|split]].
  - destruct (TSK_FS_TYPE_ISFAT (ftype fs)) eqn:Hfat.
    + destruct (FsFile.name f) as [n|] eqn:Hn.
      * split.
        -- destruct (_ || _); discriminate.
        -- intros (f' & fs' & H1 & _ & _ & H4). inversion H1; subst. congruence.
      * split; [|reflexivity]. intros _. exists f, fs. auto.
    + split; [discriminate|].
      intros (f' & fs' & H1 & H2 & H3 & _). inversion H1; subst.
      rewrite Hfs in H2. inversion H2; subst. congruence.
  - destruct a_fs_attr as [a|].
    + split.
      * destruct (_ =? _); discriminate.
      * intros (f' & fs' & _ & _ & H). discriminate.
    + split; [|reflexivity]. intros _. exists f, fs. auto.
  - destruct (TSK_FS_TYPE_ISFAT (ftype fs)); auto.
    destruct (FsFile.name f); auto. destruct (_ || _); auto.
  - destruct a_fs_attr; auto. destruct (_ =? _); auto.
Qed.

(** X19: [isNonResident] tests one bit.  When TSK_FS_ATTR_NONRES is the
    single bit [k], the answer on an attribute is 1 exactly when bit [k] of
    its flags is set, whatever the other bits; on a null attribute it is 0. *)
Theorem isNonResident_tests_the_bit (k : Z) (a : TSK_FS_ATTR) :
  0 <= k ->
  TSK_FS_ATTR_NONRES = 2 ^ k ->
  isNonResident None = 0 /\
  (isNonResident (Some a) = 1 <-> Z.testbit (attr_flags a) k = true) /\
  (isNonResident (Some a) = 0 <-> Z.testbit (attr_flags a) k = false).
Proof.
  intros Hk Hbit. unfold isNonResident. rewrite Hbit.
  assert (Hland : Z.land (attr_flags a) (2 ^ k)
                  = if Z.testbit (attr_flags a) k then 2 ^ k else 0).
  { apply Z.bits_inj'. intros n Hn.
    rewrite Z.land_spec, Z.pow2_bits_eqb by lia.
    destruct (Z.eqb_spec k n) as [->|Hkn].
    - destruct (Z.testbit (attr_flags a) n); cbn.
      + rewrite Z.pow2_bits_eqb, Z.eqb_refl by lia. reflexivity.
      + rewrite Z.bits_0. reflexivity.
    - rewrite andb_false_r.
      destruct (Z.testbit (attr_flags a) k).
      + rewrite Z.pow2_bits_eqb by lia.
        symmetry. apply Z.eqb_neq. exact Hkn.
      + rewrite Z.bits_0. reflexivity. }
  rewrite Hland.
  assert (Hpos : 0 < 2 ^ k) by (apply Z.pow_pos_nonneg; lia).
  split; [reflexivity|].
  destruct (Z.testbit (attr_flags a) k).
  - replace (2 ^ k =? 0) with false by (symmetry; apply Z.eqb_neq; lia).
    split; split; intros; congruence.
  - cbn. split; split; intros; congruence.
Qed.

(** X20: [isNtfsSystemFiles] answers 1 exactly on a file of an NTFS file
    system whose name begins with a dollar sign and whose metadata address is
    below 20; the rest of the name, the type of the entry and the path play
    no part. *)
Theorem isNtfsSystemFiles_iff (f : TSK_FS_FILE) (path : string) :
  isNtfsSystemFiles (Some f) path = 1 <->
  exists fs n rest,
    FsFile.fs_info f = Some fs /\ TSK_FS_TYPE_ISNTFS (ftype fs) = true /\
    FsFile.name f = Some n /\ FsName.name n = String "$" rest /\
    FsName.meta_addr n < 20.
Proof.
  unfold isNtfsSystemFiles.
  destruct (FsFile.fs_info f) as [fs|].
  2:{ split; [discriminate|]. intros (fs & n & rest & H & _). discriminate. }
  destruct (TSK_FS_TYPE_ISNTFS (ftype fs)) eqn:Hntfs.
  2:{ split; [discriminate|].
      intros (fs' & n & rest & H1 & H2 & _). inversion H1; subst. congruence. }
  destruct (FsFile.name f) as [n|].
  2:{ split; [discriminate|].
      intros (fs' & n & rest & _ & _ & H & _). discriminate. }
  destruct n as [nm sz ma ty fl]. cbn.
  split.
  - intros H.
    destruct (Ascii.eqb (char_at nm 0) "$") eqn:Hc; [|discriminate].
    destruct (Z.ltb_spec ma 20) as [Hlt|Hge]; [|discriminate].
    apply Ascii.eqb_eq in Hc. unfold char_at in Hc.
    destruct nm as [|c rest]; cbn in Hc; [discriminate|].
    subst c. exists fs, (FsName.mk (String "$" rest) sz ma ty fl), rest.
    auto.
  - intros (fs' & n' & rest & H1 & _ & H3 & H4 & H5).
    inversion H3; subst. cbn in *. subst nm. cbn.
    replace (ma <? 20) with true by (symmetry; apply Z.ltb_lt; lia).
    reflexivity.
Qed.

(** X22: on an entry with a well-formed name, [isDotDir] answers 0 or 1 and
    decides by the name and the name flags alone: 0 when the flags share no
    bit with TSK_FS_NAME_TYPE_DIR; otherwise 1 when the name is "." or ".."
    and 0 for every other name, whatever follows the terminator in the
    buffer. *)
Theorem isDotDir_by_name (f : TSK_FS_FILE) (n : TSK_FS_NAME) (path : string) :
  FsFile.name f = Some n ->
  wf_name n ->
  (isDotDir (Some f) path = 0 \/ isDotDir (Some f) path = 1) /\
  (Z.land (FsName.flags n) TSK_FS_NAME_TYPE_DIR = 0 -> isDotDir (Some f) path = 0) /\
  (Z.land (FsName.flags n) TSK_FS_NAME_TYPE_DIR <> 0 ->
   c_str (FsName.name n) = "."%string \/ c_str (FsName.name n) = ".."%string ->
   isDotDir (Some f) path = 1) /\
  (c_str (FsName.name n) <> "."%string ->
   c_str (FsName.name n) <> ".."%string ->
   isDotDir (Some f) path = 0).
Proof.
  intros Hname Hwf.
  pose proof (isDotDir_tests_name_flags f n path Hname Hwf) as Hiff.
  assert (Hrange : isDotDir (Some f) path = 0 \/ isDotDir (Some f) path = 1).
  { unfold isDotDir. rewrite Hname.
    destruct (_ =? 0); auto. destruct (_ && _); auto. }
  split; [exact Hrange|]. split; [|split].
  - intros Hz. destruct Hrange as [H|H]; [exact H|].
    apply Hiff in H. destruct H as [H _]. contradiction.
  - intros Hnz Hdot. apply Hiff. split; assumption.
  - intros H1 H2. destruct Hrange as [H|H]; [exact H|].
    apply Hiff in H. destruct H as [_ [H|H]]; contradiction.
Qed.

End PredicateProperties.

Lemma closeImage_idempotent_witness :
  @closeImage Script demo_lib (demo_open_world demo_ok_script)
  = (tt, {| mach := mach (demo_world None demo_tag demo_ok_script);
            log := [EvImgClose demo_img] |}) /\
  @closeImage Script demo_lib
    {| mach := mach (demo_world None demo_tag demo_ok_script);
       log := [EvImgClose demo_img] |}
  = (tt, {| mach := mach (demo_world None demo_tag demo_ok_script);
            log := [EvImgClose demo_img] |}).
Proof.
  destruct (closeImage_idempotent (lib := demo_lib) (demo_open_world demo_ok_script))
    as (H & _).
  exact (H demo_img tt _ eq_refl eq_refl).
Defined.

Lemma destructor_releases_image_once_witness :
  demo_delete (demo_open_world demo_ok_script)
  = {| left_errno := 0; left_verbose := 0; left_ext := demo_ok_script;
       left_log := [EvImgClose demo_img] |} /\
  demo_delete (demo_world None demo_tag demo_ok_script)
  = {| left_errno := 0; left_verbose := 0; left_ext := demo_ok_script;
       left_log := [] |}.
Proof.
  split.
  - destruct (destructor_releases_image_once (lib := demo_lib)
                (demo_open_world demo_ok_script)) as (H & _).
    destruct (H demo_img tt _ eq_refl eq_refl) as (H1 & _). exact H1.
  - destruct (destructor_releases_image_once (lib := demo_lib)
                (demo_world None demo_tag demo_ok_script)) as (_ & H).
    exact (H eq_refl).
Defined.

Lemma openImage_then_closeImage_witness :
  @closeImage Script demo_lib
    (snd (demo_openImage 1 ["disk.dd"%string] 0 0
            (demo_world None demo_tag demo_ok_script)))
  = (tt, {| mach := mach (demo_world None demo_tag demo_ok_script);
            log := [EvImgOpen 1 ["disk.dd"%string] 0 0 (Some demo_img);
                    EvImgClose demo_img] |}).
Proof.
  destruct (openImage_then_closeImage (lib := demo_lib) 1 ["disk.dd"%string] 0 0
              (demo_world None demo_tag demo_ok_script) eq_refl) as (H & _).
  destruct (H demo_img _ tt _ eq_refl eq_refl) as (_ & Hclose). exact Hclose.
Defined.

Lemma walkers_need_an_open_image_witness :
  @findFilesInImg tsk_headers Script demo_lib demo_hooks
    (demo_world None demo_tag demo_ok_script)
  = (1, demo_world None demo_tag demo_ok_script).
Proof.
  destruct (walkers_need_an_open_image (hdr := tsk_headers) (lib := demo_lib)
              (hooks := demo_hooks) 0 2
              (demo_world None demo_tag demo_ok_script) eq_refl) as (H & _).
  exact H.
Defined.

(** No file system lies at offset 512 of the image. *)
Lemma fs_walk_open_failure_witness :
  demo_findFilesInFs 512 (demo_open_world demo_ok_script)
  = (1,
     {| mach := set_errno 0x08000001 (mach (demo_open_world demo_ok_script));
        log := [EvFsOpenImg demo_img 512 0 None; EvErrorPrint 0x08000001] |}).
Proof.
  destruct (fs_walk_open_failure (hdr := tsk_headers) (lib := demo_lib)
              (hooks := demo_hooks) 512 2 demo_img
              (demo_open_world demo_ok_script) _ eq_refl eq_refl) as (_ & H & _).
  exact H.
Defined.

(** A tool that stops at the first file: the walk of the file system is
    still reported as TSK_OK. *)
Lemma fs_walk_stop_only_from_filter_witness :
  fst (demo_findFilesInFsInt demo_fs 2
         (demo_open_world (demo_script TSK_FILTER_CONT TSK_FILTER_CONT TSK_STOP [])))
  <> TSK_STOP /\
  fst (demo_findFilesInFsInt demo_fs 2
         (demo_open_world (demo_script TSK_FILTER_CONT TSK_FILTER_STOP TSK_OK [])))
  = TSK_STOP.
Proof.
  split.
  - destruct (fs_walk_stop_only_from_filter (hdr := tsk_headers) (lib := demo_lib)
                (hooks := demo_hooks) demo_fs 0 2
                (demo_open_world
                   (demo_script TSK_FILTER_CONT TSK_FILTER_CONT TSK_STOP [])))
      as (H & _).
    intros E. apply H in E. discriminate.
  - destruct (fs_walk_stop_only_from_filter (hdr := tsk_headers) (lib := demo_lib)
                (hooks := demo_hooks) demo_fs 0 2
                (demo_open_world
                   (demo_script TSK_FILTER_CONT TSK_FILTER_STOP TSK_OK [])))
      as (H & _).
    apply H. reflexivity.
Defined.

Lemma callbacks_error_signal_witness :
  fst (demo_vsWalkCb demo_vs demo_part0 (demo_open_world demo_ok_script))
  <> TSK_WALK_ERROR.
Proof.
  destruct (callbacks_error_signal (hdr := tsk_headers) (lib := demo_lib)
              (hooks := demo_hooks) demo_vs demo_part0 (fs_entry "a.txt" 5 1) "/"
              (demo_open_world demo_ok_script)) as (H & _).
  exact H.
Defined.

Lemma vsWalkCb_partition_without_fs_witness :
  demo_vsWalkCb demo_vs demo_part0 (demo_open_world demo_ok_script)
  = (TSK_WALK_CONT,
     {| mach := mach (demo_open_world demo_ok_script);
        log := [EvFilterVol demo_part0 TSK_FILTER_CONT;
                EvFsOpenImg demo_img 32256 0 None;
                EvErrorPrint 0x08000001;
                EvErrorReset] |}).
Proof.
  exact (vsWalkCb_partition_without_fs (hdr := tsk_headers) (lib := demo_lib)
           (hooks := demo_hooks) demo_vs demo_part0 demo_img
           (demo_open_world demo_ok_script) _ _ eq_refl eq_refl eq_refl eq_refl).
Defined.

Lemma part_offset_bounds_witness :
  part_offset demo_part1 = 1048576 /\
  part_offset {| vs := demo_vs; start := 2 ^ 55; len := 1; part_flags := 1 |} = 0.
Proof.
  split.
  - destruct (part_offset_bounds demo_part1) as (_ & _ & H).
    rewrite H; [reflexivity|]. cbn. lia.
  - reflexivity.
Defined.

Lemma findFilesInVs_closes_volume_system_witness :
  fst (demo_findFilesInVs 0 (demo_open_world demo_ok_script)) = 0 /\
  exists calls,
    log (snd (demo_findFilesInVs 0 (demo_open_world demo_ok_script)))
    = calls ++ [EvVsPartWalkRet 0; EvVsClose demo_vs].
Proof.
  edestruct (findFilesInVs_closes_volume_system (hdr := tsk_headers) (lib := demo_lib)
               (hooks := demo_hooks) 0 demo_img demo_vs
               (demo_open_world demo_ok_script)) as (H0 & _ & _ & Hlog & _).
  - reflexivity.
  - vm_compute. reflexivity.
  - vm_compute. reflexivity.
  - split; [exact (H0 eq_refl)|].
    eexists. exact Hlog.
Defined.

Lemma findFilesInImg_unpartitioned_witness :
  @findFilesInImg tsk_headers Script demo_bare_lib demo_hooks
    (demo_open_world demo_ok_script)
  = @findFilesInFs tsk_headers Script demo_bare_lib demo_hooks 0
      (snd (tsk_error_reset
              (snd (@vs_open tsk_headers Script demo_bare_lib demo_img 0
                      (demo_open_world demo_ok_script))))).
Proof.
  destruct (findFilesInImg_unpartitioned (hdr := tsk_headers) (lib := demo_bare_lib)
              (hooks := demo_hooks) demo_img (demo_open_world demo_ok_script)
              _ eq_refl eq_refl) as (Hres & Hok & _).
  apply injective_projections.
  - exact Hres.
  - apply Hok. reflexivity.
Defined.

Lemma dir_walk_flags_include_recurse_witness :
  Z.land (Z.lor 4 3) 4 = 4 /\
  fst (demo_findFilesInFsInt demo_fs 2
         (snd (@setFileFilterFlags Script 3 (demo_open_world demo_ok_script))))
  = TSK_OK.
Proof.
  destruct (dir_walk_flags_include_recurse (hdr := tsk_headers) (lib := demo_lib)
              (hooks := demo_hooks) demo_fs 2 3 (demo_open_world demo_ok_script)
              _ eq_refl eq_refl) as (Hbits & _ & Hrun).
  split; [exact Hbits|].
  destruct (Hrun 0 _ eq_refl) as (H & _).
  unfold demo_findFilesInFsInt. rewrite (H eq_refl). reflexivity.
Defined.

Lemma processAttributes_no_attributes_witness :
  @processAttributes Script demo_bare_lib demo_hooks (fs_entry "a.txt" 5 1) "/"
    (demo_open_world demo_ok_script)
  = (TSK_OK,
     {| mach := set_errno 0x08000003 (mach (demo_open_world demo_ok_script));
        log := [EvAttrGetsize (fs_entry "a.txt" 5 1) (-1)] |}).
Proof.
  apply (processAttributes_no_attributes (lib := demo_bare_lib) (hooks := demo_hooks)
           (fs_entry "a.txt" 5 1) "/" (demo_open_world demo_ok_script) (-1) _ eq_refl).
  discriminate.
Defined.

Lemma processAttributes_indices_in_range_witness :
  exists calls : list Event,
    log (snd (demo_processAttributes (fs_entry "a.txt" 5 1) "/"
                (demo_open_world demo_ok_script))) = calls /\
    existsb (attr_index_out_of_range 3) calls = false.
Proof.
  destruct (processAttributes_indices_in_range (lib := demo_lib) (hooks := demo_hooks)
              (fs_entry "a.txt" 5 1) "/" (demo_open_world demo_ok_script) 3 _ eq_refl)
    as (calls & Hlog & Hrange).
  exists calls. split; [exact Hlog|exact Hrange].
Defined.

Lemma fresh_session_valid_but_closed_witness :
  @findFilesInImg tsk_headers Script demo_lib demo_hooks
    {| mach := {| self := @TskAuto_new tsk_headers; tsk_errno := 0;
                  tsk_verbose := 0; ext := demo_ok_script |};
       log := [] |}
  = (1, {| mach := {| self := @TskAuto_new tsk_headers; tsk_errno := 0;
                      tsk_verbose := 0; ext := demo_ok_script |};
           log := [] |}).
Proof.
  destruct (fresh_session_valid_but_closed (hdr := tsk_headers) (lib := demo_lib)
              (hooks := demo_hooks) (fs_entry "a.txt" 5 1) "/"
              {| mach := {| self := @TskAuto_new tsk_headers; tsk_errno := 0;
                            tsk_verbose := 0; ext := demo_ok_script |};
                 log := [] |} TSK_OK _ eq_refl eq_refl) as (_ & H & _).
  exact H.
Defined.

Lemma isDir_isFile_exclusive_witness :
  @isDir tsk_headers (Some (fs_entry "docs" 3 1)) = 1 /\
  @isFile tsk_headers (Some (fs_entry "docs" 3 1)) = 0.
Proof.
  split; [reflexivity|].
  destruct (isDir_isFile_exclusive (hdr := tsk_headers) (Some (fs_entry "docs" 3 1)))
    as (H & _); [discriminate|].
  apply H. reflexivity.
Defined.

(** An entry of a FAT file system that comes without a name structure. *)
Lemma unchecked_pointer_reads_witness :
  @isFATSystemFiles tsk_fs_macros
    (Some (FsFile.mk None (Some {| fs_offset := 0; ftype := 4; root_inum := 2 |})))
  = None.
Proof.
  destruct (unchecked_pointer_reads (mac := tsk_fs_macros)
              (Some (FsFile.mk None (Some {| fs_offset := 0; ftype := 4; root_inum := 2 |})))
              None) as (H & _).
  apply H. do 2 eexists. repeat split; reflexivity.
Defined.

Lemma isNonResident_tests_the_bit_witness :
  @isNonResident tsk_fs_macros (Some {| attr_type := 128; attr_flags := 3 |}) = 1 /\
  @isNonResident tsk_fs_macros (Some {| attr_type := 128; attr_flags := 5 |}) = 0.
Proof.
  split.
  - destruct (isNonResident_tests_the_bit (mac := tsk_fs_macros) 1
                {| attr_type := 128; attr_flags := 3 |}) as (_ & H & _);
      [lia|reflexivity|].
    apply H. reflexivity.
  - destruct (isNonResident_tests_the_bit (mac := tsk_fs_macros) 1
                {| attr_type := 128; attr_flags := 5 |}) as (_ & _ & H);
      [lia|reflexivity|].
    apply H. reflexivity.
Defined.

Lemma isDotDir_by_name_witness :
  @isDotDir tsk_headers (Some (fs_entry ".." 3 1)) "/" = 1 /\
  @isDotDir tsk_headers (Some (fs_entry "..." 3 1)) "/" = 0.
Proof.
  split.
  - destruct (isDotDir_by_name (hdr := tsk_headers) (fs_entry ".." 3 1) _ "/" eq_refl)
      as (_ & _ & H & _).
    + split; reflexivity.
    + apply H; [discriminate|right; reflexivity].
  - destruct (isDotDir_by_name (hdr := tsk_headers) (fs_entry "..." 3 1) _ "/" eq_refl)
      as (_ & _ & _ & H).
    + split; reflexivity.
    + apply H; discriminate.
Defined.

(** * Properties of the container extraction *)

Import L01.

Section ContainerProperties.
Context {D : Type} {srv : Services D} {plat : Platform}.

Lemma appended_refl (s : State D) : appended s s [].
Proof.
  unfold appended. rewrite app_nil_r. destruct s as [[a b c d] e t]. auto.
Qed.

Lemma appended_trans (s s1 s2 : State D) (a b : list ArchivedFile) :
  appended s s1 a -> appended s1 s2 b -> appended s s2 (a ++ b).
Proof.
  unfold appended. intros (H1 & H2 & H3) (H4 & H5 & H6).
  rewrite H4, H1, H5, H2, H6, H3. cbn. rewrite app_assoc. auto.
Qed.

Lemma thrown_by_incl (seen seen' : list EwfEntry) (x : Exn) :
  incl seen seen' -> thrown_by seen x -> thrown_by seen' x.
Proof.
  intros Hincl [H|(what & e & Hx & Hin & Hdata)]; [left; exact H|].
  right. exists what, e. auto.
Qed.

(** Building the record of an entry reads libewf and changes nothing; it
    fails with a [TskException], or with the [std::bad_alloc] of the
    allocation for the content of the entry. *)
Lemma fileInfo_of_reads_only (e : EwfEntry) (s : State D) :
  snd (fileInfo_of e s) = s /\
  match fst (fileInfo_of e s) with
  | Normal fi => entry fi = e
  | Thrown x => thrown_by [e] x
  end.
Proof.
  unfold fileInfo_of, getName, getFileType, getFileSize, getFileData, bind, ret, throw,
    thrown_by.
  destruct (utf8_name e); cbn; [|eauto].
  destruct (entry_type e); cbn; [|eauto].
  destruct (entry_flags e); cbn; [|eauto].
  destruct (entry_size e) as [esz|]; cbn; [|eauto].
  destruct (0 <? to_size_t _); cbn; [|auto].
  destruct (file_data e) as [what| |b] eqn:Hdata; cbn; eauto.
  split; [reflexivity|]. right. exists what, e. cbn. auto.
Qed.

Lemma traverse_unfold (nm : Answer string) (ty fl : option Z) (sz : Answer Z)
    (buf : FileData) (num : Z) (subs : list (option EwfEntry)) :
  traverse (D := D) (EwfNode nm ty fl sz buf num subs)
  = (fileInfo <- fileInfo_of (EwfNode nm ty fl sz buf num subs) ;;
     push_back fileInfo ;;
     if 0 <? num then traverse_subs traverse num 0 subs else ret tt).
Proof. reflexivity. Qed.

Lemma traverse_appends_run (e : EwfEntry) (s : State D) :
  exists added : list ArchivedFile,
    appended s (snd (traverse e s)) added /\
    (forall x, fst (traverse e s) = Thrown x -> thrown_by (visited e) x) /\
    (fst (traverse e s) = Normal tt ->
     exists fi rest, added = fi :: rest /\ entry fi = e).
Proof.
  revert s.
  apply (entry_ind
           (fun e => forall s : State D, exists added,
              appended s (snd (traverse e s)) added /\
              (forall x, fst (traverse e s) = Thrown x -> thrown_by (visited e) x) /\
              (fst (traverse e s) = Normal tt ->
               exists fi rest, added = fi :: rest /\ entry fi = e))
           (fun rest => forall (num i : Z) (s : State D), exists added,
              appended s (snd (traverse_subs traverse num i rest s)) added /\
              (forall x, fst (traverse_subs traverse num i rest s) = Thrown x ->
                         thrown_by (visited_subs visited num i rest) x))).
  - intros nm ty fl sz buf num subs IH s.
    rewrite traverse_unfold. unfold bind, push_back, update_this.
    pose proof (fileInfo_of_reads_only (EwfNode nm ty fl sz buf num subs) s) as [Hs Hr].
    destruct (fileInfo_of (EwfNode nm ty fl sz buf num subs) s) as [[fi|x] s0];
      cbn [fst snd] in *; subst s0.
    + set (s1 := {| this := _; services := services s; trace := trace s |}).
      assert (H1 : appended s s1 [fi]) by (subst s1; unfold appended; cbn; auto).
      cbn [visited].
      destruct (0 <? num).
      * destruct (IH num 0 s1) as (added & Happ & Hthrow).
        exists ([fi] ++ added). split; [|split].
        -- eapply appended_trans; eassumption.
        -- intros x E. eapply thrown_by_incl; [|exact (Hthrow x E)].
           apply incl_tl, incl_refl.
        -- intros _. exists fi, added. auto.
      * exists [fi]. cbn [ret fst snd]. split; [exact H1|]. split.
        -- intros x E. discriminate.
        -- intros _. exists fi, []. auto.
    + exists []. split; [apply appended_refl|]. split.
      * intros y E. inversion E; subst.
        eapply thrown_by_incl; [|exact Hr].
        cbn [visited]. intros a [Ha|[]]. left. exact Ha.
      * intros E. discriminate.
  - intros num i s. cbn [traverse_subs].
    destruct (i <? num); cbn; exists []; (split; [apply appended_refl|]);
      intros x E; inversion E; left; eauto.
  - intros rest IH num i s. cbn [traverse_subs].
    destruct (i <? num); cbn; exists []; (split; [apply appended_refl|]);
      intros x E; inversion E; left; eauto.
  - intros child rest IHc IHr num i s. cbn [traverse_subs visited_subs].
    destruct (i <? num).
    + unfold bind.
      destruct (IHc s) as (a1 & Happ1 & Hthrow1 & _).
      destruct (traverse child s) as [[u|x] s1]; cbn [fst snd] in *.
      * destruct (IHr num (i + 1) s1) as (a2 & Happ2 & Hthrow2).
        exists (a1 ++ a2). split; [eapply appended_trans; eassumption|].
        intros x E. eapply thrown_by_incl; [|exact (Hthrow2 x E)].
        apply incl_appr, incl_refl.
      * exists a1. split; [exact Happ1|].
        intros y E. inversion E; subst.
        eapply thrown_by_incl; [|exact (Hthrow1 y eq_refl)].
        apply incl_appl, incl_refl.
    + exists []. split; [apply appended_refl|]. intros x E. discriminate.
Qed.

(** X23: [traverse] only appends to [m_archivedFiles]: whether it returns or
    throws, the records the list held stay where they were, the three other
    data members and the services are untouched and no service is called.
    It throws nothing but a [TskException] or the [std::bad_alloc] of an
    allocation that failed on an entry it visits, and when it returns, the
    first record it appended is the one of the entry it was called on. *)
Theorem traverse_only_appends (e : EwfEntry) (s : State D) :
  exists added : list ArchivedFile,
    this (snd (traverse e s))
    = {| m_img_info := m_img_info (this s);
         m_ewfInfo := m_ewfInfo (this s);
         m_containerFilename := m_containerFilename (this s);
         m_archivedFiles := m_archivedFiles (this s) ++ added |} /\
    services (snd (traverse e s)) = services s /\
    trace (snd (traverse e s)) = trace s /\
    (forall x,
       fst (traverse e s) = Thrown x ->
       (exists m, x = TskException m) \/
       (exists what e',
          x = StdException what /\ In e' (visited e) /\
          file_data e' = NoMemory what)) /\
    (fst (traverse e s) = Normal tt ->
     exists fi rest, added = fi :: rest /\ entry fi = e).
Proof.
  destruct (traverse_appends_run e s) as (added & (Hthis & Hsrv & Htrace) & Hthrow & Hfirst).
  exists added. split; [exact Hthis|]. split; [exact Hsrv|]. split; [exact Htrace|].
  split; [exact Hthrow|exact Hfirst].
Qed.

Lemma fileInfo_of_readable (e : EwfEntry) (s : State D) :
  readable e = true -> fileInfo_of e s = (Normal (archived e), s).
Proof.
  destruct e as [nm ty fl sz buf num subs]. cbn [readable].
  destruct nm as [n|]; [|discriminate].
  destruct ty as [t|]; [|discriminate].
  destruct fl as [f|]; [|discriminate].
  destruct sz as [esz|]; [|discriminate].
  intros H. apply andb_prop in H. destruct H as [Hbuf _].
  unfold fileInfo_of, getName, getFileType, getFileSize, getFileData, bind, ret.
  cbn [utf8_name entry_type entry_flags entry_size file_data archived].
  destruct (0 <? to_size_t (esz mod 2 ^ 64)).
  - destruct buf; try discriminate. reflexivity.
  - destruct buf; reflexivity.
Qed.

Lemma traverse_readable_run (e : EwfEntry) :
  forall s : State D,
    readable e = true ->
    fst (traverse e s) = Normal tt /\
    appended s (snd (traverse e s)) (map archived (visited e)).
Proof.
  apply (entry_ind
           (fun e => forall s : State D, readable e = true ->
              fst (traverse e s) = Normal tt /\
              appended s (snd (traverse e s)) (map archived (visited e)))
           (fun rest => forall (num i : Z) (s : State D),
              readable_subs readable num i rest = true ->
              fst (traverse_subs traverse num i rest s) = Normal tt /\
              appended s (snd (traverse_subs traverse num i rest s))
                (map archived (visited_subs visited num i rest)))).
  - intros nm ty fl sz buf num subs IH s Hr.
    rewrite traverse_unfold. unfold bind, push_back, update_this.
    rewrite (fileInfo_of_readable _ s Hr).
    set (s1 := {| this := _; services := services s; trace := trace s |}).
    assert (H1 : appended s s1 [archived (EwfNode nm ty fl sz buf num subs)])
      by (subst s1; unfold appended; cbn; auto).
    cbn [readable] in Hr.
    destruct nm, ty, fl, sz; try discriminate.
    apply andb_prop in Hr. destruct Hr as [_ Hsubs].
    cbn [visited map].
    destruct (0 <? num).
    + destruct (IH num 0 s1 Hsubs) as [Hn Happ]. split; [exact Hn|].
      exact (appended_trans _ _ _ _ _ H1 Happ).
    + cbn [ret fst snd]. split; [reflexivity|exact H1].
  - intros num i s Hr. cbn [traverse_subs readable_subs visited_subs] in *.
    destruct (i <? num); [discriminate|].
    cbn. split; [reflexivity|apply appended_refl].
  - intros rest IH num i s Hr. cbn [traverse_subs readable_subs visited_subs] in *.
    destruct (i <? num); [discriminate|].
    cbn. split; [reflexivity|apply appended_refl].
  - intros child rest IHc IHr num i s Hr.
    cbn [traverse_subs readable_subs visited_subs] in *.
    destruct (i <? num).
    + apply andb_prop in Hr. destruct Hr as [Hc Hrest].
      unfold bind. destruct (IHc s Hc) as [Hn1 Happ1].
      destruct (traverse child s) as [[u|x] s1]; cbn [fst snd] in *; [|discriminate].
      destruct (IHr num (i + 1) s1 Hrest) as [Hn2 Happ2].
      split; [exact Hn2|]. rewrite map_app.
      exact (appended_trans _ _ _ _ _ Happ1 Happ2).
    + cbn. split; [reflexivity|apply appended_refl].
Qed.

(** X24: on a tree that libewf serves without error and whose contents are
    all allocated and read, [traverse] returns and appends exactly one record
    per entry it visits, the parent before its sub entries and these in index
    order (only the sub entries of index below the reported number are
    visited).  An entry whose size is 0 as a [size_t] gets no buffer; any
    other gets the array that was allocated and filled for it. *)
Theorem traverse_readable_tree (e : EwfEntry) (s : State D) :
  readable e = true ->
  fst (traverse e s) = Normal tt /\
  appended s (snd (traverse e s)) (map archived (visited e)) /\
  (to_size_t (size (archived e)) <= 0 -> dataBuf (archived e) = None) /\
  (0 < to_size_t (size (archived e)) ->
   exists b, file_data e = Filled b /\ dataBuf (archived e) = Some b).
Proof.
  intros Hr. destruct (traverse_readable_run e s Hr) as [H1 H2].
  split; [exact H1|]. split; [exact H2|].
  destruct e as [nm ty fl sz buf num subs]. cbn [readable] in Hr.
  destruct nm as [n|]; [|discriminate].
  destruct ty as [t|]; [|discriminate].
  destruct fl as [f|]; [|discriminate].
  destruct sz as [esz|]; [|discriminate].
  apply andb_prop in Hr. destruct Hr as [Hbuf _].
  cbn [archived size dataBuf file_data].
  destruct (Z.ltb_spec 0 (to_size_t (esz mod 2 ^ 64))) as [Hpos|Hzero].
  - split; [lia|]. intros _. destruct buf as [what| |b]; try discriminate.
    exists b. auto.
  - split; [|lia]. intros _. destruct buf; reflexivity.
Qed.

(** The body of the extraction loop leaves the object as it is. *)
Lemma extract_one_this (it : ArchivedFile) (s : State D) :
  this (snd (extract_one it s)) = this s.
Proof.
  unfold extract_one, saveFile, bind, call, emit, ret, throw.
  destruct (type it =? 102); [|reflexivity].
  destruct (path_at _ _); [|reflexivity]. cbn.
  destruct (addDerivedFileInfo _ _ _ _ _ _ _) as [[r fid] d]. cbn.
  destruct (r =? -1); cbn; destruct (dataBuf it); cbn; try reflexivity.
  all: destruct (addFile _ _ _ _) as [[|text] d']; reflexivity.
Qed.

Lemma extract_loop_this (files : list ArchivedFile) :
  forall s : State D, this (snd (extract_loop files s)) = this s.
Proof.
  induction files as [|it rest IH]; intros s; [reflexivity|].
  cbn [extract_loop]. unfold bind.
  pose proof (extract_one_this it s) as H1.
  destruct (extract_one it s) as [[u|x] s1]; cbn [snd] in *.
  - rewrite IH. exact H1.
  - exact H1.
Qed.

Lemma extract_one_trace (it : ArchivedFile) (s : State D) :
  exists calls, trace (snd (extract_one it s)) = trace s ++ calls.
Proof.
  unfold extract_one, saveFile, bind, call, emit, ret, throw.
  destruct (type it =? 102); [|exists []; cbn; rewrite app_nil_r; reflexivity].
  destruct (path_at _ _); [|exists []; cbn; rewrite app_nil_r; reflexivity]. cbn.
  destruct (addDerivedFileInfo _ _ _ _ _ _ _) as [[r fid] d]. cbn.
  destruct (r =? -1); cbn; destruct (dataBuf it); cbn.
  all: try (destruct (addFile _ _ _ _) as [[|text] d']; cbn).
  all: rewrite <- ?app_assoc; eexists; reflexivity.
Qed.

Lemma extract_loop_trace (files : list ArchivedFile) :
  forall s : State D,
  exists calls, trace (snd (extract_loop files s)) = trace s ++ calls.
Proof.
  induction files as [|it rest IH]; intros s.
  - exists []. cbn. rewrite app_nil_r. reflexivity.
  - cbn [extract_loop]. unfold bind.
    destruct (extract_one_trace it s) as (c1 & H1).
    destruct (extract_one it s) as [[u|x] s1]; cbn [snd] in *.
    + destruct (IH s1) as (c2 & H2). exists (c1 ++ c2).
      rewrite H2, H1, app_assoc. reflexivity.
    + exists c1. exact H1.
Qed.

(** [extractFiles] returns 0 or -1, keeps the object and only adds to the
    trace. *)
Lemma extractFiles_frame (s : State D) :
  (fst (extractFiles s) = Normal 0 \/ fst (extractFiles s) = Normal (-1)) /\
  this (snd (extractFiles s)) = this s /\
  exists calls, trace (snd (extractFiles s)) = trace s ++ calls.
Proof.
  unfold extractFiles, try_catch, bind, member.
  destruct (m_img_info (this s)) as [img|]; cbn.
  - pose proof (extract_loop_this (m_archivedFiles (this s)) s) as Hthis.
    destruct (extract_loop_trace (m_archivedFiles (this s)) s) as (calls & Htrace).
    destruct (extract_loop (m_archivedFiles (this s)) s) as [[u|x] s1];
      cbn [fst snd] in *.
    + split; [left; reflexivity|]. split; [exact Hthis|]. exists calls. exact Htrace.
    + split; [right; reflexivity|]. split; [exact Hthis|].
      eexists. rewrite Htrace, <- app_assoc. reflexivity.
  - split; [right; reflexivity|]. split; [reflexivity|]. eexists. reflexivity.
Qed.

(** X25: [extractFiles] never lets an exception out and never changes the
    object: it returns 0 or -1 and every data member is as before.  Without
    an open image it returns -1 after logging the error, and calls neither
    the image database nor the file manager. *)
Theorem extractFiles_contains_failures (s : State D) :
  (fst (extractFiles s) = Normal 0 \/ fst (extractFiles s) = Normal (-1)) /\
  this (snd (extractFiles s)) = this s /\
  (m_img_info (this s) = None ->
   extractFiles s
   = (Normal (-1),
      {| this := this s; services := services s;
         trace := trace s ++
           [EvLogError
              (catch_message "TskL01Extract::extractFiles : "
                 (TskException
                    "TskL01Extract::extractFiles: Images not open yet"))] |})).
Proof.
  unfold extractFiles, try_catch, bind, member.
  destruct (m_img_info (this s)) as [img|]; cbn.
  - pose proof (extract_loop_this (m_archivedFiles (this s)) s) as Hthis.
    destruct (extract_loop (m_archivedFiles (this s)) s) as [[u|x] s1];
      cbn [fst snd] in *.
    + split; [left; reflexivity|]. split; [exact Hthis|discriminate].
    + split; [right; reflexivity|]. split; [exact Hthis|discriminate].
  - split; [right; reflexivity|]. split; reflexivity.
Qed.

Lemma extract_loop_other_types (files : list ArchivedFile) :
  forall s : State D,
    Forall (fun it => type it <> 102) files ->
    extract_loop files s = (Normal tt, s).
Proof.
  induction files as [|it rest IH]; intros s Hall; [reflexivity|].
  inversion Hall as [|? ? Hit Hrest]; subst.
  cbn [extract_loop]. unfold bind, extract_one.
  apply Z.eqb_neq in Hit. rewrite Hit. cbn. apply IH, Hrest.
Qed.

(** X26: only the records of type 'f' (102) are extracted: when no record
    in the list has this type, [extractFiles] on an open image returns 0 and
    does nothing at all, whatever names, sizes and buffers the records
    carry. *)
Theorem extractFiles_ignores_other_types (s : State D) (img : EwfImage) :
  m_img_info (this s) = Some img ->
  Forall (fun it => type it <> 102) (m_archivedFiles (this s)) ->
  extractFiles s = (Normal 0, s).
Proof.
  intros Himg Hall. unfold extractFiles, try_catch, bind, member.
  rewrite Himg. cbn. rewrite (extract_loop_other_types _ s Hall). reflexivity.
Qed.

(** The name [extractFiles] registers for a record, when [Poco::Path] yields
    one. *)
Lemma extract_one_without_buffer (it : ArchivedFile) (s : State D) :
  dataBuf it = None ->
  (type it = 102 ->
   path_at (name it)
     (if path_isDirectory (name it) then path_depth (name it) - 1
      else path_depth (name it)) <> None) ->
  fst (extract_one it s) = Normal tt /\
  exists calls,
    trace (snd (extract_one it s)) = trace s ++ calls /\
    existsb is_add_file calls = false /\
    List.length (filter is_service_call calls)
    = if type it =? 102 then 1%nat else 0%nat.
Proof.
  intros Hbuf Hpath. unfold extract_one.
  destruct (Z.eqb_spec (type it) 102) as [Hty|Hty].
  2:{ split; [reflexivity|]. exists []. cbn. rewrite app_nil_r. auto. }
  specialize (Hpath Hty).
  destruct (path_at _ _) as [nm|]; [|contradiction].
  unfold bind, call, emit, ret. cbn. rewrite Hbuf.
  destruct (addDerivedFileInfo _ _ _ _ _ _ _) as [[r fid] d]. cbn.
  destruct (r =? -1); cbn.
  - split; [reflexivity|]. eexists. split.
    + rewrite <- app_assoc. reflexivity.
    + split; reflexivity.
  - split; [reflexivity|]. eexists. split; [reflexivity|]. split; reflexivity.
Qed.

(** X27: records without a buffer (the entries of size 0) are registered
    with the image database but never handed to the file manager, and a
    registration the database refuses does not make the extraction fail:
    [extractFiles] returns 0 after exactly one call of [addDerivedFileInfo]
    for each record of type 'f' and no call of [addFile], whatever
    [addDerivedFileInfo] returned. *)
Theorem extractFiles_records_without_buffer (s : State D) (img : EwfImage) :
  m_img_info (this s) = Some img ->
  Forall (fun it => dataBuf it = None) (m_archivedFiles (this s)) ->
  Forall (fun it =>
            type it = 102 ->
            path_at (name it)
              (if path_isDirectory (name it) then path_depth (name it) - 1
               else path_depth (name it)) <> None)
         (m_archivedFiles (this s)) ->
  fst (extractFiles s) = Normal 0 /\
  exists calls,
    trace (snd (extractFiles s)) = trace s ++ calls /\
    existsb is_add_file calls = false /\
    List.length (filter is_service_call calls)
    = List.length (filter (fun it => type it =? 102) (m_archivedFiles (this s))).
Proof.
  intros Himg Hbuf Hpath.
  assert (Hloop : forall files (x : State D),
             Forall (fun it => dataBuf it = None) files ->
             Forall (fun it =>
                       type it = 102 ->
                       path_at (name it)
                         (if path_isDirectory (name it) then path_depth (name it) - 1
                          else path_depth (name it)) <> None) files ->
             fst (extract_loop files x) = Normal tt /\
             exists calls,
               trace (snd (extract_loop files x)) = trace x ++ calls /\
               existsb is_add_file calls = false /\
               List.length (filter is_service_call calls)
               = List.length (filter (fun it => type it =? 102) files)).
  { induction files as [|it rest IH]; intros x Hb Hp.
    - split; [reflexivity|]. exists []. cbn. rewrite app_nil_r. auto.
    - inversion Hb as [|? ? Hb1 Hb2]; inversion Hp as [|? ? Hp1 Hp2]; subst.
      cbn [extract_loop]. unfold bind.
      destruct (extract_one_without_buffer it x Hb1 Hp1)
        as (Hn & c1 & Ht1 & Hadd1 & Hcount1).
      destruct (extract_one it x) as [[u|e] x1]; cbn [fst snd] in *; [|discriminate].
      destruct (IH x1 Hb2 Hp2) as (Hn2 & c2 & Ht2 & Hadd2 & Hcount2).
      split; [exact Hn2|]. exists (c1 ++ c2). split; [|split].
      + rewrite Ht2, Ht1, app_assoc. reflexivity.
      + rewrite existsb_app, Hadd1, Hadd2. reflexivity.
      + rewrite filter_app, length_app, Hcount1, Hcount2. cbn [filter].
        destruct (type it =? 102); reflexivity. }
  unfold extractFiles, try_catch, bind, member. rewrite Himg. cbn.
  destruct (Hloop _ s Hbuf Hpath) as (Hn & calls & Ht & Hadd & Hcount).
  destruct (extract_loop (m_archivedFiles (this s)) s) as [[u|e] s1];
    cbn [fst snd] in *; [|discriminate].
  split; [reflexivity|]. exists calls. auto.
Qed.

Lemma delete_buffers_run (files : list ArchivedFile) :
  forall s : State D,
    delete_buffers files s
    = (Normal tt,
       {| this := this s; services := services s;
          trace := trace s ++ map EvDeleteArray (buffers_of files) |}).
Proof.
  induction files as [|it rest IH]; intros s.
  - cbn. rewrite app_nil_r. destruct s; reflexivity.
  - cbn [delete_buffers buffers_of]. unfold bind.
    destruct (dataBuf it) as [b|]; cbn.
    + rewrite IH. cbn. rewrite <- app_assoc. reflexivity.
    + rewrite IH. reflexivity.
Qed.

(** What [close] does. *)
Lemma close_run (s : State D) :
  close s
  = {| hollow := {| m_img_info := None;
                    m_ewfInfo := m_ewfInfo (this s);
                    m_containerFilename := "";
                    m_archivedFiles := m_archivedFiles (this s) |};
       closed_services := match m_img_info (this s) with
                          | Some i => snd (tsk_img_close i (services s))
                          | None => services s
                          end;
       closed_trace := trace s
                       ++ match m_img_info (this s) with
                          | Some i => [EvImgClose i]
                          | None => []
                          end
                       ++ map EvDeleteArray (buffers_of (m_archivedFiles (this s))) |}.
Proof.
  unfold close, bind, member, call, set_m_img_info, set_m_containerFilename,
    update_this, ret.
  destruct (m_img_info (this s)) as [img|] eqn:Himg.
  - destruct (tsk_img_close img (services s)) as [u d]. cbn.
    rewrite delete_buffers_run. cbn.
    rewrite <- app_assoc. reflexivity.
  - cbn. rewrite delete_buffers_run. cbn. rewrite Himg. reflexivity.
Qed.

(** X28: [close] closes the image if one is held, leaving the services as
    [tsk_img_close] left them, releases the array of every archived record
    once and clears the file name, but leaves [m_archivedFiles] as it was:
    the records stay in the list with the pointers to the arrays that were
    just released.  So unless no record carried an array, the object cannot
    be closed (or destroyed) again without releasing the arrays a second
    time; when none did, a further [close] calls nothing and changes
    nothing. *)
Theorem close_keeps_archived_files (s : State D) :
  (forall img u d,
     m_img_info (this s) = Some img ->
     tsk_img_close img (services s) = (u, d) ->
     close s
     = {| hollow := {| m_img_info := None;
                       m_ewfInfo := m_ewfInfo (this s);
                       m_containerFilename := "";
                       m_archivedFiles := m_archivedFiles (this s) |};
          closed_services := d;
          closed_trace := trace s ++ EvImgClose img
                          :: map EvDeleteArray
                               (buffers_of (m_archivedFiles (this s))) |}) /\
  (m_img_info (this s) = None ->
   close s
   = {| hollow := {| m_img_info := None;
                     m_ewfInfo := m_ewfInfo (this s);
                     m_containerFilename := "";
                     m_archivedFiles := m_archivedFiles (this s) |};
        closed_services := services s;
        closed_trace := trace s
                        ++ map EvDeleteArray
                             (buffers_of (m_archivedFiles (this s))) |}) /\
  (buffers_of (m_archivedFiles (this s)) <> [] -> reusable (close s) = None) /\
  (forall s',
     reusable (close s) = Some s' ->
     close s'
     = {| hollow := this s'; closed_services := services s';
          closed_trace := trace s' |}).
Proof.
  split; [|split; [|split]].
  - intros img u d Himg Hclose. rewrite close_run, Himg, Hclose. reflexivity.
  - intros Himg. rewrite close_run, Himg. reflexivity.
  - intros Hbuf. rewrite close_run. unfold reusable. cbn [hollow m_archivedFiles].
    destruct (buffers_of (m_archivedFiles (this s))); [contradiction|reflexivity].
  - intros s'. rewrite close_run. unfold reusable. cbn [hollow m_archivedFiles].
    destruct (buffers_of (m_archivedFiles (this s))) eqn:Hbuf; [|discriminate].
    intros E. inversion E; subst s'. clear E.
    rewrite close_run. cbn. rewrite Hbuf. cbn. rewrite !app_nil_r. reflexivity.
Qed.

Lemma append_empty_r (t : string) : (t ++ "")%string = t.
Proof. induction t as [|c t IH]; cbn; [reflexivity|rewrite IH; reflexivity]. Qed.

(** The catch clauses of [openContainer] log one line and give -1. *)
Lemma openContainer_catch_run (ewfError : option string) (x : Exn) (s : State D) :
  exists line,
    openContainer_catch ewfError x s
    = (Normal (-1),
       {| this := this s; services := services s;
          trace := trace s ++ [EvLogError line] |}) /\
    (ewfError = None ->
     line = catch_message "TskL01Extract::openContainer : " x).
Proof.
  unfold openContainer_catch, bind, emit, ret. eexists. split; [reflexivity|].
  intros ->. destruct x; apply append_empty_r.
Qed.

(** What [openContainer] leaves: a result 0 or -1, the records of before
    followed by new ones, the same file name, and a trace that goes on with
    the call that opens the image. *)
Lemma openContainer_frame (s : State D) :
  exists (r : Z) (added : list ArchivedFile) (o : option EwfImage)
         (calls : list Event),
    fst (openContainer s) = Normal r /\ (r = 0 \/ r = -1) /\
    m_archivedFiles (this (snd (openContainer s)))
      = m_archivedFiles (this s) ++ added /\
    m_containerFilename (this (snd (openContainer s)))
      = m_containerFilename (this s) /\
    m_img_info (this (snd (openContainer s))) = o /\
    trace (snd (openContainer s))
      = trace s ++ EvImgOpenSing (m_containerFilename (this s)) o :: calls.
Proof.
  unfold openContainer, try_catch, bind, member, call, set_m_img_info,
    set_m_ewfInfo, update_this, throw.
  destruct (tsk_img_open_sing (m_containerFilename (this s)) (services s))
    as [[img|] d]; cbn [fst snd this services trace m_img_info m_ewfInfo
                         m_containerFilename m_archivedFiles].
  2:{ destruct (tsk_error_get d) as [text d'].
      match goal with
      | |- context [openContainer_catch ?e ?x ?y] =>
          destruct (openContainer_catch_run e x y) as (line & -> & _)
      end.
      exists (-1), [], None. eexists. cbn. rewrite app_nil_r.
      repeat split; auto. rewrite <- !app_assoc. reflexivity. }
  destruct (root_file_entry img) as [err| |root].
  - match goal with
    | |- context [openContainer_catch ?e ?x ?y] =>
        destruct (openContainer_catch_run e x y) as (line & -> & _)
    end.
    exists (-1), [], (Some img). eexists. cbn. rewrite app_nil_r.
    repeat split; auto. rewrite <- !app_assoc. reflexivity.
  - exists 0, [], (Some img), []. cbn. rewrite app_nil_r. repeat split; auto.
  - destruct (utf8_name root) as [nm|err].
    2:{ match goal with
        | |- context [openContainer_catch ?e ?x ?y] =>
            destruct (openContainer_catch_run e x y) as (line & -> & _)
        end.
        exists (-1), [], (Some img). eexists. cbn. rewrite app_nil_r.
        repeat split; auto. rewrite <- !app_assoc. reflexivity. }
    match goal with
    | |- context [traverse root ?x] =>
        destruct (traverse_appends_run root x)
          as (added & (Hthis & Hsrv & Htrace) & _ & _);
        destruct (traverse root x) as [[u|e] s1]
    end; cbn [fst snd] in *.
    + destruct (extractFiles_frame s1) as (Hres & Hthis2 & calls & Htrace2).
      destruct (extractFiles s1) as [[z|e] s2]; cbn [fst snd] in *.
      * exists 0, added, (Some img), calls. cbn [ret fst snd].
        rewrite Hthis2, Hthis, Htrace2, Htrace. cbn. repeat split; auto.
        rewrite <- app_assoc. reflexivity.
      * destruct Hres as [E|E]; discriminate.
    + match goal with
      | |- context [openContainer_catch ?e ?x ?y] =>
          destruct (openContainer_catch_run e x y) as (line & -> & _)
      end.
      exists (-1), added, (Some img). eexists. cbn [fst snd this trace].
      rewrite Hthis, Htrace. cbn. repeat split; auto.
      rewrite <- !app_assoc. reflexivity.
Qed.

(** X29: the outcomes of [openContainer].  It never lets an exception out
    and returns 0 or -1.  When the image does not open it logs the text of
    [tsk_error_get] and returns -1, and the object holds no image.  When the
    image opens the object holds it from then on, also when the call fails
    later (nothing closes it): it returns -1 with one line logged when libewf
    cannot give the root entry or its name, the line ending with the back
    trace of the libewf error when there is one; 0 with nothing archived when
    there is no root entry; -1 with the exception logged, and no extraction,
    when [traverse] throws (a failed allocation among the causes); and, on a
    tree that libewf serves without error and whose contents are all
    allocated and read, 0 with one record per visited entry appended,
    whatever [extractFiles] returned afterwards (its result is dropped). *)
Theorem openContainer_outcomes (s : State D) :
  (fst (openContainer s) = Normal 0 \/ fst (openContainer s) = Normal (-1)) /\
  (forall d text d',
     tsk_img_open_sing (m_containerFilename (this s)) (services s) = (None, d) ->
     tsk_error_get d = (text, d') ->
     openContainer s
     = (Normal (-1),
        {| this := {| m_img_info := None;
                      m_ewfInfo := m_ewfInfo (this s);
                      m_containerFilename := m_containerFilename (this s);
                      m_archivedFiles := m_archivedFiles (this s) |};
           services := d';
           trace := trace s ++
             [EvImgOpenSing (m_containerFilename (this s)) None;
              EvErrorGet text;
              EvLogError
                (catch_message "TskL01Extract::openContainer : "
                   (TskException
                      ("Error with tsk_img_open: " ++ text ++ endl)))] |})) /\
  (forall img d,
     tsk_img_open_sing (m_containerFilename (this s)) (services s) = (Some img, d) ->
     m_img_info (this (snd (openContainer s))) = Some img /\
     m_ewfInfo (this (snd (openContainer s))) = Some img /\
     (forall ewfError,
        root_file_entry img = RootError ewfError ->
        openContainer s
        = (Normal (-1),
           {| this := this (opened s img d); services := d;
              trace := trace (opened s img d) ++
                [EvLogError
                   (catch_message "TskL01Extract::openContainer : "
                      (TskException
                         "TskL01Extract::openContainers - Error with libewf_handle_get_root_file_entry: ")
                    ++ match ewfError with
                       | Some text => "libewf error: " ++ text ++ endl
                       | None => ""
                       end)] |})) /\
     (root_file_entry img = RootAbsent ->
      openContainer s = (Normal 0, opened s img d)) /\
     (forall root ewfError,
        root_file_entry img = RootPresent root ->
        utf8_name root = Fails ewfError ->
        openContainer s
        = (Normal (-1),
           {| this := this (opened s img d); services := d;
              trace := trace (opened s img d) ++
                [EvLogError
                   (catch_message "TskL01Extract::openContainer : "
                      (TskException "Error with libewf_file_entry_get_utf8_name: ")
                    ++ match ewfError with
                       | Some text => "libewf error: " ++ text ++ endl
                       | None => ""
                       end)] |})) /\
     (forall root nm x s',
        root_file_entry img = RootPresent root ->
        utf8_name root = Gives nm ->
        traverse root (opened s img d) = (Thrown x, s') ->
        openContainer s
        = (Normal (-1),
           {| this := this s'; services := services s';
              trace := trace s' ++
                [EvLogError
                   (catch_message "TskL01Extract::openContainer : " x)] |})) /\
     (forall root,
        root_file_entry img = RootPresent root ->
        readable root = true ->
        fst (openContainer s) = Normal 0 /\
        m_archivedFiles (this (snd (openContainer s)))
        = m_archivedFiles (this s) ++ map archived (visited root))).
Proof.
  split; [|split].
  - destruct (openContainer_frame s) as (r & _ & _ & _ & Hr & [-> | ->] & _); auto.
  - intros d text d' Hopen Hget.
    unfold openContainer, try_catch, bind, member, call, set_m_img_info,
      update_this, throw.
    rewrite Hopen. cbn [fst snd this services trace]. rewrite Hget.
    match goal with
    | |- context [openContainer_catch ?e ?x ?y] =>
        destruct (openContainer_catch_run e x y) as (line & -> & Hline)
    end.
    rewrite (Hline eq_refl). cbn. rewrite <- !app_assoc. reflexivity.
  - intros img d Hopen.
    assert (Hgo : openContainer s
                  = match root_file_entry img with
                    | RootError ewfError =>
                        try_catch
                          (throw (TskException
                                    "TskL01Extract::openContainers - Error with libewf_handle_get_root_file_entry: "))
                          (openContainer_catch ewfError)
                    | RootAbsent => ret 0
                    | RootPresent root =>
                        match utf8_name root with
                        | Fails ewfError =>
                            try_catch
                              (throw (TskException
                                        "Error with libewf_file_entry_get_utf8_name: "))
                              (openContainer_catch ewfError)
                        | Gives _ =>
                            try_catch (traverse root ;; extractFiles ;; ret 0)
                              (openContainer_catch None)
                        end
                    end (opened s img d)).
    { unfold openContainer, bind, member, call, set_m_img_info, set_m_ewfInfo,
        update_this. rewrite Hopen. reflexivity. }
    rewrite Hgo. clear Hgo.
    destruct (root_file_entry img) as [err| |root].
    + unfold try_catch, throw, openContainer_catch, bind, emit, ret.
      cbn [fst snd this]. split; [reflexivity|]. split; [reflexivity|].
      split; [intros e E; inversion E; subst; reflexivity|].
      split; [discriminate|]. split; [discriminate|]. split; discriminate.
    + cbn [ret fst snd]. split; [reflexivity|]. split; [reflexivity|].
      split; [discriminate|]. split; [reflexivity|].
      split; [discriminate|]. split; discriminate.
    + destruct (utf8_name root) as [nm|err] eqn:Hname.
      * unfold try_catch, bind.
        destruct (traverse_appends_run root (opened s img d))
          as (added & (Happ & _ & _) & _ & _).
        pose proof (traverse_readable_run root (opened s img d)) as Hread.
        destruct (traverse root (opened s img d)) as [[u|e] s1] eqn:Hrun;
          cbn [fst snd] in *.
        -- destruct (extractFiles_frame s1) as (Hres & Hthis2 & _).
           destruct (extractFiles s1) as [[z|e] s2]; cbn [fst snd] in *.
           ++ cbn [ret fst snd]. rewrite Hthis2.
              split; [rewrite Happ; reflexivity|].
              split; [rewrite Happ; reflexivity|].
              split; [discriminate|]. split; [discriminate|].
              split; [intros r e Hroot E; inversion Hroot; subst r;
                      rewrite Hname in E; discriminate|].
              split; [intros r n x s' Hroot _ E; inversion Hroot; subst r;
                      rewrite Hrun in E; discriminate|].
              intros root' Hroot Hr. inversion Hroot; subst root'.
              destruct (Hread Hr) as (_ & (Hthis & _ & _)).
              split; [reflexivity|]. rewrite Hthis. reflexivity.
           ++ destruct Hres as [E|E]; discriminate.
        -- destruct (openContainer_catch_run None e s1) as (line & -> & Hline).
           rewrite (Hline eq_refl). cbn [fst snd this].
           split; [rewrite Happ; reflexivity|].
           split; [rewrite Happ; reflexivity|].
           split; [discriminate|]. split; [discriminate|].
           split; [intros r e' Hroot E; inversion Hroot; subst r;
                   rewrite Hname in E; discriminate|].
           split.
           ++ intros r n x s' Hroot _ E. inversion Hroot; subst r.
              rewrite Hrun in E. inversion E; subst. reflexivity.
           ++ intros root' Hroot Hr. inversion Hroot; subst root'.
              destruct (Hread Hr) as (E & _). discriminate.
      * unfold try_catch, throw, openContainer_catch, bind, emit, ret.
        cbn [fst snd this]. split; [reflexivity|]. split; [reflexivity|].
        split; [discriminate|]. split; [discriminate|].
        split; [intros r e Hroot E; inversion Hroot; subst r;
                rewrite Hname in E; inversion E; subst; reflexivity|].
        split; [intros r n x s' Hroot E; inversion Hroot; subst r;
                rewrite Hname in E; discriminate|].
        intros root' Hroot Hr. inversion Hroot; subst root'.
        destruct root as [n t f z b k l]. cbn in Hname. subst n. discriminate.
Qed.

(** X30: [open] with a file name stored closes the container the object was
    working on and releases the arrays of its records before it opens the
    next, and never empties the list of records.  So when a record carried
    an array the run goes on with a released array in the list, and has no
    outcome here.  Otherwise the call is [openContainer] on the new file
    name, after the one call of [tsk_img_close] when an image was held;
    whenever it has an outcome it returns 0 or -1, stores the new file name,
    and the records of before are still in [m_archivedFiles], in front of the
    new ones. *)
Theorem open_keeps_earlier_records (imageFile : string) (s : State D) :
  (m_containerFilename (this s) = ""%string ->
   open imageFile s
   = Some (openContainer
             {| this := {| m_img_info := m_img_info (this s);
                           m_ewfInfo := m_ewfInfo (this s);
                           m_containerFilename := imageFile;
                           m_archivedFiles := m_archivedFiles (this s) |};
                services := services s;
                trace := trace s |})) /\
  (m_containerFilename (this s) <> ""%string ->
   buffers_of (m_archivedFiles (this s)) <> [] ->
   open imageFile s = None) /\
  (m_containerFilename (this s) <> ""%string ->
   buffers_of (m_archivedFiles (this s)) = [] ->
   (forall img u d,
      m_img_info (this s) = Some img ->
      tsk_img_close img (services s) = (u, d) ->
      open imageFile s
      = Some (openContainer
                {| this := {| m_img_info := None;
                              m_ewfInfo := m_ewfInfo (this s);
                              m_containerFilename := imageFile;
                              m_archivedFiles := m_archivedFiles (this s) |};
                   services := d;
                   trace := trace s ++ [EvImgClose img] |})) /\
   (m_img_info (this s) = None ->
    open imageFile s
    = Some (openContainer
              {| this := {| m_img_info := None;
                            m_ewfInfo := m_ewfInfo (this s);
                            m_containerFilename := imageFile;
                            m_archivedFiles := m_archivedFiles (this s) |};
                 services := services s;
                 trace := trace s |}))) /\
  (forall r s',
     open imageFile s = Some (r, s') ->
     (r = Normal 0 \/ r = Normal (-1)) /\
     m_containerFilename (this s') = imageFile /\
     exists added,
       m_archivedFiles (this s') = m_archivedFiles (this s) ++ added).
Proof.
  assert (Hfresh : m_containerFilename (this s) = ""%string ->
            open imageFile s
            = Some (openContainer
                      {| this := {| m_img_info := m_img_info (this s);
                                    m_ewfInfo := m_ewfInfo (this s);
                                    m_containerFilename := imageFile;
                                    m_archivedFiles := m_archivedFiles (this s) |};
                         services := services s;
                         trace := trace s |})).
  { intros Hempty. unfold open. rewrite Hempty. reflexivity. }
  assert (Hused : m_containerFilename (this s) <> ""%string ->
            open imageFile s
            = match buffers_of (m_archivedFiles (this s)) with
              | [] =>
                  Some (openContainer
                          {| this := {| m_img_info := None;
                                        m_ewfInfo := m_ewfInfo (this s);
                                        m_containerFilename := imageFile;
                                        m_archivedFiles := m_archivedFiles (this s) |};
                             services := match m_img_info (this s) with
                                         | Some i => snd (tsk_img_close i (services s))
                                         | None => services s
                                         end;
                             trace := trace s
                                      ++ match m_img_info (this s) with
                                         | Some i => [EvImgClose i]
                                         | None => []
                                         end |})
              | _ :: _ => None
              end).
  { intros Hne. unfold open.
    destruct (String.eqb_spec (m_containerFilename (this s)) "") as [E|_];
      [contradiction|]. cbn [negb].
    rewrite close_run. unfold reusable. cbn [hollow m_archivedFiles].
    destruct (buffers_of (m_archivedFiles (this s))); [|reflexivity].
    cbn. rewrite !app_nil_r. reflexivity. }
  split; [exact Hfresh|]. split; [|split].
  - intros Hne Hbuf. rewrite (Hused Hne).
    destruct (buffers_of (m_archivedFiles (this s))); [contradiction|reflexivity].
  - intros Hne Hbuf. rewrite (Hused Hne), Hbuf. split.
    + intros img u d Himg Hclose. rewrite Himg, Hclose. reflexivity.
    + intros Himg. rewrite Himg, app_nil_r. reflexivity.
  - intros r s' Hrun.
    assert (Hvia : exists x : State D,
               openContainer x = (r, s') /\
               m_containerFilename (this x) = imageFile /\
               m_archivedFiles (this x) = m_archivedFiles (this s)).
    { destruct (String.eqb_spec (m_containerFilename (this s)) "") as [E|Hne].
      - rewrite (Hfresh E) in Hrun.
        eexists. split; [injection Hrun as Hrun'; exact Hrun'|].
        split; reflexivity.
      - rewrite (Hused Hne) in Hrun.
        destruct (buffers_of (m_archivedFiles (this s))); [|discriminate].
        eexists. split; [injection Hrun as Hrun'; exact Hrun'|].
        split; reflexivity. }
    destruct Hvia as (x & Hx & Hname & Hfiles).
    destruct (openContainer_frame x)
      as (z & added & o & calls & Hn & Hz & Hadd & Hkeep & _ & _).
    rewrite Hx in Hn, Hadd, Hkeep. cbn [fst snd] in *.
    split; [destruct Hz as [-> | ->]; auto|].
    split; [rewrite Hkeep; exact Hname|].
    exists added. rewrite Hadd, Hfiles. reflexivity.
Qed.

End ContainerProperties.

(** ** The properties of the container extraction on the small container *)

#[local] Existing Instance l01_platform.

(** An entry of 4 GiB for which the allocation fails. *)
Lemma traverse_only_appends_witness :
  services
    (snd (traverse
            (EwfNode (Gives "big.bin"%string) (Some 102) (Some 0) (Gives (2 ^ 32))
               (NoMemory "std::bad_alloc") 0 [])
            (l01_state None "" [])))
  = [] /\
  trace
    (snd (traverse
            (EwfNode (Gives "big.bin"%string) (Some 102) (Some 0) (Gives (2 ^ 32))
               (NoMemory "std::bad_alloc") 0 [])
            (l01_state None "" [])))
  = [].
Proof.
  destruct (traverse_only_appends
              (EwfNode (Gives "big.bin"%string) (Some 102) (Some 0) (Gives (2 ^ 32))
                 (NoMemory "std::bad_alloc") 0 [])
              (l01_state None "" []))
    as (added & _ & Hsrv & Htrace & _ & _).
  split; [exact Hsrv|exact Htrace].
Defined.

Lemma traverse_readable_tree_witness :
  map name
    (m_archivedFiles
       (this (snd (traverse l01_root (l01_state None "" [])))))
  = ["docs"%string; "a.txt"%string; "empty"%string].
Proof.
  destruct (traverse_readable_tree (plat := l01_platform) l01_root
              (l01_state None "" []) eq_refl) as (_ & (Hthis & _ & _) & _).
  rewrite Hthis. reflexivity.
Defined.

Lemma extractFiles_ignores_other_types_witness :
  extractFiles (srv := l01_services)
    (l01_state (Some l01_image) "evidence.L01" [archived l01_root])
  = (Normal 0, l01_state (Some l01_image) "evidence.L01" [archived l01_root]).
Proof.
  apply (extractFiles_ignores_other_types (srv := l01_services)
           (l01_state (Some l01_image) "evidence.L01" [archived l01_root])
           l01_image eq_refl).
  repeat constructor. discriminate.
Defined.

Lemma extractFiles_records_without_buffer_witness :
  fst (extractFiles (srv := l01_services)
         (l01_state (Some l01_image) "evidence.L01"
            [archived (l01_file "empty" 0 None)]))
  = Normal 0.
Proof.
  destruct (extractFiles_records_without_buffer (srv := l01_services)
              (l01_state (Some l01_image) "evidence.L01"
                 [archived (l01_file "empty" 0 None)]) l01_image eq_refl)
    as (H & _).
  - repeat constructor.
  - repeat constructor. intros _. discriminate.
  - exact H.
Defined.

Lemma openContainer_outcomes_witness :
  fst (openContainer (srv := l01_services) (l01_state None "evidence.L01" []))
  = Normal 0 /\
  map name
    (m_archivedFiles
       (this (snd (openContainer (srv := l01_services)
                     (l01_state None "evidence.L01" [])))))
  = ["docs"%string; "a.txt"%string; "empty"%string] /\
  openContainer (srv := l01_services) (l01_state None "missing.L01" [])
  = (Normal (-1),
     {| this := this (l01_state None "missing.L01" []);
        services := [];
        trace := [EvImgOpenSing "missing.L01" None;
                  EvErrorGet "Cannot open image";
                  EvLogError
                    ("TskL01Extract::openContainer : TskException: Error with tsk_img_open: Cannot open image"
                     ++ endl)] |}).
Proof.
  destruct (openContainer_outcomes (srv := l01_services) (plat := l01_platform)
              (l01_state None "evidence.L01" [])) as (_ & _ & Hopen).
  destruct (Hopen l01_image [] eq_refl) as (_ & _ & _ & _ & _ & _ & Hroot).
  destruct (Hroot l01_root eq_refl eq_refl) as (H0 & Hfiles).
  split; [exact H0|]. split; [rewrite Hfiles; reflexivity|].
  destruct (openContainer_outcomes (srv := l01_services)
              (l01_state None "missing.L01" [])) as (_ & Hfail & _).
  exact (Hfail [] "Cannot open image"%string [] eq_refl eq_refl).
Defined.

Lemma close_keeps_archived_files_witness :
  close (srv := l01_services)
    (l01_state (Some l01_image) "evidence.L01"
       [archived (l01_file "a.txt" 3 (Some [97; 98; 99]))])
  = {| hollow := {| m_img_info := None;
                    m_ewfInfo := Some l01_image;
                    m_containerFilename := "";
                    m_archivedFiles :=
                      [archived (l01_file "a.txt" 3 (Some [97; 98; 99]))] |};
       closed_services := [];
       closed_trace := [EvImgClose l01_image; EvDeleteArray [97; 98; 99]] |} /\
  reusable
    (close (srv := l01_services)
       (l01_state (Some l01_image) "evidence.L01"
          [archived (l01_file "a.txt" 3 (Some [97; 98; 99]))]))
  = None.
Proof.
  destruct (close_keeps_archived_files (srv := l01_services)
              (l01_state (Some l01_image) "evidence.L01"
                 [archived (l01_file "a.txt" 3 (Some [97; 98; 99]))]))
    as (Hheld & _ & Hbuf & _).
  split.
  - exact (Hheld l01_image tt [] eq_refl eq_refl).
  - apply Hbuf. discriminate.
Defined.

Lemma open_keeps_earlier_records_witness :
  open (srv := l01_services) "evidence.L01" (l01_state None "" [])
  = Some (openContainer (srv := l01_services) (l01_state None "evidence.L01" [])) /\
  open (srv := l01_services) "next.L01"
    (l01_state (Some l01_image) "evidence.L01"
       [archived (l01_file "a.txt" 3 (Some [97; 98; 99]))])
  = None.
Proof.
  split.
  - destruct (open_keeps_earlier_records (srv := l01_services) "evidence.L01"
                (l01_state None "" [])) as (H & _).
    exact (H eq_refl).
  - destruct (open_keeps_earlier_records (srv := l01_services) "next.L01"
                (l01_state (Some l01_image) "evidence.L01"
                   [archived (l01_file "a.txt" 3 (Some [97; 98; 99]))]))
      as (_ & H & _).
    apply H; discriminate.
Defined.
